(** * NFTMarketplace: settlement logic of the marketplace contract

    A shallow embedding of the [NFTMarketplace] contract (Solidity ^0.8.20):
    fixed-price listings, English auctions, the fee and royalty split and
    the pending-withdrawal ledger.

    - [uint256] and [address] values are binary naturals; the checked
      arithmetic of Solidity 0.8 is written out ([add256], [sub256],
      [mul256] abort with [Panic] instead of wrapping).
    - Solidity mappings are finite maps read with a zero default.
    - A call runs in the transaction monad [Tx]: it threads the contract
      storage and a trace of the external calls and events it produces, and
      a revert discards both.
    - External calls succeed or fail as the call context says, and each one
      is recorded together with the storage the callee would observe at
      that moment.  A native payment also needs the contract to hold the
      amount.  Payments (2300 gas) and token calls do not call back into
      the contract; a receiver hook runs with all the gas left, and what
      it does to the contract before it answers is an explicit argument
      of the functions that call it ([mintNFT], [safeTransferFrom]). *)

From Stdlib Require Import NArith Lia.
From stdpp Require Import base option list gmap strings.

Local Open Scope N_scope.

(** ** Values *)

Definition address := N.
Definition uint256_max : N := 2 ^ 256 - 1.

Definition fromOption {A} (d : A) (o : option A) : A :=
  match o with Some a => a | None => d end.

(** ** Storage structs *)

Module Listing.

Record t := mk {
  tokenId : N;
  seller : address;
  price : N;
  paymentToken : address;
  active : bool;
  createdAt : N;
}.

Definition zero : t := mk 0 0 0 0 false 0.

End Listing.

Module Auction.

Record t := mk {
  tokenId : N;
  seller : address;
  startingPrice : N;
  currentBid : N;
  currentBidder : address;
  paymentToken : address;
  endTime : N;
  active : bool;
  createdAt : N;
}.

Definition zero : t := mk 0 0 0 0 0 0 0 false 0.

(** [auction.active = b] *)
Definition set_active (b : bool) (a : t) : t :=
  mk (tokenId a) (seller a) (startingPrice a) (currentBid a)
     (currentBidder a) (paymentToken a) (endTime a) b (createdAt a).

(** [auction.currentBid = bid; auction.currentBidder = bidder] *)
Definition set_bid (bid : N) (bidder : address) (a : t) : t :=
  mk (tokenId a) (seller a) (startingPrice a) bid bidder
     (paymentToken a) (endTime a) (active a) (createdAt a).

End Auction.

(** ** Contract storage

    The fields with a leading underscore belong to the base contracts
    (ERC-721 registry, royalty table, Ownable, Pausable, ReentrancyGuard,
    Counters); the others are declared by [NFTMarketplace] itself. *)

Record Store := mkStore {
  _owners : gmap N address;
  _tokenApprovals : gmap N address;
  _operatorApprovals : gmap (address * address) bool;
  _tokenURIs : gmap N string;
  _tokenRoyaltyInfo : gmap N (address * N);
  _owner : address;
  _paused : bool;
  _status : bool;
  _tokenIdCounter : N;
  marketplaceFee : N;
  usdtToken : address;
  listings : gmap N Listing.t;
  auctions : gmap N Auction.t;
  pendingWithdrawals : gmap address N;
  approvedNFTs : gmap N bool;
}.

(** Field updates. *)

Definition upd_owners
    (f : gmap N address -> gmap N address) (s : Store)
  : Store :=
  mkStore (f (_owners s)) (_tokenApprovals s) (_operatorApprovals s)
    (_tokenURIs s) (_tokenRoyaltyInfo s) (_owner s) (_paused s) (_status s)
    (_tokenIdCounter s) (marketplaceFee s) (usdtToken s) (listings s)
    (auctions s) (pendingWithdrawals s) (approvedNFTs s).

Definition upd_tokenApprovals
    (f : gmap N address -> gmap N address) (s : Store)
  : Store :=
  mkStore (_owners s) (f (_tokenApprovals s)) (_operatorApprovals s)
    (_tokenURIs s) (_tokenRoyaltyInfo s) (_owner s) (_paused s) (_status s)
    (_tokenIdCounter s) (marketplaceFee s) (usdtToken s) (listings s)
    (auctions s) (pendingWithdrawals s) (approvedNFTs s).

Definition upd_operatorApprovals
    (f : gmap (address * address) bool -> gmap (address * address) bool) (s : Store)
  : Store :=
  mkStore (_owners s) (_tokenApprovals s) (f (_operatorApprovals s))
    (_tokenURIs s) (_tokenRoyaltyInfo s) (_owner s) (_paused s) (_status s)
    (_tokenIdCounter s) (marketplaceFee s) (usdtToken s) (listings s)
    (auctions s) (pendingWithdrawals s) (approvedNFTs s).

Definition upd_tokenURIs
    (f : gmap N string -> gmap N string) (s : Store)
  : Store :=
  mkStore (_owners s) (_tokenApprovals s) (_operatorApprovals s)
    (f (_tokenURIs s)) (_tokenRoyaltyInfo s) (_owner s) (_paused s)
    (_status s) (_tokenIdCounter s) (marketplaceFee s) (usdtToken s)
    (listings s) (auctions s) (pendingWithdrawals s) (approvedNFTs s).

Definition upd_tokenRoyaltyInfo
    (f : gmap N (address * N) -> gmap N (address * N)) (s : Store)
  : Store :=
  mkStore (_owners s) (_tokenApprovals s) (_operatorApprovals s)
    (_tokenURIs s) (f (_tokenRoyaltyInfo s)) (_owner s) (_paused s)
    (_status s) (_tokenIdCounter s) (marketplaceFee s) (usdtToken s)
    (listings s) (auctions s) (pendingWithdrawals s) (approvedNFTs s).

Definition upd_owner (f : address -> address) (s : Store) : Store :=
  mkStore (_owners s) (_tokenApprovals s) (_operatorApprovals s)
    (_tokenURIs s) (_tokenRoyaltyInfo s) (f (_owner s)) (_paused s)
    (_status s) (_tokenIdCounter s) (marketplaceFee s) (usdtToken s)
    (listings s) (auctions s) (pendingWithdrawals s) (approvedNFTs s).

Definition upd_paused (f : bool -> bool) (s : Store) : Store :=
  mkStore (_owners s) (_tokenApprovals s) (_operatorApprovals s)
    (_tokenURIs s) (_tokenRoyaltyInfo s) (_owner s) (f (_paused s))
    (_status s) (_tokenIdCounter s) (marketplaceFee s) (usdtToken s)
    (listings s) (auctions s) (pendingWithdrawals s) (approvedNFTs s).

Definition upd_status (f : bool -> bool) (s : Store) : Store :=
  mkStore (_owners s) (_tokenApprovals s) (_operatorApprovals s)
    (_tokenURIs s) (_tokenRoyaltyInfo s) (_owner s) (_paused s)
    (f (_status s)) (_tokenIdCounter s) (marketplaceFee s) (usdtToken s)
    (listings s) (auctions s) (pendingWithdrawals s) (approvedNFTs s).

Definition upd_tokenIdCounter (f : N -> N) (s : Store) : Store :=
  mkStore (_owners s) (_tokenApprovals s) (_operatorApprovals s)
    (_tokenURIs s) (_tokenRoyaltyInfo s) (_owner s) (_paused s) (_status s)
    (f (_tokenIdCounter s)) (marketplaceFee s) (usdtToken s) (listings s)
    (auctions s) (pendingWithdrawals s) (approvedNFTs s).

Definition upd_marketplaceFee (f : N -> N) (s : Store) : Store :=
  mkStore (_owners s) (_tokenApprovals s) (_operatorApprovals s)
    (_tokenURIs s) (_tokenRoyaltyInfo s) (_owner s) (_paused s) (_status s)
    (_tokenIdCounter s) (f (marketplaceFee s)) (usdtToken s) (listings s)
    (auctions s) (pendingWithdrawals s) (approvedNFTs s).

Definition upd_usdtToken (f : address -> address) (s : Store) : Store :=
  mkStore (_owners s) (_tokenApprovals s) (_operatorApprovals s)
    (_tokenURIs s) (_tokenRoyaltyInfo s) (_owner s) (_paused s) (_status s)
    (_tokenIdCounter s) (marketplaceFee s) (f (usdtToken s)) (listings s)
    (auctions s) (pendingWithdrawals s) (approvedNFTs s).

Definition upd_listings
    (f : gmap N Listing.t -> gmap N Listing.t) (s : Store)
  : Store :=
  mkStore (_owners s) (_tokenApprovals s) (_operatorApprovals s)
    (_tokenURIs s) (_tokenRoyaltyInfo s) (_owner s) (_paused s) (_status s)
    (_tokenIdCounter s) (marketplaceFee s) (usdtToken s) (f (listings s))
    (auctions s) (pendingWithdrawals s) (approvedNFTs s).

Definition upd_auctions
    (f : gmap N Auction.t -> gmap N Auction.t) (s : Store)
  : Store :=
  mkStore (_owners s) (_tokenApprovals s) (_operatorApprovals s)
    (_tokenURIs s) (_tokenRoyaltyInfo s) (_owner s) (_paused s) (_status s)
    (_tokenIdCounter s) (marketplaceFee s) (usdtToken s) (listings s)
    (f (auctions s)) (pendingWithdrawals s) (approvedNFTs s).

Definition upd_pendingWithdrawals
    (f : gmap address N -> gmap address N) (s : Store)
  : Store :=
  mkStore (_owners s) (_tokenApprovals s) (_operatorApprovals s)
    (_tokenURIs s) (_tokenRoyaltyInfo s) (_owner s) (_paused s) (_status s)
    (_tokenIdCounter s) (marketplaceFee s) (usdtToken s) (listings s)
    (auctions s) (f (pendingWithdrawals s)) (approvedNFTs s).

Definition upd_approvedNFTs
    (f : gmap N bool -> gmap N bool) (s : Store)
  : Store :=
  mkStore (_owners s) (_tokenApprovals s) (_operatorApprovals s)
    (_tokenURIs s) (_tokenRoyaltyInfo s) (_owner s) (_paused s) (_status s)
    (_tokenIdCounter s) (marketplaceFee s) (usdtToken s) (listings s)
    (auctions s) (pendingWithdrawals s) (f (approvedNFTs s)).

(** Reads of the mappings, with Solidity's zero default. *)

Definition getListing (s : Store) (tokenId : N) : Listing.t :=
  fromOption Listing.zero (listings s !! tokenId).
Definition getAuction (s : Store) (tokenId : N) : Auction.t :=
  fromOption Auction.zero (auctions s !! tokenId).
Definition getPending (s : Store) (a : address) : N :=
  fromOption 0 (pendingWithdrawals s !! a).
Definition isTokenApproved (s : Store) (tokenId : N) : bool :=
  fromOption false (approvedNFTs s !! tokenId).
Definition _ownerOf (s : Store) (tokenId : N) : address :=
  fromOption 0 (_owners s !! tokenId).
Definition _getApproved (s : Store) (tokenId : N) : address :=
  fromOption 0 (_tokenApprovals s !! tokenId).
Definition isApprovedForAll (s : Store) (owner operator : address) : bool :=
  fromOption false (_operatorApprovals s !! (owner, operator)).

(** ** Events and external calls *)

Inductive Event :=
| NFTMinted (tokenId : N) (creator : address) (tokenURI : string)
| NFTListed (tokenId : N) (seller : address) (price : N) (paymentToken : address)
| NFTSold (tokenId : N) (seller buyer : address) (price : N) (paymentToken : address)
| ListingCancelled (tokenId : N) (seller : address)
| AuctionCreated (tokenId : N) (seller : address) (startingPrice endTime : N)
                 (paymentToken : address)
| BidPlaced (tokenId : N) (bidder : address) (amount : N)
| AuctionEnded (tokenId : N) (winner : address) (amount : N)
| MarketplaceFeeUpdated (newFee : N)
| USDTTokenUpdated (newToken : address)
| NFTApproved (tokenId : N) (approved : bool)
| RoyaltySet (tokenId : N) (recipient : address) (feeNumerator : N).

Inductive ExtCall :=
| SendNative (to : address) (amount : N)
| Erc20TransferFrom (token from to : address) (amount : N)
| Erc20Transfer (token to : address) (amount : N)
| Erc20BalanceOf (token account : address)
| OnERC721Received (to : address) (tokenId : N).

(** An external call is logged with the storage as it is when control
    leaves the contract. *)
Inductive Effect :=
| Call (c : ExtCall) (at_call : Store)
| Emit (e : Event).

Definition Trace := list Effect.

Definition callOf (e : Effect) : option ExtCall :=
  match e with Call c _ => Some c | Emit _ => None end.

Definition calls (tr : Trace) : list ExtCall := omap callOf tr.

(** The native currency a call hands over. *)
Definition nativeOut (c : ExtCall) : N :=
  match c with
  | SendNative _ amount => amount
  | _ => 0
  end.

(** The native currency paid out along a trace: what has left the
    contract's balance since the call started. *)
Fixpoint nativeSent (tr : Trace) : N :=
  match tr with
  | [] => 0
  | Call c _ :: rest => nativeOut c + nativeSent rest
  | Emit _ :: rest => nativeSent rest
  end.

Definition mapEffect (f : Store -> Store) (e : Effect) : Effect :=
  match e with Call c st => Call c (f st) | Emit ev => Emit ev end.

(** ** The transaction monad *)

Inductive Error :=
| Revert (reason : string)
| CustomError (name : string)
| Panic
| CallFailed.

Inductive Result (A : Type) :=
| Ok (a : A)
| Err (e : Error).
Arguments Ok {A} a.
Arguments Err {A} e.

Definition Tx (A : Type) : Type := Store -> Trace -> Result (A * Store * Trace).

Definition ret {A} (a : A) : Tx A := fun s tr => Ok (a, s, tr).

Definition bind {A B} (m : Tx A) (k : A -> Tx B) : Tx B :=
  fun s tr =>
    match m s tr with
    | Ok (a, s', tr') => k a s' tr'
    | Err e => Err e
    end.

Notation "'let*' x := m 'in' k" := (bind m (fun x => k))
  (at level 10, x pattern, m at level 100, k at level 200).
Notation "m ;; k" := (bind m (fun _ => k))
  (at level 100, k at level 200, right associativity).

Definition fail {A} (e : Error) : Tx A := fun _ _ => Err e.
Definition require (cond : bool) (reason : string) : Tx unit :=
  if cond then ret tt else fail (Revert reason).
Definition get : Tx Store := fun s tr => Ok (s, s, tr).
Definition modify (f : Store -> Store) : Tx unit := fun s tr => Ok (tt, f s, tr).
Definition emit (e : Event) : Tx unit := fun s tr => Ok (tt, s, tr ++ [Emit e]).
Definition when (cond : bool) (m : Tx unit) : Tx unit :=
  if cond then m else ret tt.

(** An external call that either goes through (and is logged with the
    current storage) or aborts the transaction. *)
Definition extcall (c : ExtCall) (succeeds : bool) : Tx unit :=
  fun s tr => if succeeds then Ok (tt, s, tr ++ [Call c s]) else Err CallFailed.

(** A transaction starts with an empty trace. *)
Definition run {A} (m : Tx A) (s : Store) : Result (A * Store * Trace) := m s [].

Definition mapResult {A} (f : Store -> Store) (r : Result (A * Store * Trace))
  : Result (A * Store * Trace) :=
  match r with
  | Ok (a, s, tr) => Ok (a, f s, map (mapEffect f) tr)
  | Err e => Err e
  end.

(** Checked [uint256] arithmetic. *)
Definition add256 (a b : N) : Tx N :=
  if a + b <=? uint256_max then ret (a + b) else fail Panic.
Definition sub256 (a b : N) : Tx N :=
  if b <=? a then ret (a - b) else fail Panic.
Definition mul256 (a b : N) : Tx N :=
  if a * b <=? uint256_max then ret (a * b) else fail Panic.

(** ** Call context

    The message sender, the block timestamp, the contract's own address
    and native balance, and the behaviour of the accounts and token
    contracts the transaction talks to.

    [self_balance] is the native currency the contract holds when the
    call arrives; the value sent with a payable call comes on top of it
    ([receiving]).  [has_code] tells a contract from an externally owned
    account ([to.code.length > 0]). *)

Record Env := mkEnv {
  msg_sender : address;
  block_timestamp : N;
  this : address;
  self_balance : N;
  native_accepts : address -> N -> bool;
  erc20_transferFrom : address -> address -> address -> N -> option bool;
  erc20_transfer : address -> address -> N -> option bool;
  erc20_balanceOf : address -> address -> option N;
  has_code : address -> bool;
  erc721_receiver_ok : address -> N -> bool;
}.

(** The same context with another native balance. *)
Definition holding (balance : N) (env : Env) : Env :=
  {| msg_sender := msg_sender env; block_timestamp := block_timestamp env;
     this := this env;
     self_balance := balance;
     native_accepts := native_accepts env;
     erc20_transferFrom := erc20_transferFrom env;
     erc20_transfer := erc20_transfer env;
     erc20_balanceOf := erc20_balanceOf env;
     has_code := has_code env;
     erc721_receiver_ok := erc721_receiver_ok env |}.

(** The context in which the body of a payable call runs: the value sent
    with the call is part of the contract's balance. *)
Definition receiving (msg_value : N) (env : Env) : Env :=
  holding (self_balance env + msg_value) env.

(** The trace of the call so far. *)
Definition getTrace : Tx Trace := fun s tr => Ok (tr, s, tr).

(** [payable(to).transfer(amount)]: the payment aborts the transaction
    when the contract does not hold [amount] (the balance the body
    started with less what the call has paid out since) or when the
    recipient does not accept it. *)
Definition sendNative (env : Env) (to : address) (amount : N) : Tx unit :=
  let* tr := getTrace in
  extcall (SendNative to amount)
    ((nativeSent tr + amount <=? self_balance env)
     && native_accepts env to amount).

(** [IERC20(token).transferFrom(from, to, amount)], returning the callee's
    boolean. *)
Definition tokenTransferFrom (env : Env) (token from to : address) (amount : N)
  : Tx bool :=
  match erc20_transferFrom env token from to amount with
  | Some b => extcall (Erc20TransferFrom token from to amount) true ;; ret b
  | None => fail CallFailed
  end.

(** [IERC20(token).transfer(to, amount)] *)
Definition tokenTransfer (env : Env) (token to : address) (amount : N) : Tx bool :=
  match erc20_transfer env token to amount with
  | Some b => extcall (Erc20Transfer token to amount) true ;; ret b
  | None => fail CallFailed
  end.

(** ** Base contracts

    The marketplace inherits its ownership registry, royalty table, access
    control, pause switch and reentrancy guard from imported base
    contracts whose sources are not part of the repository.  The
    definitions of this section model those imports: they follow the
    collaborators' contracts of the specification (ownership registry,
    royalty lookup, administrator gate, circuit breaker) and the errors
    the repository's tests expect ([EnforcedPause],
    [OwnableUnauthorizedAccount]). *)

(** Modelled from the spec: the registry's [ownerOf(itemId) -> account];
    the lookup of an item that does not exist aborts. *)
Definition ownerOf (tokenId : N) : Tx address :=
  let* s := get in
  let owner := _ownerOf s tokenId in
  if owner =? 0 then fail (CustomError "ERC721NonexistentToken") else ret owner.

(** Modelled from the spec: who may move an item in the registry: its
    owner, an operator of the owner, or the account approved for the
    item. *)
Definition _isAuthorized (s : Store) (owner spender : address) (tokenId : N) : bool :=
  negb (spender =? 0) &&
  ((owner =? spender) || isApprovedForAll s owner spender
   || (_getApproved s tokenId =? spender)).

(** Modelled from the spec: the registry's ownership update; it clears the
    per-item approval of an existing item, records the new owner and
    returns the previous one.  [auth = 0] skips the authorization check. *)
Definition _update (to : address) (tokenId : N) (auth : address) : Tx address :=
  let* s := get in
  let from := _ownerOf s tokenId in
  (if auth =? 0 then ret tt
   else if _isAuthorized s from auth tokenId then ret tt
   else if from =? 0 then fail (CustomError "ERC721NonexistentToken")
   else fail (CustomError "ERC721InsufficientApproval")) ;;
  when (negb (from =? 0)) (modify (upd_tokenApprovals (delete tokenId))) ;;
  modify (upd_owners (<[tokenId := to]>)) ;;
  ret from.

(** Modelled from the spec: the registry's [transfer(from, to, itemId)],
    unconditional once authorized; it aborts when [from] is not the
    current owner. *)
Definition _transfer (from to : address) (tokenId : N) : Tx unit :=
  (if to =? 0 then fail (CustomError "ERC721InvalidReceiver") else ret tt) ;;
  let* previousOwner := _update to tokenId 0 in
  if previousOwner =? 0 then fail (CustomError "ERC721NonexistentToken")
  else if negb (previousOwner =? from) then fail (CustomError "ERC721IncorrectOwner")
  else ret tt.

(** Modelled from the spec: the public transfer of the registry, called by
    the owner or an approved account. *)
Definition transferFrom (env : Env) (from to : address) (tokenId : N) : Tx unit :=
  (if to =? 0 then fail (CustomError "ERC721InvalidReceiver") else ret tt) ;;
  let* previousOwner := _update to tokenId (msg_sender env) in
  if negb (previousOwner =? from) then fail (CustomError "ERC721IncorrectOwner")
  else ret tt.

(** Modelled from the spec: the acceptance check that follows a safe mint
    or a safe transfer.  An account without code is not asked.  A
    contract is called with all the gas left, so before it answers it can
    call back into the marketplace, which holds no lock at that point:
    [callbacks] is what those calls do.  A recipient that does not
    answer with the acceptance value aborts the transaction. *)
Definition _checkOnERC721Received (env : Env) (to : address) (tokenId : N)
    (callbacks : Tx unit) : Tx unit :=
  if has_code env to then
    extcall (OnERC721Received to tokenId) true ;;
    callbacks ;;
    (if erc721_receiver_ok env to tokenId then ret tt
     else fail (CustomError "ERC721InvalidReceiver"))
  else ret tt.

Definition safeTransferFrom (env : Env) (from to : address) (tokenId : N)
    (callbacks : Tx unit) : Tx unit :=
  transferFrom env from to tokenId ;;
  _checkOnERC721Received env to tokenId callbacks.

(** Modelled from the spec: per-item approval, granted by the owner or one
    of the owner's operators. *)
Definition approve (env : Env) (to : address) (tokenId : N) : Tx unit :=
  let* owner := ownerOf tokenId in
  let* s := get in
  let auth := msg_sender env in
  if negb (auth =? 0) && negb (owner =? auth) && negb (isApprovedForAll s owner auth)
  then fail (CustomError "ERC721InvalidApprover")
  else modify (upd_tokenApprovals (<[tokenId := to]>)).

Definition setApprovalForAll (env : Env) (operator : address) (approved : bool)
  : Tx unit :=
  if operator =? 0 then fail (CustomError "ERC721InvalidOperator")
  else modify (upd_operatorApprovals (<[(msg_sender env, operator) := approved]>)).

(** Modelled from the spec: minting assigns a fresh item to [to] and then
    asks a receiving contract to accept it. *)
Definition _safeMint (env : Env) (to : address) (tokenId : N)
    (callbacks : Tx unit) : Tx unit :=
  (if to =? 0 then fail (CustomError "ERC721InvalidReceiver") else ret tt) ;;
  let* previousOwner := _update to tokenId 0 in
  (if negb (previousOwner =? 0) then fail (CustomError "ERC721InvalidSender")
   else ret tt) ;;
  _checkOnERC721Received env to tokenId callbacks.

Definition _setTokenURI (tokenId : N) (uri : string) : Tx unit :=
  modify (upd_tokenURIs (<[tokenId := uri]>)).

(** Modelled from the spec: the royalty policy of an item, a recipient and
    a rate in basis points (at most 10000) fixed at mint time. *)
Definition _feeDenominator : N := 10000.

Definition _setTokenRoyalty (tokenId : N) (receiver : address) (feeNumerator : N)
  : Tx unit :=
  if _feeDenominator <? feeNumerator
  then fail (CustomError "ERC2981InvalidTokenRoyalty")
  else if receiver =? 0
  then fail (CustomError "ERC2981InvalidTokenRoyaltyReceiver")
  else modify (upd_tokenRoyaltyInfo (<[tokenId := (receiver, feeNumerator)]>)).

(** Modelled from the spec: the royalty lookup
    [royaltyInfo(itemId, salePrice) -> (recipient, amount)], the amount
    being the item's rate applied to the sale price with truncating
    division; an item without a policy has recipient 0 and amount 0. *)
Definition royaltyInfo (tokenId salePrice : N) : Tx (address * N) :=
  let* s := get in
  let royalty := fromOption (0, 0) (_tokenRoyaltyInfo s !! tokenId) in
  let* product := mul256 salePrice (snd royalty) in
  ret (fst royalty, product / _feeDenominator).

(** Modelled from the spec: administrator gate; every admin operation
    requires the caller to be the administrator. *)
Definition onlyOwner {A} (env : Env) (body : Tx A) : Tx A :=
  let* s := get in
  if negb (_owner s =? msg_sender env)
  then fail (CustomError "OwnableUnauthorizedAccount")
  else body.

Definition transferOwnership (env : Env) (newOwner : address) : Tx unit :=
  onlyOwner env (
    if newOwner =? 0 then fail (CustomError "OwnableInvalidOwner")
    else modify (upd_owner (fun _ => newOwner))).

Definition renounceOwnership (env : Env) : Tx unit :=
  onlyOwner env (modify (upd_owner (fun _ => 0))).

(** Modelled from the spec: the global circuit breaker. *)
Definition whenNotPaused {A} (body : Tx A) : Tx A :=
  let* s := get in
  if _paused s then fail (CustomError "EnforcedPause") else body.

Definition whenPaused {A} (body : Tx A) : Tx A :=
  let* s := get in
  if _paused s then body else fail (CustomError "ExpectedPause").

(** The reentrancy guard: the status word is set for the duration of the
    body and cleared afterwards. *)
Definition nonReentrant {A} (body : Tx A) : Tx A :=
  let* s := get in
  if _status s then fail (CustomError "ReentrancyGuardReentrantCall")
  else
    modify (upd_status (fun _ => true)) ;;
    let* r := body in
    modify (upd_status (fun _ => false)) ;;
    ret r.

(** ** NFTMarketplace *)

Definition MAX_MARKETPLACE_FEE : N := 1000.
Definition one_hour : N := 3600.
Definition seven_days : N := 604800.

(** State after the constructor, deployed by [deployer]. *)
Definition constructor_ (deployer _usdtToken : address) : Store :=
  {| _owners := ∅; _tokenApprovals := ∅; _operatorApprovals := ∅;
     _tokenURIs := ∅; _tokenRoyaltyInfo := ∅;
     _owner := deployer; _paused := false; _status := false;
     _tokenIdCounter := 0; marketplaceFee := 250; usdtToken := _usdtToken;
     listings := ∅; auctions := ∅; pendingWithdrawals := ∅;
     approvedNFTs := ∅ |}.

Definition onlyTokenOwner {A} (env : Env) (tokenId : N) (body : Tx A) : Tx A :=
  let* owner := ownerOf tokenId in
  require (owner =? msg_sender env) "Not token owner" ;;
  body.

Definition onlyApprovedNFT {A} (tokenId : N) (body : Tx A) : Tx A :=
  let* s := get in
  require (isTokenApproved s tokenId) "NFT not approved for marketplace" ;;
  body.

(** [mintNFT] takes no reentrancy lock: while the recipient's hook runs
    the counter is already advanced and the item assigned, and the URI
    and the royalty are written after the hook has returned. *)
Definition mintNFT (env : Env) (to : address) (tokenURI : string)
    (royaltyRecipient : address) (royaltyFeeNumerator : N)
    (callbacks : Tx unit) : Tx N :=
  let* s := get in
  let tokenId := _tokenIdCounter s in
  modify (upd_tokenIdCounter (fun c => (c + 1) mod 2 ^ 256)) ;;
  _safeMint env to tokenId callbacks ;;
  _setTokenURI tokenId tokenURI ;;
  when (negb (royaltyRecipient =? 0) && (0 <? royaltyFeeNumerator))
    (_setTokenRoyalty tokenId royaltyRecipient royaltyFeeNumerator ;;
     emit (RoyaltySet tokenId royaltyRecipient royaltyFeeNumerator)) ;;
  emit (NFTMinted tokenId to tokenURI) ;;
  ret tokenId.

(** The statements of [approveNFT], which are also the body of each
    iteration of [batchApproveNFTs]. *)
Definition approveNFT_body (tokenId : N) (approved : bool) : Tx unit :=
  let* s := get in
  require (negb (_ownerOf s tokenId =? 0)) "Token does not exist" ;;
  modify (upd_approvedNFTs (<[tokenId := approved]>)) ;;
  emit (NFTApproved tokenId approved).

Definition approveNFT (env : Env) (tokenId : N) (approved : bool) : Tx unit :=
  onlyOwner env (approveNFT_body tokenId approved).

Fixpoint batchApproveNFTs_loop (tokenIds : list N) (approved : bool) : Tx unit :=
  match tokenIds with
  | [] => ret tt
  | tokenId :: rest =>
      approveNFT_body tokenId approved ;;
      batchApproveNFTs_loop rest approved
  end.

Definition batchApproveNFTs (env : Env) (tokenIds : list N) (approved : bool)
  : Tx unit :=
  onlyOwner env (batchApproveNFTs_loop tokenIds approved).

(** *** Fixed-price listings *)

Definition listNFT (env : Env) (tokenId price : N) (paymentToken : address)
  : Tx unit :=
  onlyTokenOwner env tokenId (onlyApprovedNFT tokenId (whenNotPaused (
    require (0 <? price) "Price must be greater than 0" ;;
    let* s := get in
    require ((paymentToken =? 0) || (paymentToken =? usdtToken s))
      "Invalid payment token" ;;
    require (negb (Listing.active (getListing s tokenId))) "Already listed" ;;
    require (negb (Auction.active (getAuction s tokenId))) "Token in auction" ;;
    modify (upd_listings (<[tokenId :=
      Listing.mk tokenId (msg_sender env) price paymentToken true
                 (block_timestamp env)]>)) ;;
    emit (NFTListed tokenId (msg_sender env) price paymentToken)))).

Definition buyNFT (env : Env) (msg_value : N) (tokenId : N) : Tx unit :=
  nonReentrant (whenNotPaused (
    let* s := get in
    let listing := getListing s tokenId in
    require (Listing.active listing) "Not listed for sale" ;;
    require (negb (Listing.seller listing =? msg_sender env))
      "Cannot buy your own NFT" ;;
    let totalPrice := Listing.price listing in
    let seller := Listing.seller listing in
    let paymentToken := Listing.paymentToken listing in
    let* product := mul256 totalPrice (marketplaceFee s) in
    let marketplaceFeeAmount := product / 10000 in
    let* (royaltyRecipient, royaltyAmount) := royaltyInfo tokenId totalPrice in
    let* afterFee := sub256 totalPrice marketplaceFeeAmount in
    let* sellerAmount := sub256 afterFee royaltyAmount in
    (if paymentToken =? 0 then
       require (totalPrice <=? msg_value) "Insufficient ETH" ;;
       when ((0 <? royaltyAmount) && negb (royaltyRecipient =? 0))
         (sendNative (receiving msg_value env) royaltyRecipient
            royaltyAmount) ;;
       sendNative (receiving msg_value env) seller sellerAmount ;;
       sendNative (receiving msg_value env) (_owner s) marketplaceFeeAmount ;;
       when (totalPrice <? msg_value)
         (let* excess := sub256 msg_value totalPrice in
          sendNative (receiving msg_value env) (msg_sender env) excess)
     else
       require (msg_value =? 0) "ETH not accepted for ERC20 payment" ;;
       let* pulled := tokenTransferFrom env paymentToken (msg_sender env)
                        (this env) totalPrice in
       require pulled "Payment transfer failed" ;;
       when ((0 <? royaltyAmount) && negb (royaltyRecipient =? 0))
         (let* paid := tokenTransfer env paymentToken royaltyRecipient
                         royaltyAmount in
          require paid "Royalty transfer failed") ;;
       let* paidSeller := tokenTransfer env paymentToken seller sellerAmount in
       require paidSeller "Seller transfer failed" ;;
       let* paidFee := tokenTransfer env paymentToken (_owner s)
                         marketplaceFeeAmount in
       require paidFee "Fee transfer failed") ;;
    _transfer seller (msg_sender env) tokenId ;;
    modify (upd_listings (delete tokenId)) ;;
    emit (NFTSold tokenId seller (msg_sender env) totalPrice paymentToken))).

Definition cancelListing (env : Env) (tokenId : N) : Tx unit :=
  onlyTokenOwner env tokenId (
    let* s := get in
    require (Listing.active (getListing s tokenId)) "Not listed" ;;
    modify (upd_listings (delete tokenId)) ;;
    emit (ListingCancelled tokenId (msg_sender env))).

(** *** Auctions *)

Definition createAuction (env : Env) (tokenId startingPrice duration : N)
    (paymentToken : address) : Tx unit :=
  onlyTokenOwner env tokenId (onlyApprovedNFT tokenId (whenNotPaused (
    require (0 <? startingPrice) "Starting price must be greater than 0" ;;
    require ((one_hour <=? duration) && (duration <=? seven_days))
      "Invalid duration" ;;
    let* s := get in
    require ((paymentToken =? 0) || (paymentToken =? usdtToken s))
      "Invalid payment token" ;;
    require (negb (Listing.active (getListing s tokenId))) "Token is listed" ;;
    require (negb (Auction.active (getAuction s tokenId)))
      "Auction already exists" ;;
    let* endTime := add256 (block_timestamp env) duration in
    modify (upd_auctions (<[tokenId :=
      Auction.mk tokenId (msg_sender env) startingPrice 0 0 paymentToken
                 endTime true (block_timestamp env)]>)) ;;
    emit (AuctionCreated tokenId (msg_sender env) startingPrice endTime
            paymentToken)))).

Definition placeBid (env : Env) (msg_value : N) (tokenId : N) : Tx unit :=
  nonReentrant (whenNotPaused (
    let* s := get in
    let auction := getAuction s tokenId in
    require (Auction.active auction) "Auction not active" ;;
    require (block_timestamp env <? Auction.endTime auction) "Auction ended" ;;
    require (negb (msg_sender env =? Auction.seller auction))
      "Cannot bid on your own auction" ;;
    let* bidAmount :=
      (if Auction.paymentToken auction =? 0 then
         require (Auction.startingPrice auction <=? msg_value)
           "Bid below starting price" ;;
         require (Auction.currentBid auction <? msg_value) "Bid too low" ;;
         ret msg_value
       else
         require (msg_value =? 0) "ETH not accepted for ERC20 auction" ;;
         fail (Revert "ERC20 auctions not implemented in this version")) in
    when (negb (Auction.currentBidder auction =? 0))
      (let* credited := add256 (getPending s (Auction.currentBidder auction))
                          (Auction.currentBid auction) in
       modify (upd_pendingWithdrawals
                 (<[Auction.currentBidder auction := credited]>))) ;;
    modify (upd_auctions (<[tokenId :=
      Auction.set_bid bidAmount (msg_sender env) auction]>)) ;;
    emit (BidPlaced tokenId (msg_sender env) bidAmount))).

Definition endAuction (env : Env) (tokenId : N) : Tx unit :=
  nonReentrant (
    let* s := get in
    let auction := getAuction s tokenId in
    require (Auction.active auction) "Auction not active" ;;
    require (Auction.endTime auction <=? block_timestamp env)
      "Auction not ended" ;;
    modify (upd_auctions (<[tokenId := Auction.set_active false auction]>)) ;;
    (if negb (Auction.currentBidder auction =? 0) then
       let totalPrice := Auction.currentBid auction in
       let seller := Auction.seller auction in
       let winner := Auction.currentBidder auction in
       let* product := mul256 totalPrice (marketplaceFee s) in
       let marketplaceFeeAmount := product / 10000 in
       let* (royaltyRecipient, royaltyAmount) := royaltyInfo tokenId totalPrice in
       let* afterFee := sub256 totalPrice marketplaceFeeAmount in
       let* sellerAmount := sub256 afterFee royaltyAmount in
       when ((0 <? royaltyAmount) && negb (royaltyRecipient =? 0))
         (sendNative env royaltyRecipient royaltyAmount) ;;
       sendNative env seller sellerAmount ;;
       sendNative env (_owner s) marketplaceFeeAmount ;;
       _transfer seller winner tokenId ;;
       emit (AuctionEnded tokenId winner totalPrice) ;;
       emit (NFTSold tokenId seller winner totalPrice
               (Auction.paymentToken auction))
     else
       emit (AuctionEnded tokenId 0 0)) ;;
    modify (upd_auctions (delete tokenId))).

(** *** Withdrawal of displaced bids *)

Definition withdraw (env : Env) : Tx unit :=
  nonReentrant (
    let* s := get in
    let amount := getPending s (msg_sender env) in
    require (0 <? amount) "No funds to withdraw" ;;
    modify (upd_pendingWithdrawals (<[msg_sender env := 0]>)) ;;
    sendNative env (msg_sender env) amount).

(** *** Administration *)

Definition setMarketplaceFee (env : Env) (_fee : N) : Tx unit :=
  onlyOwner env (
    require (_fee <=? MAX_MARKETPLACE_FEE) "Fee too high" ;;
    modify (upd_marketplaceFee (fun _ => _fee)) ;;
    emit (MarketplaceFeeUpdated _fee)).

Definition setUSDTToken (env : Env) (_usdtToken : address) : Tx unit :=
  onlyOwner env (
    modify (upd_usdtToken (fun _ => _usdtToken)) ;;
    emit (USDTTokenUpdated _usdtToken)).

Definition pause (env : Env) : Tx unit :=
  onlyOwner env (whenNotPaused (modify (upd_paused (fun _ => true)))).

Definition unpause (env : Env) : Tx unit :=
  onlyOwner env (whenPaused (modify (upd_paused (fun _ => false)))).

Definition emergencyWithdraw (env : Env) : Tx unit :=
  onlyOwner env (
    let* s := get in
    sendNative env (_owner s) (self_balance env)).

Definition emergencyWithdrawToken (env : Env) (token : address) : Tx unit :=
  onlyOwner env (
    let* s := get in
    match erc20_balanceOf env token (this env) with
    | Some balance =>
        extcall (Erc20BalanceOf token (this env)) true ;;
        let* _ := tokenTransfer env token (_owner s) balance in
        ret tt
    | None => fail CallFailed
    end).

(** ** Transactions and reachable states *)

Inductive Msg :=
| MintNFT (to : address) (tokenURI : string) (royaltyRecipient : address)
          (royaltyFeeNumerator : N)
| ApproveNFT (tokenId : N) (approved : bool)
| BatchApproveNFTs (tokenIds : list N) (approved : bool)
| ListNFT (tokenId price : N) (paymentToken : address)
| BuyNFT (msg_value tokenId : N)
| CancelListing (tokenId : N)
| CreateAuction (tokenId startingPrice duration : N) (paymentToken : address)
| PlaceBid (msg_value tokenId : N)
| EndAuction (tokenId : N)
| Withdraw
| SetMarketplaceFee (_fee : N)
| SetUSDTToken (_usdtToken : address)
| Pause
| Unpause
| EmergencyWithdraw
| EmergencyWithdrawToken (token : address)
| TransferFrom (from to : address) (tokenId : N)
| SafeTransferFrom (from to : address) (tokenId : N)
| Approve (to : address) (tokenId : N)
| SetApprovalForAll (operator : address) (approved : bool)
| TransferOwnership (newOwner : address)
| RenounceOwnership.

Definition dispatch (env : Env) (m : Msg) : Tx unit :=
  match m with
  | MintNFT to uri rr fee =>
      let* _ := mintNFT env to uri rr fee (ret tt) in ret tt
  | ApproveNFT tokenId approved => approveNFT env tokenId approved
  | BatchApproveNFTs tokenIds approved => batchApproveNFTs env tokenIds approved
  | ListNFT tokenId price tok => listNFT env tokenId price tok
  | BuyNFT v tokenId => buyNFT env v tokenId
  | CancelListing tokenId => cancelListing env tokenId
  | CreateAuction tokenId sp d tok => createAuction env tokenId sp d tok
  | PlaceBid v tokenId => placeBid env v tokenId
  | EndAuction tokenId => endAuction env tokenId
  | Withdraw => withdraw env
  | SetMarketplaceFee fee => setMarketplaceFee env fee
  | SetUSDTToken tok => setUSDTToken env tok
  | Pause => pause env
  | Unpause => unpause env
  | EmergencyWithdraw => emergencyWithdraw env
  | EmergencyWithdrawToken tok => emergencyWithdrawToken env tok
  | TransferFrom from to tokenId => transferFrom env from to tokenId
  | SafeTransferFrom from to tokenId =>
      safeTransferFrom env from to tokenId (ret tt)
  | Approve to tokenId => approve env to tokenId
  | SetApprovalForAll op approved => setApprovalForAll env op approved
  | TransferOwnership newOwner => transferOwnership env newOwner
  | RenounceOwnership => renounceOwnership env
  end.

(** A transaction either commits its storage or, when it reverts, leaves
    the storage as it was. *)
Definition transact (env : Env) (m : Msg) (s : Store) : Store :=
  match run (dispatch env m) s with
  | Ok (_, s', _) => s'
  | Err _ => s
  end.

Definition transactAll (txs : list (Env * Msg)) (s : Store) : Store :=
  foldl (fun st tx => transact (fst tx) (snd tx) st) s txs.

Inductive reachable : Store -> Prop :=
| reachable_init deployer usdt : reachable (constructor_ deployer usdt)
| reachable_step s env m s' tr :
    reachable s ->
    run (dispatch env m) s = Ok (tt, s', tr) ->
    reachable s'.

(** *** The contract and its native balance

    The storage together with the native currency the contract holds.  A
    call runs in a context that shows the balance of that moment; when
    it succeeds the value sent with it is added to the balance and its
    payments are taken out, and when it reverts nothing changes. *)

Definition msgValue (m : Msg) : N :=
  match m with
  | BuyNFT v _ | PlaceBid v _ => v
  | _ => 0
  end.

Record World := mkWorld {
  world_storage : Store;
  world_balance : N;
}.

Definition call (env : Env) (m : Msg) (w : World) : World :=
  match run (dispatch (holding (world_balance w) env) m) (world_storage w) with
  | Ok (_, s', tr) =>
      mkWorld s' (world_balance w + msgValue m - nativeSent tr)
  | Err _ => w
  end.

Definition callAll (txs : list (Env * Msg)) (w : World) : World :=
  foldl (fun st tx => call (fst tx) (snd tx) st) w txs.

(** *** Calls made from inside a receiver hook

    A call made by a contract while its hook runs is a call like any
    other: it runs in a context of its own and its trace is appended to
    the trace of the call it is nested in; when it reverts the contract
    that made it carries on. *)
Definition nested (env : Env) (m : Msg) : Tx unit :=
  fun s tr =>
    match run (dispatch env m) s with
    | Ok (_, s', tr') => Ok (tt, s', tr ++ tr')
    | Err _ => Ok (tt, s, tr)
    end.

(** [callsFrom s s']: the storage [s'] is what some sequence of calls
    makes of [s], where a mint or a safe transfer may have a hook that
    makes such calls in turn, to any depth. *)
Inductive callsFrom : Store -> Store -> Prop :=
| callsFrom_done s : callsFrom s s
| callsFrom_call s env m s1 tr s2 :
    run (dispatch env m) s = Ok (tt, s1, tr) ->
    callsFrom s1 s2 ->
    callsFrom s s2
| callsFrom_mint s env to uri rr fee callbacks tokenId s1 tr s2 :
    (forall s0 tr0 s0' tr0',
        callbacks s0 tr0 = Ok (tt, s0', tr0') -> callsFrom s0 s0') ->
    run (mintNFT env to uri rr fee callbacks) s = Ok (tokenId, s1, tr) ->
    callsFrom s1 s2 ->
    callsFrom s s2
| callsFrom_safeTransfer s env from to tokenId callbacks s1 tr s2 :
    (forall s0 tr0 s0' tr0',
        callbacks s0 tr0 = Ok (tt, s0', tr0') -> callsFrom s0 s0') ->
    run (safeTransferFrom env from to tokenId callbacks) s = Ok (tt, s1, tr) ->
    callsFrom s1 s2 ->
    callsFrom s s2.

(** Listing and auction of the same item both marked active. *)
Definition bothActive (s : Store) (tokenId : N) : Prop :=
  Listing.active (getListing s tokenId) = true /\
  Auction.active (getAuction s tokenId) = true.

(** ** Concrete accounts and call contexts used in the examples *)

Definition admin : address := 1.
Definition creator : address := 2.
Definition buyer : address := 3.
Definition bidderA : address := 4.
Definition bidderB : address := 5.
Definition usdt : address := 100.
Definition marketplace : address := 200.

(** A context in which every payee accepts payment, every token call
    returns [true] and no account has code; the contract holds no native
    currency when the call arrives ([holding] gives it some). *)
Definition ctx (sender : address) (now : N) : Env :=
  {| msg_sender := sender; block_timestamp := now; this := marketplace;
     self_balance := 0;
     native_accepts := fun _ _ => true;
     erc20_transferFrom := fun _ _ _ _ => Some true;
     erc20_transfer := fun _ _ _ => Some true;
     erc20_balanceOf := fun _ _ => Some 0;
     has_code := fun _ => false;
     erc721_receiver_ok := fun _ _ => true |}.

(** The same context, except that the account [rejecting] cannot receive
    native currency. *)
Definition ctxRejecting (rejecting sender : address) (now : N) : Env :=
  {| msg_sender := sender; block_timestamp := now; this := marketplace;
     self_balance := 0;
     native_accepts := fun to _ => negb (to =? rejecting);
     erc20_transferFrom := fun _ _ _ _ => Some true;
     erc20_transfer := fun _ _ _ => Some true;
     erc20_balanceOf := fun _ _ => Some 0;
     has_code := fun _ => false;
     erc721_receiver_ok := fun _ _ => true |}.

Definition deployed : Store := constructor_ admin usdt.

(** Item 0 minted to [creator] with a 5% royalty and approved by the
    administrator. *)
Definition minted : Store :=
  transactAll [ (ctx creator 10, MintNFT creator "ipfs://item" creator 500);
                (ctx admin 11, ApproveNFT 0 true) ] deployed.

(** ** Settlement amounts and the payments they give rise to *)

(** The marketplace fee on a sale at price [p]. *)
Definition feeAmount (s : Store) (p : N) : N := p * marketplaceFee s / 10000.

(** The value returned by the royalty lookup for [(tokenId, salePrice)]. *)
Definition royaltyOf (s : Store) (tokenId salePrice : N) : address * N :=
  let royalty := fromOption (0, 0) (_tokenRoyaltyInfo s !! tokenId) in
  (fst royalty, salePrice * snd royalty / _feeDenominator).

Definition royaltyDue (recipient : address) (amount : N) : bool :=
  (0 <? amount) && negb (recipient =? 0).

(** Payments of a sale settled in native currency: royalty (when due),
    then seller, then the administrator's fee. *)
Definition nativeSettlement (royalty : address * N) (seller : address)
    (sellerAmount : N) (feeRecipient : address) (fee : N) : list ExtCall :=
  (if royaltyDue (fst royalty) (snd royalty)
   then [SendNative (fst royalty) (snd royalty)] else [])
  ++ [SendNative seller sellerAmount; SendNative feeRecipient fee].

(** Payments of a sale settled in a token: the price is pulled from the
    buyer, then forwarded as in the native case. *)
Definition tokenSettlement (token buyer self : address) (price : N)
    (royalty : address * N) (seller : address) (sellerAmount : N)
    (feeRecipient : address) (fee : N) : list ExtCall :=
  [Erc20TransferFrom token buyer self price]
  ++ (if royaltyDue (fst royalty) (snd royalty)
      then [Erc20Transfer token (fst royalty) (snd royalty)] else [])
  ++ [Erc20Transfer token seller sellerAmount;
      Erc20Transfer token feeRecipient fee].

(** The external calls of a fixed-price purchase of [listing] with
    [msg_value] attached. *)
Definition purchaseCalls (env : Env) (msg_value : N) (s : Store) (tokenId : N)
  : list ExtCall :=
  let listing := getListing s tokenId in
  let p := Listing.price listing in
  let fee := feeAmount s p in
  let royalty := royaltyOf s tokenId p in
  let sellerAmount := p - fee - snd royalty in
  if Listing.paymentToken listing =? 0 then
    nativeSettlement royalty (Listing.seller listing) sellerAmount (_owner s) fee
    ++ (if p <? msg_value then [SendNative (msg_sender env) (msg_value - p)]
        else [])
  else
    tokenSettlement (Listing.paymentToken listing) (msg_sender env) (this env)
      p royalty (Listing.seller listing) sellerAmount (_owner s) fee.

(** The external calls of the settlement of an auction won at its current
    bid. *)
Definition auctionCalls (s : Store) (tokenId : N) : list ExtCall :=
  let auction := getAuction s tokenId in
  let p := Auction.currentBid auction in
  let fee := feeAmount s p in
  let royalty := royaltyOf s tokenId p in
  nativeSettlement royalty (Auction.seller auction) (p - fee - snd royalty)
    (_owner s) fee.

Definition setPaused (b : bool) : Store -> Store := upd_paused (fun _ => b).

(** The calls that write the owner table: a mint, a sale (purchase or end
    of an auction) and the registry's own transfers. *)
Definition writesOwners (m : Msg) : bool :=
  match m with
  | MintNFT _ _ _ _ | BuyNFT _ _ | EndAuction _
  | TransferFrom _ _ _ | SafeTransferFrom _ _ _ => true
  | _ => false
  end.

(** ** Scenario states *)

(** Item 0 listed by [creator] at 1000 in native currency. *)
Definition listedNative : Store :=
  transact (ctx creator 20) (ListNFT 0 1000 0) minted.

(** Item 0 under a native-currency auction starting at 500, open until
    3620. *)
Definition auctionOpen : Store :=
  transact (ctx creator 20) (CreateAuction 0 500 3600 0) minted.

(** ... with a first bid of 600 by [bidderA]. *)
Definition auctionOneBid : Store :=
  transact (ctx bidderA 30) (PlaceBid 600 0) auctionOpen.

(** ... and a second bid of 700 by [bidderB]. *)
Definition auctionTwoBids : Store :=
  transact (ctx bidderB 40) (PlaceBid 700 0) auctionOneBid.

(** The open auction after the administrator paused the marketplace. *)
Definition auctionPaused : Store :=
  transact (ctx admin 25) Pause auctionOpen.

(** The two-bid auction when the seller account cannot receive native
    currency: the context of a caller who ends it after its end time,
    the contract holding both bids. *)
Definition ctxSellerRejects : Env :=
  holding 1300 (ctxRejecting creator buyer 4000).

(** The two-bid auction after the seller transferred the item to [buyer]
    in the registry. *)
Definition auctionSellerLeft : Store :=
  transact (ctx creator 50) (TransferFrom creator buyer 0) auctionTwoBids.

(** The listed item after [creator] transferred it to [buyer] in the
    registry; the listing still names [creator] as seller. *)
Definition listedThenMoved : Store :=
  transact (ctx creator 25) (TransferFrom creator buyer 0) listedNative.

(** Item 1 minted and approved. *)
Definition tokenItemApproved : Store :=
  transactAll [ (ctx creator 12, MintNFT creator "ipfs://item1" 0 0);
                (ctx admin 13, ApproveNFT 1 true) ] minted.

(** Item 1 minted and approved, then put under an auction denominated in
    the payment token. *)
Definition tokenAuctionOpen : Store :=
  transactAll [ (ctx creator 12, MintNFT creator "ipfs://item1" 0 0);
                (ctx admin 13, ApproveNFT 1 true);
                (ctx creator 20, CreateAuction 1 500 3600 usdt) ] minted.

(** Item 0 listed in the payment token. *)
Definition listedToken : Store :=
  transact (ctx creator 20) (ListNFT 0 1000 usdt) minted.

(** The two-bid auction with the balance the contract has gathered on
    the way: the two bids, 600 and 700. *)
Definition auctionTwoBidsHeld : World :=
  callAll [ (ctx creator 10, MintNFT creator "ipfs://item" creator 500);
            (ctx admin 11, ApproveNFT 0 true);
            (ctx creator 20, CreateAuction 0 500 3600 0);
            (ctx bidderA 30, PlaceBid 600 0);
            (ctx bidderB 40, PlaceBid 700 0) ] (mkWorld deployed 0).

(** ... after the administrator took the contract's balance out. *)
Definition auctionDrained : World :=
  call (ctx admin 45) EmergencyWithdraw auctionTwoBidsHeld.

(** ** Well-formed records and further scenario states *)

(** What every stored listing satisfies: it is active, filed under its own
    item, priced above zero, and names a seller; the item exists. *)
Definition listingWellFormed (s : Store) (tokenId : N) (l : Listing.t) : Prop :=
  Listing.active l = true /\
  Listing.tokenId l = tokenId /\
  0 < Listing.price l /\
  Listing.seller l <> 0 /\
  _ownerOf s tokenId <> 0.

(** What every stored auction satisfies: it is active, filed under its own
    item, starts above zero, names a seller who is not the highest bidder,
    runs between one hour and seven days, and carries a bid only if it is
    a native-currency auction and the bid reaches the starting price; the
    item exists. *)
Definition auctionWellFormed (s : Store) (tokenId : N) (a : Auction.t) : Prop :=
  Auction.active a = true /\
  Auction.tokenId a = tokenId /\
  0 < Auction.startingPrice a /\
  Auction.seller a <> 0 /\
  Auction.currentBidder a <> Auction.seller a /\
  Auction.createdAt a + one_hour <= Auction.endTime a /\
  Auction.endTime a <= Auction.createdAt a + seven_days /\
  Auction.endTime a <= uint256_max /\
  (Auction.currentBid a = 0 \/
   (Auction.paymentToken a = 0 /\
    Auction.startingPrice a <= Auction.currentBid a)) /\
  (Auction.currentBidder a <> 0 -> Auction.currentBid a <> 0) /\
  _ownerOf s tokenId <> 0.

(** The approval table after [batchApproveNFTs]: one write per element,
    in order. *)
Definition approveAll (tokenIds : list N) (approved : bool) (m : gmap N bool)
  : gmap N bool :=
  foldl (fun acc tokenId => <[tokenId := approved]> acc) m tokenIds.

(** The fee raised to the ceiling by the administrator. *)
Definition feeAtCeiling : Store :=
  transact (ctx admin 12) (SetMarketplaceFee 1000) minted.

(** Item 1 minted to [creator] (no royalty), not yet approved. *)
Definition mintedSecond : Store :=
  transact (ctx creator 12) (MintNFT creator "ipfs://item1" 0 0) minted.

(** The two-bid auction after [buyer] ended it past its end time. *)
Definition auctionSettled : Store :=
  transact (holding 1300 (ctx buyer 4000)) (EndAuction 0) auctionTwoBids.

(** Item 2 minted by [creator] with a 100% royalty, approved and listed at
    1000: fee and royalty together exceed the price. *)
Definition listedOverRoyalty : Store :=
  transactAll [ (ctx creator 12, MintNFT creator "ipfs://item1" 0 0);
                (ctx creator 13, MintNFT creator "ipfs://item2" creator 10000);
                (ctx admin 14, ApproveNFT 2 true);
                (ctx creator 20, ListNFT 2 1000 0) ] minted.

(** A context in which the payment token refuses to move the buyer's
    funds: [transferFrom] returns [false]. *)
Definition ctxTokenRefuses (sender : address) (now : N) : Env :=
  {| msg_sender := sender; block_timestamp := now; this := marketplace;
     self_balance := 0;
     native_accepts := fun _ _ => true;
     erc20_transferFrom := fun _ _ _ _ => Some false;
     erc20_transfer := fun _ _ _ => Some true;
     erc20_balanceOf := fun _ _ => Some 0;
     has_code := fun _ => false;
     erc721_receiver_ok := fun _ _ => true |}.


(** ** Administration *)

(** The calls that carry the administrator gate. *)
Definition adminOnly (m : Msg) : bool :=
  match m with
  | ApproveNFT _ _ | BatchApproveNFTs _ _
  | SetMarketplaceFee _ | SetUSDTToken _ | Pause | Unpause
  | EmergencyWithdraw | EmergencyWithdrawToken _
  | TransferOwnership _ | RenounceOwnership => true
  | _ => false
  end.

(** The payment of the marketplace fee, in native currency or in the
    payment token of the listing. *)
Definition feePayment (token recipient : address) (amount : N) : ExtCall :=
  if token =? 0 then SendNative recipient amount
  else Erc20Transfer token recipient amount.

(** The listing of item 0 after the administrator withdrew the item's
    approval. *)
Definition approvalRevoked : Store :=
  transact (ctx admin 30) (ApproveNFT 0 false) listedNative.

(** The listing of item 0 after the administrator raised the fee to the
    ceiling. *)
Definition feeRaised : Store :=
  transact (ctx admin 30) (SetMarketplaceFee 1000) listedNative.

(** A context in which the marketplace holds 500 units of every token and
    the token's [transfer] returns [false]. *)
Definition ctxTransferFalse (sender : address) (now : N) : Env :=
  {| msg_sender := sender; block_timestamp := now; this := marketplace;
     self_balance := 0;
     native_accepts := fun _ _ => true;
     erc20_transferFrom := fun _ _ _ _ => Some true;
     erc20_transfer := fun _ _ _ => Some false;
     erc20_balanceOf := fun _ _ => Some 500;
     has_code := fun _ => false;
     erc721_receiver_ok := fun _ _ => true |}.

(** A contract account, and a context in which it has code and accepts
    the items sent to it. *)
Definition receiver : address := 6.

Definition ctxToContract (sender : address) (now : N) : Env :=
  {| msg_sender := sender; block_timestamp := now; this := marketplace;
     self_balance := 0;
     native_accepts := fun _ _ => true;
     erc20_transferFrom := fun _ _ _ _ => Some true;
     erc20_transfer := fun _ _ _ => Some true;
     erc20_balanceOf := fun _ _ => Some 0;
     has_code := fun a => a =? receiver;
     erc721_receiver_ok := fun _ _ => true |}.

(** What the hook of [receiver] does when it re-enters: it mints a second
    item to itself. *)
Definition mintsAgain : Tx unit :=
  nested (ctxToContract receiver 12) (MintNFT receiver "ipfs://nested" 0 0).

(** ** What holds between calls

    The facts about the storage that every call re-establishes: the
    reentrancy lock is free, the fee is within its ceiling, no item is
    both listed and under auction, the stored records are well formed,
    approved items exist, and the pending balances fit in [uint256],
    with none for the zero address. *)
Definition marketInvariant (s : Store) : Prop :=
  _status s = false /\
  marketplaceFee s <= MAX_MARKETPLACE_FEE /\
  (forall tokenId, ~ bothActive s tokenId) /\
  (forall tokenId l,
      listings s !! tokenId = Some l -> listingWellFormed s tokenId l) /\
  (forall tokenId a,
      auctions s !! tokenId = Some a -> auctionWellFormed s tokenId a) /\
  (forall tokenId, isTokenApproved s tokenId = true -> _ownerOf s tokenId <> 0) /\
  (forall x, getPending s x <= uint256_max) /\
  getPending s 0 = 0.

(** ** What the contract owes

    The native currency the contract holds for others: the pending
    balances of displaced bidders and the standing bids of the stored
    auctions. *)
Definition total {K} `{Countable K} {A} (size : A -> N) (m : gmap K A) : N :=
  map_fold (fun _ a acc => size a + acc) 0 m.

Definition pendingTotal (s : Store) : N :=
  total (fun amount => amount) (pendingWithdrawals s).

Definition bidsTotal (s : Store) : N :=
  total Auction.currentBid (auctions s).

Definition owed (s : Store) : N := pendingTotal s + bidsTotal s.

(** The worlds that calls other than [emergencyWithdraw] lead to, from a
    deployment without funds; native currency can also reach the
    contract without a call. *)
Inductive reachableWorld : World -> Prop :=
| reachableWorld_init deployer usdt :
    reachableWorld (mkWorld (constructor_ deployer usdt) 0)
| reachableWorld_call w env m :
    reachableWorld w ->
    m <> EmergencyWithdraw ->
    reachableWorld (call env m w)
| reachableWorld_gift w amount :
    reachableWorld w ->
    reachableWorld (mkWorld (world_storage w) (world_balance w + amount)).

(** * Proofs *)

Arguments uint256_max : simpl never.
Arguments N.leb : simpl never.
Arguments N.ltb : simpl never.
Arguments N.eqb : simpl never.
Arguments N.div : simpl never.
Arguments N.modulo : simpl never.
Arguments N.pow : simpl never.
Arguments N.mul : simpl never.
Arguments N.add : simpl never.
Arguments N.sub : simpl never.

(** ** Inversion of a monadic run

    [tx_inv H] unfolds the monad in [H : run ... = Ok ...] and case-splits
    on the conditions in the order in which the code evaluates them; the
    reverting branches are discharged on the way. *)

Ltac app_head t := lazymatch t with ?f _ => app_head f | _ => t end.

Ltac head_scrut t :=
  let h := app_head t in
  lazymatch h with
  | match ?x with _ => _ end => head_scrut x
  | _ => t
  end.

Ltac tx_unfold_in H :=
  cbv beta iota zeta delta
    [run bind ret fail require get getTrace modify emit when extcall
     sendNative tokenTransfer tokenTransferFrom add256 sub256 mul256
     nonReentrant whenNotPaused whenPaused onlyOwner onlyTokenOwner
     onlyApprovedNFT ownerOf _transfer _update royaltyInfo
     _checkOnERC721Received _safeMint _setTokenURI _setTokenRoyalty]
    in H.

Ltac tx_unfold :=
  cbv beta iota zeta delta
    [run bind ret fail require get getTrace modify emit when extcall
     sendNative tokenTransfer tokenTransferFrom add256 sub256 mul256
     nonReentrant whenNotPaused whenPaused onlyOwner onlyTokenOwner
     onlyApprovedNFT ownerOf _transfer _update royaltyInfo
     _checkOnERC721Received _safeMint _setTokenURI _setTokenRoyalty].

Ltac tx_case H :=
  lazymatch type of H with
  | ?l = _ =>
      let h := app_head l in
      lazymatch h with
      | match ?x with _ => _ end =>
          let c := head_scrut x in
          destruct c eqn:?; cbv beta iota zeta in H; try discriminate H
      end
  end.

Ltac tx_inv H := tx_unfold_in H; repeat tx_case H.

Ltac tx_done H := inversion H; subst; clear H.

(** Case split on the next condition of a run in the goal. *)
Ltac tx_goal_case :=
  lazymatch goal with
  | |- context [match ?x with _ => _ end] =>
      let c := head_scrut x in destruct c eqn:?; cbv beta iota zeta
  end.

(** Reads of an updated store, reduced to reads of the original one. *)
Ltac store_norm :=
  unfold _isAuthorized, getListing, getAuction, getPending, isTokenApproved,
    _ownerOf, _getApproved, isApprovedForAll, setPaused in *;
  change (0 =? 0) with true in *;
  cbv beta iota zeta;
  cbn [_owners _tokenApprovals _operatorApprovals _tokenURIs _tokenRoyaltyInfo
       _owner _paused _status _tokenIdCounter marketplaceFee usdtToken
       listings auctions pendingWithdrawals approvedNFTs
       upd_owners upd_tokenApprovals upd_operatorApprovals upd_tokenURIs
       upd_tokenRoyaltyInfo upd_owner upd_paused upd_status
       upd_tokenIdCounter upd_marketplaceFee upd_usdtToken upd_listings
       upd_auctions upd_pendingWithdrawals upd_approvedNFTs fst snd
       nativeSent nativeOut app
       receiving holding self_balance msg_sender block_timestamp this
       native_accepts erc20_transferFrom erc20_transfer erc20_balanceOf
       has_code erc721_receiver_ok] in *.

(** ** Basic facts *)

Lemma upd_approvedNFTs_id s : upd_approvedNFTs (fun m => m) s = s.
Proof. by destruct s. Qed.

Lemma batchApproveNFTs_loop_effect tokenIds approved s tr r s' tr' :
  batchApproveNFTs_loop tokenIds approved s tr = Ok (r, s', tr') ->
  exists f, s' = upd_approvedNFTs f s.
Proof.
  revert s tr. induction tokenIds as [|tokenId rest IH]; intros s tr H.
  - cbn in H. tx_inv H. tx_done H. exists (fun m => m).
    by rewrite upd_approvedNFTs_id.
  - cbn [batchApproveNFTs_loop] in H. unfold approveNFT_body in H.
    tx_unfold_in H. tx_case H. cbn [fst snd] in H.
    apply IH in H as [f ->]. eexists (fun m => f (<[tokenId := approved]> m)).
    reflexivity.
Qed.

(** The guard's status word is clear between transactions. *)
Lemma dispatch_status env m s s' tr :
  run (dispatch env m) s = Ok (tt, s', tr) ->
  _status s = false -> _status s' = false.
Proof.
  intros H Hs. destruct m; cbn [dispatch] in H.
  all: try (unfold mintNFT, approveNFT, approveNFT_body, listNFT, buyNFT,
              cancelListing, createAuction, placeBid, endAuction, withdraw,
              setMarketplaceFee, setUSDTToken, pause, unpause,
              emergencyWithdraw, emergencyWithdrawToken, transferFrom,
              safeTransferFrom, transferFrom, approve, setApprovalForAll,
              transferOwnership, renounceOwnership in H;
            tx_inv H; tx_done H; done).
  unfold batchApproveNFTs in H. tx_unfold_in H. tx_case H.
  destruct (batchApproveNFTs_loop _ _ _ _) as [[[r s1] tr1]|] eqn:Hl;
    [|discriminate].
  apply batchApproveNFTs_loop_effect in Hl as [f ->]. tx_done H. done.
Qed.

Lemma reachable_status s : reachable s -> _status s = false.
Proof.
  induction 1 as [|s env m s' tr _ IH H]; [done|].
  eapply dispatch_status; eauto.
Qed.

Lemma reachable_transact env m s : reachable s -> reachable (transact env m s).
Proof.
  intros Hs. unfold transact.
  destruct (run (dispatch env m) s) as [[[[] s'] tr]|] eqn:H; [|done].
  eapply reachable_step; eauto.
Qed.

Lemma reachable_transactAll txs s : reachable s -> reachable (transactAll txs s).
Proof.
  revert s. induction txs as [|[env m] txs IH]; intros s Hs; [done|].
  cbn. apply IH. by apply reachable_transact.
Qed.

(** ** Which calls can mark a record active *)

Ltac unfold_ops H :=
  unfold mintNFT, approveNFT, approveNFT_body, listNFT, buyNFT,
    cancelListing, createAuction, placeBid, endAuction, withdraw,
    setMarketplaceFee, setUSDTToken, pause, unpause,
    emergencyWithdraw, emergencyWithdrawToken, safeTransferFrom,
    transferFrom, approve, setApprovalForAll,
    transferOwnership, renounceOwnership in H.

Ltac map_lookup :=
  rewrite ?lookup_delete_eq, ?lookup_insert_eq;
  rewrite ?lookup_delete_ne by done;
  rewrite ?lookup_insert_ne by done;
  rewrite ?lookup_delete_ne by done.

Lemma dispatch_activation env m s s' tr :
  run (dispatch env m) s = Ok (tt, s', tr) ->
  forall id,
    (Listing.active (getListing s' id) = true ->
     Listing.active (getListing s id) = true \/
     (Auction.active (getAuction s id) = false /\ auctions s' = auctions s /\
      exists price tok, m = ListNFT id price tok)) /\
    (Auction.active (getAuction s' id) = true ->
     Auction.active (getAuction s id) = true \/
     (Listing.active (getListing s id) = false /\ listings s' = listings s /\
      exists sp d tok, m = CreateAuction id sp d tok)).
Proof.
  intros H id. destruct m; cbn [dispatch] in H.
  3: { unfold batchApproveNFTs in H. tx_unfold_in H. tx_case H.
       destruct (batchApproveNFTs_loop _ _ _ _) as [[[r s1] tr1]|] eqn:Hl;
         [|discriminate].
       apply batchApproveNFTs_loop_effect in Hl as [f ->]. tx_done H.
       split; intros; by left. }
  all: unfold_ops H; tx_inv H; tx_done H.
  all: unfold getListing, getAuction in *; cbn in *.
  all: try (split; intros; by left).
  all: destruct (decide (id = tokenId)) as [->|Hne]; map_lookup; cbn.
  all: try (split; intros; first [discriminate | by left]).
  - (* listNFT on this item *)
    split; [intros _; right|intros; by left].
    split; [by destruct (Auction.active _)|]. split; [done|]. eauto.
  - (* createAuction on this item *)
    split; [intros; by left|intros _; right].
    split; [by destruct (Listing.active _)|]. split; [done|]. eauto.
Qed.

Lemma reachable_exclusive s :
  reachable s -> forall id, ~ bothActive s id.
Proof.
  induction 1 as [d u|s env m s' tr _ IH H]; intros id [Hl Ha].
  - by cbn in Hl.
  - destruct (dispatch_activation _ _ _ _ _ H id) as [HL HA].
    destruct (HL Hl) as [Hl0|(Ha0 & Heq & _)].
    + destruct (HA Ha) as [Ha0|(Hl1 & _)]; [|congruence].
      by apply (IH id).
    + unfold getAuction in *. rewrite Heq in Ha. congruence.
Qed.

(** ** Fee and royalty split *)

Lemma leb_true a b : (a <=? b) = true -> a <= b.
Proof. apply N.leb_le. Qed.

Lemma ltb_true a b : (a <? b) = true -> a < b.
Proof. apply N.ltb_lt. Qed.

Lemma royaltyInfo_run tokenId p s tr :
  p * snd (fromOption (0, 0) (_tokenRoyaltyInfo s !! tokenId)) <= uint256_max ->
  royaltyInfo tokenId p s tr = Ok (royaltyOf s tokenId p, s, tr).
Proof.
  intros H. apply N.leb_le in H. unfold royaltyOf. tx_unfold. by rewrite H.
Qed.

Lemma split_sum p fee ra :
  (fee <=? p) = true -> (ra <=? p - fee) = true ->
  fee + ra <= p /\ (p - fee - ra) + fee + ra = p.
Proof. intros H1%N.leb_le H2%N.leb_le. lia. Qed.

Lemma buyNFT_settlement env v tokenId s s' tr :
  run (buyNFT env v tokenId) s = Ok (tt, s', tr) ->
  let p := Listing.price (getListing s tokenId) in
  let fee := feeAmount s p in
  let royalty := royaltyOf s tokenId p in
  let sellerAmount := p - fee - snd royalty in
  fee = p * marketplaceFee s / 10000 /\
  p * marketplaceFee s <= uint256_max /\
  run (royaltyInfo tokenId p) s = Ok (royalty, s, []) /\
  fee + snd royalty <= p /\
  sellerAmount + fee + snd royalty = p /\
  0 <= sellerAmount /\ 0 <= fee /\ 0 <= snd royalty /\
  calls tr = purchaseCalls env v s tokenId.
Proof.
  intros H p fee royalty sellerAmount.
  unfold buyNFT in H. tx_inv H; tx_done H.
  all: unfold purchaseCalls, feeAmount, royaltyOf in *; store_norm.
  all: repeat match goal with
         | H : (_, _) = (_, _) |- _ => inversion H; subst; clear H
         end.
  all: match goal with
       | H1 : (_ <=? Listing.price _) = true, H2 : (_ <=? _ - _) = true |- _ =>
           destruct (split_sum _ _ _ H1 H2) as [Hle Hsum]
       end.
  all: split; [reflexivity|].
  all: split; [by apply leb_true|].
  all: split; [unfold run; rewrite royaltyInfo_run by (by apply leb_true); reflexivity|].
  all: split; [exact Hle|]. all: split; [exact Hsum|].
  all: do 3 (split; [apply N.le_0_l|]).
  all: unfold nativeSettlement, tokenSettlement, royaltyDue,
         _feeDenominator in *; cbn [fst snd].
  all: repeat match goal with
         | H : ?c = _ |- context [if ?c then _ else _] => rewrite H
         end.
  all: reflexivity.
Qed.

Lemma endAuction_settlement env tokenId s s' tr :
  run (endAuction env tokenId) s = Ok (tt, s', tr) ->
  Auction.currentBidder (getAuction s tokenId) <> 0 ->
  let p := Auction.currentBid (getAuction s tokenId) in
  let fee := feeAmount s p in
  let royalty := royaltyOf s tokenId p in
  let sellerAmount := p - fee - snd royalty in
  fee = p * marketplaceFee s / 10000 /\
  p * marketplaceFee s <= uint256_max /\
  run (royaltyInfo tokenId p) s = Ok (royalty, s, []) /\
  fee + snd royalty <= p /\
  sellerAmount + fee + snd royalty = p /\
  0 <= sellerAmount /\ 0 <= fee /\ 0 <= snd royalty /\
  calls tr = auctionCalls s tokenId.
Proof.
  intros H Hbidder p fee royalty sellerAmount.
  unfold endAuction in H. tx_inv H; tx_done H.
  all: unfold auctionCalls, feeAmount, royaltyOf in *; store_norm.
  all: repeat match goal with
         | H : (_, _) = (_, _) |- _ => inversion H; subst; clear H
         end.
  all: try (exfalso;
            match goal with
            | H : negb (_ =? 0) = false |- _ =>
                apply negb_false_iff, N.eqb_eq in H; congruence
            end).
  all: match goal with
       | H1 : (_ <=? Auction.currentBid _) = true, H2 : (_ <=? _ - _) = true |- _ =>
           destruct (split_sum _ _ _ H1 H2) as [Hle Hsum]
       end.
  all: split; [reflexivity|].
  all: split; [by apply leb_true|].
  all: split; [unfold run; rewrite royaltyInfo_run by (by apply leb_true); reflexivity|].
  all: split; [exact Hle|]. all: split; [exact Hsum|].
  all: do 3 (split; [apply N.le_0_l|]).
  all: unfold nativeSettlement, royaltyDue, _feeDenominator in *;
    cbn [fst snd].
  all: repeat match goal with
         | H : ?c = _ |- context [if ?c then _ else _] => rewrite H
         end.
  all: reflexivity.
Qed.

(** C1. Every successful settlement, a fixed-price purchase or the end of
    an auction with a winner, at price [p]: the fee is
    [p * marketplaceFee / 10000] (truncating division, no overflow), the
    royalty is the one the royalty lookup returns for [(tokenId, p)], the
    seller receives [p - fee - royalty], the three parts are non-negative
    and add up to [p] exactly, and the payments made are these amounts. *)
Theorem settlement_split_exact :
  (forall env v tokenId s s' tr,
      run (buyNFT env v tokenId) s = Ok (tt, s', tr) ->
      let p := Listing.price (getListing s tokenId) in
      let fee := feeAmount s p in
      let royalty := royaltyOf s tokenId p in
      let sellerAmount := p - fee - snd royalty in
      fee = p * marketplaceFee s / 10000 /\
      p * marketplaceFee s <= uint256_max /\
      run (royaltyInfo tokenId p) s = Ok (royalty, s, []) /\
      fee + snd royalty <= p /\
      sellerAmount + fee + snd royalty = p /\
      0 <= sellerAmount /\ 0 <= fee /\ 0 <= snd royalty /\
      calls tr = purchaseCalls env v s tokenId) /\
  (forall env tokenId s s' tr,
      run (endAuction env tokenId) s = Ok (tt, s', tr) ->
      Auction.currentBidder (getAuction s tokenId) <> 0 ->
      let p := Auction.currentBid (getAuction s tokenId) in
      let fee := feeAmount s p in
      let royalty := royaltyOf s tokenId p in
      let sellerAmount := p - fee - snd royalty in
      fee = p * marketplaceFee s / 10000 /\
      p * marketplaceFee s <= uint256_max /\
      run (royaltyInfo tokenId p) s = Ok (royalty, s, []) /\
      fee + snd royalty <= p /\
      sellerAmount + fee + snd royalty = p /\
      0 <= sellerAmount /\ 0 <= fee /\ 0 <= snd royalty /\
      calls tr = auctionCalls s tokenId).
Proof.
  split.
  - intros env v tokenId s s' tr H. by apply (buyNFT_settlement _ _ _ _ _ _ H).
  - intros env tokenId s s' tr H Hb.
    by apply (endAuction_settlement _ _ _ _ _ H Hb).
Qed.

(** ** Bidding *)

Ltac b2p :=
  repeat match goal with
    | H : negb _ = true |- _ => apply negb_true_iff in H
    | H : negb _ = false |- _ => apply negb_false_iff in H
    | H : (_ && _) = true |- _ => apply andb_true_iff in H as [? ?]
    | H : (_ || _) = false |- _ => apply orb_false_iff in H as [? ?]
    | H : (_ =? _) = true |- _ => apply N.eqb_eq in H
    | H : (_ =? _) = false |- _ => apply N.eqb_neq in H
    | H : (_ <=? _) = true |- _ => apply N.leb_le in H
    | H : (_ <=? _) = false |- _ => apply N.leb_gt in H
    | H : (_ <? _) = true |- _ => apply N.ltb_lt in H
    | H : (_ <? _) = false |- _ => apply N.ltb_ge in H
    end.

(** Resolve the next condition of a run in the goal with a known fact. *)
Ltac tx_rw H := store_norm; rewrite H; cbv beta iota zeta.

Ltac absurd_branch := exfalso; b2p; first [congruence | lia].

(** What an accepted bid does to the storage. *)
Lemma placeBid_effect env v tokenId s s' tr :
  run (placeBid env v tokenId) s = Ok (tt, s', tr) ->
  let a := getAuction s tokenId in
  getAuction s' tokenId = Auction.set_bid v (msg_sender env) a /\
  (Auction.currentBidder a <> 0 ->
   getPending s' (Auction.currentBidder a) =
   getPending s (Auction.currentBidder a) + Auction.currentBid a) /\
  (Auction.currentBidder a = 0 ->
   pendingWithdrawals s' = pendingWithdrawals s) /\
  (forall x, x <> Auction.currentBidder a -> getPending s' x = getPending s x) /\
  calls tr = [].
Proof.
  intros H a. subst a. unfold placeBid in H. tx_inv H; tx_done H.
  all: store_norm; map_lookup; cbn [fromOption].
  all: b2p.
  all: repeat split; try done; try congruence.
  all: intros x Hx; by rewrite lookup_insert_ne.
Qed.

(** C3 (amended). While the marketplace is not paused, a bid on an active,
    unexpired, native-currency auction by a non-seller, for which the
    credit to a previous bidder fits in [uint256], is accepted if and only
    if the tendered amount is at least the starting price and strictly
    above the current highest bid; a lower amount is rejected with "Bid
    below starting price" and a tie or lower bid with "Bid too low".  An
    accepted bid records the new amount and bidder, credits exactly the
    previous bid to the previous bidder (if there was one) and makes no
    external call. *)
Theorem bid_accepted_iff env v tokenId s :
  reachable s ->
  _paused s = false ->
  let a := getAuction s tokenId in
  Auction.active a = true ->
  block_timestamp env < Auction.endTime a ->
  Auction.paymentToken a = 0 ->
  msg_sender env <> Auction.seller a ->
  (Auction.currentBidder a <> 0 ->
   getPending s (Auction.currentBidder a) + Auction.currentBid a <= uint256_max) ->
  ((exists s' tr, run (placeBid env v tokenId) s = Ok (tt, s', tr)) <->
   Auction.startingPrice a <= v /\ Auction.currentBid a < v) /\
  (v < Auction.startingPrice a ->
   run (placeBid env v tokenId) s = Err (Revert "Bid below starting price")) /\
  (Auction.startingPrice a <= v -> v <= Auction.currentBid a ->
   run (placeBid env v tokenId) s = Err (Revert "Bid too low")) /\
  (forall s' tr,
      run (placeBid env v tokenId) s = Ok (tt, s', tr) ->
      Auction.currentBid (getAuction s' tokenId) = v /\
      Auction.currentBidder (getAuction s' tokenId) = msg_sender env /\
      getAuction s' tokenId = Auction.set_bid v (msg_sender env) a /\
      (Auction.currentBidder a <> 0 ->
       getPending s' (Auction.currentBidder a) =
       getPending s (Auction.currentBidder a) + Auction.currentBid a) /\
      (forall x, x <> Auction.currentBidder a ->
                 getPending s' x = getPending s x) /\
      calls tr = []).
Proof.
  intros Hreach Hpaused a Hactive Htime Hnative Hseller Hfits.
  apply reachable_status in Hreach. subst a.
  assert (Hrun :
    run (placeBid env v tokenId) s =
    if Auction.startingPrice (getAuction s tokenId) <=? v then
      if Auction.currentBid (getAuction s tokenId) <? v then
        run (placeBid env v tokenId) s
      else Err (Revert "Bid too low")
    else Err (Revert "Bid below starting price")).
  { destruct (_ <=? v) eqn:H1; [destruct (_ <? v) eqn:H2; [done|]|].
    all: unfold placeBid; tx_unfold.
    all: tx_rw Hreach; tx_rw Hpaused; tx_rw Hactive.
    all: apply N.ltb_lt in Htime; tx_rw Htime.
    all: apply N.eqb_neq in Hseller; tx_rw Hseller.
    all: tx_rw Hnative; change (0 =? 0) with true; cbv beta iota zeta.
    all: tx_rw H1; try tx_rw H2; reflexivity. }
  split; [split|split; [|split]].
  - intros (s' & tr & H). unfold placeBid in H. tx_inv H; tx_done H.
    all: store_norm; b2p; split; first [lia | congruence].
  - intros [H1 H2]. unfold placeBid. tx_unfold.
    tx_rw Hreach; tx_rw Hpaused; tx_rw Hactive.
    apply N.ltb_lt in Htime; tx_rw Htime.
    apply N.eqb_neq in Hseller; tx_rw Hseller.
    tx_rw Hnative. change (0 =? 0) with true. cbv beta iota zeta.
    apply N.leb_le in H1. apply N.ltb_lt in H2. tx_rw H1. tx_rw H2.
    store_norm.
    destruct (Auction.currentBidder _ =? 0) eqn:Hb; cbv beta iota zeta.
    + eauto.
    + apply N.eqb_neq in Hb. apply Hfits, N.leb_le in Hb.
      tx_rw Hb. eauto.
  - intros Hlow. rewrite Hrun. apply N.leb_gt in Hlow. by rewrite Hlow.
  - intros H1 H2. rewrite Hrun. apply N.leb_le in H1. apply N.ltb_ge in H2.
    by rewrite H1, H2.
  - intros s' tr H. destruct (placeBid_effect _ _ _ _ _ _ H) as (Ha & Hc & _ & Ho & Htr).
    rewrite Ha. repeat split; try done.
Qed.

(** ** Withdrawal *)

(** C4. [withdraw] fails with "No funds to withdraw" when the caller's
    pending balance is 0.  With a positive balance the payout is attempted
    on the storage in which the caller's balance is already 0: the run of
    [withdraw] is the run of the transfer on the zeroed storage, and in a
    successful call the only external call is that transfer, observed with
    the caller's recorded balance at 0. *)
Theorem withdraw_zeroes_before_payout :
  (forall env s,
      reachable s ->
      getPending s (msg_sender env) = 0 ->
      run (withdraw env) s = Err (Revert "No funds to withdraw")) /\
  (forall env s,
      reachable s ->
      0 < getPending s (msg_sender env) ->
      let zeroed :=
        upd_pendingWithdrawals (<[msg_sender env := 0]>)
          (upd_status (fun _ => true) s) in
      getPending zeroed (msg_sender env) = 0 /\
      run (withdraw env) s =
      run (sendNative env (msg_sender env) (getPending s (msg_sender env)) ;;
           modify (upd_status (fun _ => false))) zeroed) /\
  (forall env s s' tr,
      run (withdraw env) s = Ok (tt, s', tr) ->
      0 < getPending s (msg_sender env) /\
      getPending s' (msg_sender env) = 0 /\
      calls tr = [SendNative (msg_sender env) (getPending s (msg_sender env))] /\
      forall c st, In (Call c st) tr ->
                   getPending st (msg_sender env) = 0).
Proof.
  split; [|split].
  - intros env s Hr%reachable_status H0. unfold withdraw. tx_unfold.
    tx_rw Hr. store_norm. rewrite H0. reflexivity.
  - intros env s Hr%reachable_status Hpos zeroed. subst zeroed. split.
    + store_norm. by rewrite lookup_insert_eq.
    + unfold withdraw. tx_unfold. tx_rw Hr. store_norm.
      apply N.ltb_lt in Hpos. rewrite Hpos. cbv beta iota zeta.
      by destruct (_ && _).
  - intros env s s' tr H. unfold withdraw in H. tx_inv H; tx_done H.
    store_norm. b2p. rewrite lookup_insert_eq. repeat split; try done.
    intros c st [Heq|[]]. inversion Heq; subst. store_norm.
    by rewrite lookup_insert_eq.
Qed.

(** ** Ending an auction *)

Lemma sum_le_l a b p : a + b <= p -> a <= p.
Proof. lia. Qed.

Lemma sum_le_r a b p : a + b <= p -> b <= p - a.
Proof. lia. Qed.

Lemma endAuction_inactive env tokenId s :
  _status s = false ->
  Auction.active (getAuction s tokenId) = false ->
  run (endAuction env tokenId) s = Err (Revert "Auction not active").
Proof.
  intros Hs Ha. unfold endAuction. tx_unfold. tx_rw Hs. by tx_rw Ha.
Qed.

Lemma endAuction_effect env tokenId s s' tr :
  run (endAuction env tokenId) s = Ok (tt, s', tr) ->
  Auction.active (getAuction s tokenId) = true /\
  Auction.endTime (getAuction s tokenId) <= block_timestamp env /\
  _status s' = false /\
  auctions s' = delete tokenId (auctions s) /\
  listings s' = listings s /\
  pendingWithdrawals s' = pendingWithdrawals s /\
  (Auction.currentBidder (getAuction s tokenId) = 0 ->
   _owners s' = _owners s /\ calls tr = []).
Proof.
  intros H. unfold endAuction in H. tx_inv H; tx_done H.
  all: store_norm; b2p; rewrite ?delete_insert_eq.
  all: repeat split; try done; try congruence.
Qed.

Lemma endAuction_needs_balance env tokenId s s' tr :
  run (endAuction env tokenId) s = Ok (tt, s', tr) ->
  Auction.currentBidder (getAuction s tokenId) <> 0 ->
  let p := Auction.currentBid (getAuction s tokenId) in
  let royalty := royaltyOf s tokenId p in
  p - snd royalty <= self_balance env /\
  (royaltyDue (fst royalty) (snd royalty) = true -> p <= self_balance env).
Proof.
  intros H Hbidder p royalty. subst p royalty.
  unfold endAuction in H. tx_inv H; tx_done H.
  all: unfold royaltyOf, royaltyDue, _feeDenominator in *; store_norm.
  all: repeat match goal with
         | H : (_, _) = (_, _) |- _ => inversion H; subst; clear H
         end.
  all: b2p; try congruence.
  all: cbn [fst snd] in *.
  all: repeat match goal with
         | H : context [?a * ?b / 10000] |- _ =>
             let x := fresh "x" in
             set (x := a * b / 10000) in *; clearbody x
         | |- context [?a * ?b / 10000] =>
             let x := fresh "x" in
             set (x := a * b / 10000) in *; clearbody x
         end.
  all: split; [lia|].
  all: intros Hdue; b2p; try lia.
  all: match goal with
       | H : (_ && _) = false |- _ =>
           apply andb_false_iff in H as [H|H]; b2p; first [lia | congruence]
       end.
Qed.

(** C5 (amended). After its end time an active auction can be ended by any
    caller.  The call succeeds whenever no bid was placed; with a winning
    bid it succeeds when the split is computable, the contract holds the
    winning bid, the payees accept their payments and the seller still
    owns the item; a call that does not succeed reverts and changes
    nothing.  A successful call finds the auction active, deletes the
    auction record (so the active flag reads false) in both cases, and
    every subsequent call on the resulting state fails with "Auction not
    active".  A call that succeeds with a winning bid finds the payments
    it makes in the contract's balance: the winning bid less a royalty
    that is not paid out. *)
Theorem endAuction_effective_once :
  (forall env tokenId s,
      reachable s ->
      Auction.active (getAuction s tokenId) = true ->
      Auction.endTime (getAuction s tokenId) <= block_timestamp env ->
      Auction.currentBidder (getAuction s tokenId) = 0 ->
      exists s' tr, run (endAuction env tokenId) s = Ok (tt, s', tr)) /\
  (forall env tokenId s,
      reachable s ->
      let a := getAuction s tokenId in
      let p := Auction.currentBid a in
      let royalty := royaltyOf s tokenId p in
      Auction.active a = true ->
      Auction.endTime a <= block_timestamp env ->
      Auction.currentBidder a <> 0 ->
      p * marketplaceFee s <= uint256_max ->
      run (royaltyInfo tokenId p) s = Ok (royalty, s, []) ->
      feeAmount s p + snd royalty <= p ->
      p <= self_balance env ->
      (royaltyDue (fst royalty) (snd royalty) = true ->
       native_accepts env (fst royalty) (snd royalty) = true) ->
      native_accepts env (Auction.seller a)
        (p - feeAmount s p - snd royalty) = true ->
      native_accepts env (_owner s) (feeAmount s p) = true ->
      Auction.seller a <> 0 ->
      _ownerOf s tokenId = Auction.seller a ->
      exists s' tr, run (endAuction env tokenId) s = Ok (tt, s', tr)) /\
  (forall env tokenId s s' tr,
      run (endAuction env tokenId) s = Ok (tt, s', tr) ->
      Auction.active (getAuction s tokenId) = true /\
      Auction.endTime (getAuction s tokenId) <= block_timestamp env /\
      auctions s' !! tokenId = None /\
      getAuction s' tokenId = Auction.zero /\
      Auction.active (getAuction s' tokenId) = false /\
      forall env',
        run (endAuction env' tokenId) s' = Err (Revert "Auction not active")) /\
  (forall env tokenId s e,
      run (endAuction env tokenId) s = Err e ->
      transact env (EndAuction tokenId) s = s) /\
  (forall env tokenId s s' tr,
      run (endAuction env tokenId) s = Ok (tt, s', tr) ->
      Auction.currentBidder (getAuction s tokenId) <> 0 ->
      let p := Auction.currentBid (getAuction s tokenId) in
      let royalty := royaltyOf s tokenId p in
      p - snd royalty <= self_balance env /\
      (royaltyDue (fst royalty) (snd royalty) = true ->
       p <= self_balance env)).
Proof.
  split; [|split; [|split; [|split]]].
  - intros env tokenId s Hr%reachable_status Ha Ht Hb.
    unfold endAuction. tx_unfold. tx_rw Hr. tx_rw Ha.
    apply N.leb_le in Ht. tx_rw Ht. tx_rw Hb.
    change (0 =? 0) with true. cbv beta iota zeta. eauto.
  - intros env tokenId s Hr%reachable_status a p royalty.
    subst a p royalty.
    intros Ha Ht Hb Hfee Hroy Hsum Hbal Hpay1 Hpay2 Hpay3 Hseller Howner.
    unfold run in Hroy. tx_unfold_in Hroy.
    unfold endAuction. tx_unfold.
    unfold feeAmount, royaltyOf, royaltyDue, _feeDenominator in *.
    tx_rw Hr. tx_rw Ha. apply N.leb_le in Ht. tx_rw Ht.
    apply N.eqb_neq in Hb. tx_rw Hb. cbn [negb].
    apply N.leb_le in Hfee. tx_rw Hfee.
    destruct (_ * snd _ <=? uint256_max) eqn:Hmul; [|discriminate].
    cbv beta iota zeta.
    tx_rw (proj2 (N.leb_le _ _) (sum_le_l _ _ _ Hsum)).
    tx_rw (proj2 (N.leb_le _ _) (sum_le_r _ _ _ Hsum)).
    apply N.eqb_neq in Hseller.
    set (fee := _ * marketplaceFee s / 10000) in *.
    set (ra := _ * snd _ / 10000) in *.
    clearbody fee ra.
    destruct (_ && _) eqn:Hdue; cbv beta iota zeta.
    + store_norm. rewrite (Hpay1 eq_refl), andb_true_r.
      rewrite (proj2 (N.leb_le _ _)) by lia. cbv beta iota zeta.
      store_norm. rewrite Hpay2, andb_true_r.
      rewrite (proj2 (N.leb_le _ _)) by lia. cbv beta iota zeta.
      store_norm. rewrite Hpay3, andb_true_r.
      rewrite (proj2 (N.leb_le _ _)) by lia. cbv beta iota zeta.
      change (0 =? 0) with true. cbv beta iota zeta.
      tx_rw Howner. rewrite Hseller. cbn [negb]. cbv beta iota zeta.
      rewrite ?Hseller, N.eqb_refl. cbn [negb]. cbv beta iota zeta. eauto.
    + store_norm. rewrite Hpay2, andb_true_r.
      rewrite (proj2 (N.leb_le _ _)) by lia. cbv beta iota zeta.
      store_norm. rewrite Hpay3, andb_true_r.
      rewrite (proj2 (N.leb_le _ _)) by lia. cbv beta iota zeta.
      change (0 =? 0) with true. cbv beta iota zeta.
      tx_rw Howner. rewrite Hseller. cbn [negb]. cbv beta iota zeta.
      rewrite ?Hseller, N.eqb_refl. cbn [negb]. cbv beta iota zeta. eauto.
  - intros env tokenId s s' tr H.
    destruct (endAuction_effect _ _ _ _ _ H) as (Ha & Ht & Hs & Hd & _).
    assert (Hnone : auctions s' !! tokenId = None)
      by (rewrite Hd; apply lookup_delete_eq).
    assert (Hzero : getAuction s' tokenId = Auction.zero)
      by (unfold getAuction; by rewrite Hnone).
    repeat split; try done.
    + by rewrite Hzero.
    + intros env'. apply endAuction_inactive; [done|by rewrite Hzero].
  - intros env tokenId s e H. unfold transact. cbn [dispatch]. by rewrite H.
  - intros env tokenId s s' tr H Hb.
    by apply (endAuction_needs_balance _ _ _ _ _ H).
Qed.

(** ** Bids on token-denominated auctions *)

(** C6 (amended). A bid on an auction whose payment currency is the token
    is never accepted: the call reverts with one of the contract's
    explicit errors (never an arithmetic or external failure) and the
    storage is left as it was.  The error is not always the one of the
    unimplemented branch: a bid that passes the pause, activity, expiry
    and self-bid checks gets "ERC20 auctions not implemented in this
    version" only when it carries no native value, and "ETH not accepted
    for ERC20 auction" when it does.  The auction itself is accepted
    without complaint: [createAuction] with the accepted token succeeds
    under the same conditions as in native currency and stores an active
    auction in that token. *)
Theorem token_auction_bid_rejected :
  (forall env v tokenId s,
      Auction.paymentToken (getAuction s tokenId) <> 0 ->
      (exists e, run (placeBid env v tokenId) s = Err e /\
                 In e [CustomError "ReentrancyGuardReentrantCall";
                       CustomError "EnforcedPause";
                       Revert "Auction not active";
                       Revert "Auction ended";
                       Revert "Cannot bid on your own auction";
                       Revert "ETH not accepted for ERC20 auction";
                       Revert "ERC20 auctions not implemented in this version"]) /\
      transact env (PlaceBid v tokenId) s = s) /\
  (forall env v tokenId s,
      reachable s ->
      _paused s = false ->
      let a := getAuction s tokenId in
      Auction.active a = true ->
      block_timestamp env < Auction.endTime a ->
      msg_sender env <> Auction.seller a ->
      Auction.paymentToken a <> 0 ->
      run (placeBid env v tokenId) s =
      Err (Revert (if v =? 0
                   then "ERC20 auctions not implemented in this version"
                   else "ETH not accepted for ERC20 auction"))) /\
  (forall env tokenId sp d s,
      _ownerOf s tokenId <> 0 ->
      _ownerOf s tokenId = msg_sender env ->
      isTokenApproved s tokenId = true ->
      _paused s = false ->
      0 < sp ->
      one_hour <= d ->
      d <= seven_days ->
      Listing.active (getListing s tokenId) = false ->
      Auction.active (getAuction s tokenId) = false ->
      block_timestamp env + d <= uint256_max ->
      usdtToken s <> 0 ->
      exists s' tr,
        run (createAuction env tokenId sp d (usdtToken s)) s
        = Ok (tt, s', tr) /\
        Auction.active (getAuction s' tokenId) = true /\
        Auction.paymentToken (getAuction s' tokenId) = usdtToken s /\
        Auction.paymentToken (getAuction s' tokenId) <> 0).
Proof.
  split; [|split].
  - intros env v tokenId s Htok.
    assert (Herr : exists e, run (placeBid env v tokenId) s = Err e /\
                 In e [CustomError "ReentrancyGuardReentrantCall";
                       CustomError "EnforcedPause";
                       Revert "Auction not active";
                       Revert "Auction ended";
                       Revert "Cannot bid on your own auction";
                       Revert "ETH not accepted for ERC20 auction";
                       Revert "ERC20 auctions not implemented in this version"]).
    { apply N.eqb_neq in Htok. unfold placeBid. tx_unfold.
      repeat (store_norm; rewrite ?Htok; cbv beta iota zeta; tx_goal_case).
      all: store_norm; rewrite ?Htok; cbv beta iota zeta.
      all: eexists; split; [reflexivity|cbn; tauto]. }
    split; [done|]. destruct Herr as (e & He & _).
    unfold transact. cbn [dispatch]. by rewrite He.
  - intros env v tokenId s Hr%reachable_status Hp a Ha Ht Hs Htok. subst a.
    unfold placeBid. tx_unfold. tx_rw Hr. tx_rw Hp. tx_rw Ha.
    apply N.ltb_lt in Ht. tx_rw Ht. apply N.eqb_neq in Hs. tx_rw Hs.
    cbn [negb]. apply N.eqb_neq in Htok. tx_rw Htok.
    by destruct (v =? 0).
  - intros env tokenId sp d s Hex Hown Happ Hp Hsp Hd1 Hd2 Hl Ha Hfit Htok.
    unfold createAuction. tx_unfold. store_norm.
    apply N.eqb_neq in Hex. rewrite Hex. cbv beta iota zeta.
    rewrite Hown, N.eqb_refl. cbv beta iota zeta.
    rewrite Happ. cbv beta iota zeta. rewrite Hp. cbv beta iota zeta.
    apply N.ltb_lt in Hsp. rewrite Hsp. cbv beta iota zeta.
    apply N.leb_le in Hd1, Hd2. rewrite Hd1, Hd2. cbn [andb].
    cbv beta iota zeta.
    rewrite N.eqb_refl, orb_true_r, Hl, Ha. cbn [negb]. cbv beta iota zeta.
    apply N.leb_le in Hfit. rewrite Hfit. cbv beta iota zeta.
    eexists _, _. split; [reflexivity|]. store_norm.
    rewrite lookup_insert_eq. done.
Qed.

(** ** Cancelling a listing *)

Lemma upd_listings_delete_insert tokenId l s :
  listings s !! tokenId = None ->
  upd_listings (delete tokenId) (upd_listings (<[tokenId := l]>) s) = s.
Proof.
  intros H. destruct s. unfold upd_listings. cbn in *.
  by rewrite delete_insert_eq, delete_id.
Qed.

(** C7 (amended). [cancelListing] is guarded by the item's current owner,
    not by the seller recorded in the listing: it fails with "Not token
    owner" whenever the caller differs from the owner of an existing item,
    and, for the owner, with "Not listed" when no listing is active.  On
    success it deletes the listing and changes nothing else: no external
    call is made, no balance and no owner changes, and the item reads as
    unlisted; listing an unlisted item and cancelling restores the
    storage. *)
Theorem cancelListing_by_current_owner :
  (forall env tokenId s,
      _ownerOf s tokenId <> 0 ->
      msg_sender env <> _ownerOf s tokenId ->
      run (cancelListing env tokenId) s = Err (Revert "Not token owner")) /\
  (forall env tokenId s,
      _ownerOf s tokenId <> 0 ->
      msg_sender env = _ownerOf s tokenId ->
      Listing.active (getListing s tokenId) = false ->
      run (cancelListing env tokenId) s = Err (Revert "Not listed")) /\
  (forall env tokenId s,
      _ownerOf s tokenId <> 0 ->
      msg_sender env = _ownerOf s tokenId ->
      Listing.active (getListing s tokenId) = true ->
      run (cancelListing env tokenId) s =
      Ok (tt, upd_listings (delete tokenId) s,
          [Emit (ListingCancelled tokenId (msg_sender env))])) /\
  (forall env tokenId s s' tr,
      run (cancelListing env tokenId) s = Ok (tt, s', tr) ->
      msg_sender env = _ownerOf s tokenId /\
      s' = upd_listings (delete tokenId) s /\
      getListing s' tokenId = Listing.zero /\
      calls tr = [] /\
      pendingWithdrawals s' = pendingWithdrawals s /\
      _owners s' = _owners s /\
      auctions s' = auctions s) /\
  (forall env env' tokenId price tok s s1 tr1 s2 tr2,
      listings s !! tokenId = None ->
      run (listNFT env tokenId price tok) s = Ok (tt, s1, tr1) ->
      run (cancelListing env' tokenId) s1 = Ok (tt, s2, tr2) ->
      s2 = s /\ calls tr1 = [] /\ calls tr2 = []).
Proof.
  split; [|split; [|split; [|split]]].
  - intros env tokenId s Hex Hne. unfold cancelListing. tx_unfold.
    store_norm. apply N.eqb_neq in Hex. rewrite Hex. cbv beta iota zeta.
    assert (Hneq : (fromOption 0 (_owners s !! tokenId) =? msg_sender env) = false)
      by (apply N.eqb_neq; congruence).
    by rewrite Hneq.
  - intros env tokenId s Hex Heq Hin. unfold cancelListing. tx_unfold.
    store_norm. apply N.eqb_neq in Hex. rewrite Hex. cbv beta iota zeta.
    rewrite <- Heq, N.eqb_refl. cbv beta iota zeta. by rewrite Hin.
  - intros env tokenId s Hex Heq Hact. unfold cancelListing. tx_unfold.
    store_norm. apply N.eqb_neq in Hex. rewrite Hex. cbv beta iota zeta.
    rewrite <- Heq, N.eqb_refl. cbv beta iota zeta. by rewrite Hact.
  - intros env tokenId s s' tr H. unfold cancelListing in H.
    tx_inv H; tx_done H. store_norm. b2p.
    rewrite lookup_delete_eq. repeat split; try done.
  - intros env env' tokenId price tok s s1 tr1 s2 tr2 Hnone H1 H2.
    unfold listNFT in H1. tx_inv H1; tx_done H1.
    unfold cancelListing in H2. tx_inv H2; tx_done H2.
    split; [|done]. by apply upd_listings_delete_insert.
Qed.

(** ** The pause switch *)

Ltac tx_rhs_case :=
  lazymatch goal with
  | |- _ = ?r =>
      let h := app_head r in
      lazymatch h with
      | match ?x with _ => _ end =>
          let c := head_scrut x in destruct c eqn:?; cbv beta iota zeta
      end
  end.

(** Both sides of [run op (f s) = mapResult f (run op s)] are evaluated
    in step. *)
Ltac tx_commute :=
  tx_unfold; unfold mapResult; store_norm;
  repeat (tx_rhs_case; store_norm); try reflexivity.

(** C8. While the marketplace is paused every call to [listNFT],
    [buyNFT], [createAuction] and [placeBid] reverts, so the storage
    (listings, auctions, ownership and all the rest) is unchanged by the
    attempt; [cancelListing], [endAuction] and [withdraw] do not read the
    pause flag: they behave on a paused storage exactly as on the unpaused
    one. *)
Theorem pause_blocks_entry_not_exit :
  (forall env s,
      _paused s = true ->
      (forall tokenId price tok,
          (exists e, run (listNFT env tokenId price tok) s = Err e) /\
          transact env (ListNFT tokenId price tok) s = s) /\
      (forall v tokenId,
          (exists e, run (buyNFT env v tokenId) s = Err e) /\
          transact env (BuyNFT v tokenId) s = s) /\
      (forall tokenId sp d tok,
          (exists e, run (createAuction env tokenId sp d tok) s = Err e) /\
          transact env (CreateAuction tokenId sp d tok) s = s) /\
      (forall v tokenId,
          (exists e, run (placeBid env v tokenId) s = Err e) /\
          transact env (PlaceBid v tokenId) s = s)) /\
  (forall env s,
      reachable s ->
      _paused s = true ->
      (forall v tokenId,
          run (buyNFT env v tokenId) s = Err (CustomError "EnforcedPause")) /\
      (forall v tokenId,
          run (placeBid env v tokenId) s = Err (CustomError "EnforcedPause"))) /\
  (forall b env s,
      (forall tokenId,
          run (cancelListing env tokenId) (setPaused b s) =
          mapResult (setPaused b) (run (cancelListing env tokenId) s)) /\
      (forall tokenId,
          run (endAuction env tokenId) (setPaused b s) =
          mapResult (setPaused b) (run (endAuction env tokenId) s)) /\
      run (withdraw env) (setPaused b s) =
      mapResult (setPaused b) (run (withdraw env) s)).
Proof.
  split; [|split].
  - intros env s Hp.
    assert (Hstay : forall m, (exists e, run (dispatch env m) s = Err e) ->
                              transact env m s = s).
    { intros m [e He]. unfold transact. by rewrite He. }
    split; [|split; [|split]].
    + intros tokenId price tok.
      assert (He : exists e, run (listNFT env tokenId price tok) s = Err e).
      { unfold listNFT. tx_unfold.
        repeat (store_norm; rewrite ?Hp; cbv beta iota zeta; tx_goal_case).
        all: store_norm; rewrite ?Hp; cbv beta iota zeta; eexists; reflexivity. }
      split; [done|]. by apply (Hstay (ListNFT tokenId price tok)).
    + intros v tokenId.
      assert (He : exists e, run (buyNFT env v tokenId) s = Err e).
      { unfold buyNFT. tx_unfold.
        repeat (store_norm; rewrite ?Hp; cbv beta iota zeta; tx_goal_case).
        all: store_norm; rewrite ?Hp; cbv beta iota zeta; eexists; reflexivity. }
      split; [done|]. by apply (Hstay (BuyNFT v tokenId)).
    + intros tokenId sp d tok.
      assert (He : exists e, run (createAuction env tokenId sp d tok) s = Err e).
      { unfold createAuction. tx_unfold.
        repeat (store_norm; rewrite ?Hp; cbv beta iota zeta; tx_goal_case).
        all: store_norm; rewrite ?Hp; cbv beta iota zeta; eexists; reflexivity. }
      split; [done|]. by apply (Hstay (CreateAuction tokenId sp d tok)).
    + intros v tokenId.
      assert (He : exists e, run (placeBid env v tokenId) s = Err e).
      { unfold placeBid. tx_unfold.
        repeat (store_norm; rewrite ?Hp; cbv beta iota zeta; tx_goal_case).
        all: store_norm; rewrite ?Hp; cbv beta iota zeta; eexists; reflexivity. }
      split; [done|]. by apply (Hstay (PlaceBid v tokenId)).
  - intros env s Hr%reachable_status Hp. split; intros v tokenId.
    + unfold buyNFT. tx_unfold. tx_rw Hr. by tx_rw Hp.
    + unfold placeBid. tx_unfold. tx_rw Hr. by tx_rw Hp.
  - intros b env s. split; [|split].
    + intros tokenId. unfold cancelListing. tx_commute.
    + intros tokenId. unfold endAuction. tx_commute.
    + unfold withdraw. tx_commute.
Qed.

(** ** Creating a listing or an auction *)

Lemma dispatch_owners env m s s' tr :
  run (dispatch env m) s = Ok (tt, s', tr) ->
  writesOwners m = false ->
  _owners s' = _owners s.
Proof.
  intros H Hm. destruct m; try discriminate Hm; cbn [dispatch] in H.
  2: { unfold batchApproveNFTs in H. tx_unfold_in H. tx_case H.
       destruct (batchApproveNFTs_loop _ _ _ _) as [[[r s1] tr1]|] eqn:Hl;
         [|discriminate].
       apply batchApproveNFTs_loop_effect in Hl as [f ->]. by tx_done H. }
  all: unfold_ops H; tx_inv H; by tx_done H.
Qed.

(** The owner of an existing item changes only through the sale of that
    item or a transfer of it made in the registry. *)
Lemma dispatch_ownerOf env m s s' tr item :
  run (dispatch env m) s = Ok (tt, s', tr) ->
  _ownerOf s item <> 0 ->
  _ownerOf s' item <> _ownerOf s item ->
  (exists v, m = BuyNFT v item) \/
  m = EndAuction item \/
  (exists from to, m = TransferFrom from to item) \/
  (exists from to, m = SafeTransferFrom from to item).
Proof.
  intros H Hex Hne. destruct m; cbn [dispatch] in H.
  3: { unfold batchApproveNFTs in H. tx_unfold_in H. tx_case H.
       destruct (batchApproveNFTs_loop _ _ _ _) as [[[r s1] tr1]|] eqn:Hl;
         [|discriminate].
       apply batchApproveNFTs_loop_effect in Hl as [f ->]. tx_done H.
       done. }
  all: unfold_ops H; tx_inv H; tx_done H; store_norm; try done.
  all: match type of Hne with
       | context [<[?t := _]> _ !! ?i] =>
           destruct (decide (i = t)) as [->|Hd];
           [|exfalso; apply Hne; by rewrite lookup_insert_ne]
       end.
  all: b2p; try congruence.
  all: eauto 6.
Qed.

(** C9 (amended). A successful [listNFT] or [createAuction] writes the
    one record of the item and nothing else: the owner table is unchanged
    and the item is with the caller right after the call (it is not
    escrowed), no pending balance changes, no external call is made, and
    the listings and auctions of all other items are as before.  The item
    need not remain with the seller while it is listed or under auction:
    the owner table is written by a sale ([buyNFT], [endAuction]), a mint,
    and the transfers of the registry itself, and the owner of an existing
    item changes exactly through the purchase of that item, the end of
    its auction, or a registry transfer of it, which its owner can make
    whatever the listing or auction says. *)
Theorem creation_moves_nothing :
  (forall env tokenId price tok s s' tr,
      run (listNFT env tokenId price tok) s = Ok (tt, s', tr) ->
      s' = upd_listings
             (<[tokenId := Listing.mk tokenId (msg_sender env) price tok true
                             (block_timestamp env)]>) s /\
      _owners s' = _owners s /\
      _ownerOf s' tokenId = msg_sender env /\
      pendingWithdrawals s' = pendingWithdrawals s /\
      auctions s' = auctions s /\
      (forall other, other <> tokenId ->
                     getListing s' other = getListing s other /\
                     getAuction s' other = getAuction s other) /\
      calls tr = []) /\
  (forall env tokenId startingPrice duration tok s s' tr,
      run (createAuction env tokenId startingPrice duration tok) s
      = Ok (tt, s', tr) ->
      s' = upd_auctions
             (<[tokenId := Auction.mk tokenId (msg_sender env) startingPrice
                             0 0 tok (block_timestamp env + duration) true
                             (block_timestamp env)]>) s /\
      _owners s' = _owners s /\
      _ownerOf s' tokenId = msg_sender env /\
      pendingWithdrawals s' = pendingWithdrawals s /\
      listings s' = listings s /\
      (forall other, other <> tokenId ->
                     getListing s' other = getListing s other /\
                     getAuction s' other = getAuction s other) /\
      calls tr = []) /\
  (forall env m s s' tr,
      run (dispatch env m) s = Ok (tt, s', tr) ->
      writesOwners m = false ->
      _owners s' = _owners s) /\
  (forall env m s s' tr tokenId,
      run (dispatch env m) s = Ok (tt, s', tr) ->
      _ownerOf s tokenId <> 0 ->
      _ownerOf s' tokenId <> _ownerOf s tokenId ->
      (exists v, m = BuyNFT v tokenId) \/
      m = EndAuction tokenId \/
      (exists from to, m = TransferFrom from to tokenId) \/
      (exists from to, m = SafeTransferFrom from to tokenId)) /\
  (forall env to tokenId s,
      _ownerOf s tokenId = msg_sender env ->
      msg_sender env <> 0 ->
      to <> 0 ->
      exists s' tr,
        run (transferFrom env (msg_sender env) to tokenId) s
        = Ok (tt, s', tr) /\
        _ownerOf s' tokenId = to /\
        getListing s' tokenId = getListing s tokenId /\
        getAuction s' tokenId = getAuction s tokenId).
Proof.
  split; [|split; [|split; [exact dispatch_owners|split]]];
    [| |exact dispatch_ownerOf|].
  - intros env tokenId price tok s s' tr H. unfold listNFT in H.
    tx_inv H; tx_done H. store_norm. b2p. repeat split; try done.
    by rewrite lookup_insert_ne.
  - intros env tokenId startingPrice duration tok s s' tr H.
    unfold createAuction in H. tx_inv H; tx_done H. store_norm. b2p.
    repeat split; try done. by rewrite lookup_insert_ne.
  - intros env to tokenId s Ho Hs Hto. apply N.eqb_neq in Hs, Hto.
    eexists _, _. split.
    + unfold transferFrom, _update, _isAuthorized. tx_unfold. store_norm.
      unfold _ownerOf in Ho.
      rewrite Hto. cbv beta iota zeta. rewrite Hs. cbv beta iota zeta.
      rewrite Ho, N.eqb_refl. cbn [negb andb orb]. cbv beta iota zeta.
      rewrite Hs. cbn [negb]. cbv beta iota zeta.
      rewrite N.eqb_refl. reflexivity.
    + store_norm. by rewrite lookup_insert_eq.
Qed.

(** ** Changing the accepted payment token *)

Lemma buyNFT_ignores_usdtToken f env v tokenId s :
  run (buyNFT env v tokenId) (upd_usdtToken f s) =
  mapResult (upd_usdtToken f) (run (buyNFT env v tokenId) s).
Proof. unfold buyNFT. tx_commute. Qed.

Lemma calls_mapEffect (f : Store -> Store) (tr : Trace) :
  calls (map (mapEffect f) tr) = calls tr.
Proof.
  induction tr as [|[c st|e] tr IH]; cbn; [done| |done].
  unfold calls in IH. by rewrite IH.
Qed.

(** C10. [setUSDTToken] writes the accepted-token variable and nothing
    else: listings, auctions, owners and pending balances are untouched
    and no external call is made.  [buyNFT] does not read that variable:
    after the change, the purchase of a listing created earlier runs as it
    would have before, and its payments are made in the payment token
    recorded in the listing. *)
Theorem payment_token_fixed_at_listing :
  (forall env tok s s' tr,
      run (setUSDTToken env tok) s = Ok (tt, s', tr) ->
      s' = upd_usdtToken (fun _ => tok) s /\
      listings s' = listings s /\
      auctions s' = auctions s /\
      _owners s' = _owners s /\
      pendingWithdrawals s' = pendingWithdrawals s /\
      calls tr = []) /\
  (forall f env v tokenId s,
      run (buyNFT env v tokenId) (upd_usdtToken f s) =
      mapResult (upd_usdtToken f) (run (buyNFT env v tokenId) s)) /\
  (forall envA tok env v tokenId s s1 tr1 s2 tr2,
      run (setUSDTToken envA tok) s = Ok (tt, s1, tr1) ->
      run (buyNFT env v tokenId) s1 = Ok (tt, s2, tr2) ->
      getListing s1 tokenId = getListing s tokenId /\
      calls tr2 = purchaseCalls env v s tokenId /\
      exists s2' tr2',
        run (buyNFT env v tokenId) s = Ok (tt, s2', tr2') /\
        s2 = upd_usdtToken (fun _ => tok) s2' /\
        calls tr2' = calls tr2).
Proof.
  assert (Hset : forall env tok s s' tr,
             run (setUSDTToken env tok) s = Ok (tt, s', tr) ->
             s' = upd_usdtToken (fun _ => tok) s /\ calls tr = []).
  { intros env tok s s' tr H. unfold setUSDTToken in H.
    tx_inv H; tx_done H. done. }
  split; [|split].
  - intros env tok s s' tr H. destruct (Hset _ _ _ _ _ H) as [-> Hc]. done.
  - apply buyNFT_ignores_usdtToken.
  - intros envA tok env v tokenId s s1 tr1 s2 tr2 H1 H2.
    destruct (Hset _ _ _ _ _ H1) as [-> _]. split; [done|].
    rewrite buyNFT_ignores_usdtToken in H2.
    destruct (run (buyNFT env v tokenId) s) as [[[[] s2'] tr2']|e] eqn:Hb;
      [|discriminate].
    cbn [mapResult] in H2. injection H2 as <- <-.
    rewrite (calls_mapEffect _ tr2').
    split; [by apply (buyNFT_settlement _ _ _ _ _ _ Hb)|].
    by exists s2', tr2'.
Qed.

(** ** Mutual exclusion of listing and auction *)

(** C2. In every reachable state no item has both an active listing and
    an active auction.  [listNFT] reverts when an auction is active for
    the item, [createAuction] reverts when a listing is active for it, and
    a record that is active after a call was active before it unless the
    call is the [listNFT] (for a listing) or the [createAuction] (for an
    auction) of that item, made while the other record was inactive. *)
Theorem listing_auction_exclusive :
  (forall s, reachable s -> forall tokenId, ~ bothActive s tokenId) /\
  (forall env tokenId price tok s,
      Auction.active (getAuction s tokenId) = true ->
      exists e, run (listNFT env tokenId price tok) s = Err e) /\
  (forall env tokenId sp d tok s,
      Listing.active (getListing s tokenId) = true ->
      exists e, run (createAuction env tokenId sp d tok) s = Err e) /\
  (forall env m s s' tr,
      run (dispatch env m) s = Ok (tt, s', tr) ->
      forall tokenId,
        (Listing.active (getListing s' tokenId) = true ->
         Listing.active (getListing s tokenId) = true \/
         (Auction.active (getAuction s tokenId) = false /\
          exists price tok, m = ListNFT tokenId price tok)) /\
        (Auction.active (getAuction s' tokenId) = true ->
         Auction.active (getAuction s tokenId) = true \/
         (Listing.active (getListing s tokenId) = false /\
          exists sp d tok, m = CreateAuction tokenId sp d tok))).
Proof.
  split; [exact reachable_exclusive|]. split; [|split].
  - intros env tokenId price tok s Ha.
    destruct (run (listNFT env tokenId price tok) s) as [[[[] s'] tr]|e] eqn:H;
      [exfalso|by exists e].
    unfold listNFT in H. tx_inv H. store_norm. b2p. congruence.
  - intros env tokenId sp d tok s Hl.
    destruct (run (createAuction env tokenId sp d tok) s)
      as [[[[] s'] tr]|e] eqn:H; [exfalso|by exists e].
    unfold createAuction in H. tx_inv H. store_norm. b2p. congruence.
  - intros env m s s' tr H tokenId.
    destruct (dispatch_activation _ _ _ _ _ H tokenId) as [HL HA].
    split; intros Hact.
    + destruct (HL Hact) as [?|(? & _ & ?)]; [by left|by right].
    + destruct (HA Hact) as [?|(? & _ & ?)]; [by left|by right].
Qed.

(** * Scenarios *)

Ltac solve_reachable :=
  unfold listedNative, auctionTwoBids, auctionOneBid, auctionPaused,
    auctionOpen, listedThenMoved, tokenAuctionOpen, listedToken, minted,
    deployed;
  repeat first [ apply reachable_init
               | apply reachable_transact
               | apply reachable_transactAll ].

Lemma settlement_split_exact_witness :
  (exists s' tr,
      run (buyNFT (ctx buyer 30) 1000 0) listedNative
      = Ok (tt, s', tr) /\
      feeAmount listedNative 1000 + snd (royaltyOf listedNative 0 1000) <= 1000 /\
      calls tr = [SendNative creator 50; SendNative creator 925;
                  SendNative admin 25]) /\
  (exists s' tr,
      run (endAuction (holding 1300 (ctx buyer 4000)) 0) auctionTwoBids
      = Ok (tt, s', tr) /\
      feeAmount auctionTwoBids 700 + snd (royaltyOf auctionTwoBids 0 700) <= 700 /\
      calls tr = [SendNative creator 35; SendNative creator 648;
                  SendNative admin 17]).
Proof.
  split.
  - destruct (run (buyNFT (ctx buyer 30) 1000 0) listedNative)
      as [[[[] s'] tr]|e] eqn:H; [|vm_compute in H; discriminate].
    exists s', tr. split; [reflexivity|].
    destruct (proj1 settlement_split_exact _ _ _ _ _ _ H)
      as (_ & _ & _ & Hle & _ & _ & _ & _ & Hcalls).
    split; [exact Hle|]. rewrite Hcalls. vm_compute. reflexivity.
  - destruct (run (endAuction (holding 1300 (ctx buyer 4000)) 0) auctionTwoBids)
      as [[[[] s'] tr]|e] eqn:H; [|vm_compute in H; discriminate].
    exists s', tr. split; [reflexivity|].
    destruct (proj2 settlement_split_exact _ _ _ _ _ H
                ltac:(vm_compute; congruence))
      as (_ & _ & _ & Hle & _ & _ & _ & _ & Hcalls).
    split; [exact Hle|]. rewrite Hcalls. vm_compute. reflexivity.
Defined.

Lemma listing_auction_exclusive_witness :
  reachable listedNative /\
  Listing.active (getListing listedNative 0) = true /\
  ~ bothActive listedNative 0 /\
  (exists e, run (createAuction (ctx creator 21) 0 500 3600 0) listedNative
             = Err e) /\
  (exists e, run (listNFT (ctx creator 21) 0 1000 0) auctionOpen = Err e).
Proof.
  assert (Hr : reachable listedNative) by solve_reachable.
  destruct listing_auction_exclusive as (Hexcl & Hlist & Hcreate & _).
  split; [exact Hr|]. split; [vm_compute; reflexivity|].
  split; [exact (Hexcl listedNative Hr 0)|]. split.
  - exact (Hcreate (ctx creator 21) 0 500 3600 0 listedNative
             ltac:(vm_compute; reflexivity)).
  - exact (Hlist (ctx creator 21) 0 1000 0 auctionOpen
             ltac:(vm_compute; reflexivity)).
Defined.

(** A bid of 600 that meets the starting price of 500 on the open,
    unexpired native-currency auction is rejected while the marketplace is
    paused. *)
Lemma bid_rejected_while_paused :
  reachable auctionPaused /\
  Auction.active (getAuction auctionPaused 0) = true /\
  block_timestamp (ctx bidderA 30) < Auction.endTime (getAuction auctionPaused 0) /\
  Auction.paymentToken (getAuction auctionPaused 0) = 0 /\
  msg_sender (ctx bidderA 30) <> Auction.seller (getAuction auctionPaused 0) /\
  Auction.startingPrice (getAuction auctionPaused 0) <= 600 /\
  Auction.currentBid (getAuction auctionPaused 0) < 600 /\
  run (placeBid (ctx bidderA 30) 600 0) auctionPaused
  = Err (CustomError "EnforcedPause").
Proof.
  split; [solve_reachable|].
  repeat split; try (vm_compute; congruence).
Qed.

Lemma bid_accepted_iff_witness :
  reachable auctionOneBid /\
  (exists s' tr,
      run (placeBid (ctx bidderB 40) 700 0) auctionOneBid = Ok (tt, s', tr) /\
      Auction.currentBid (getAuction s' 0) = 700 /\
      Auction.currentBidder (getAuction s' 0) = bidderB /\
      getPending s' bidderA = 600).
Proof.
  assert (Hr : reachable auctionOneBid) by solve_reachable.
  split; [exact Hr|].
  pose proof (bid_accepted_iff (ctx bidderB 40) 700 0 auctionOneBid Hr
                ltac:(reflexivity) ltac:(reflexivity)
                ltac:(vm_compute; reflexivity) ltac:(reflexivity)
                ltac:(vm_compute; congruence)
                ltac:(intros _; vm_compute; congruence)) as H.
  destruct H as (Hiff & _ & _ & Heff).
  destruct (proj2 Hiff) as (s' & tr & Hrun).
  { split; vm_compute; congruence. }
  exists s', tr. split; [exact Hrun|].
  destruct (Heff s' tr Hrun) as (Hb & Hw & _ & Hcredit & _).
  split; [exact Hb|]. split; [exact Hw|].
  pose proof (Hcredit ltac:(vm_compute; congruence)) as Hc.
  vm_compute in Hc. vm_compute. exact Hc.
Defined.

Lemma withdraw_zeroes_before_payout_witness :
  reachable auctionTwoBids /\
  run (withdraw (ctx bidderB 50)) auctionTwoBids
  = Err (Revert "No funds to withdraw") /\
  (exists s' tr,
      run (withdraw (holding 1300 (ctx bidderA 50))) auctionTwoBids
      = Ok (tt, s', tr) /\
      0 < getPending auctionTwoBids bidderA /\
      getPending s' bidderA = 0 /\
      calls tr = [SendNative bidderA 600] /\
      forall c st, In (Call c st) tr -> getPending st bidderA = 0).
Proof.
  assert (Hr : reachable auctionTwoBids) by solve_reachable.
  destruct withdraw_zeroes_before_payout as (Hnone & _ & Hok).
  split; [exact Hr|]. split.
  - exact (Hnone (ctx bidderB 50) auctionTwoBids Hr
             ltac:(vm_compute; reflexivity)).
  - destruct (run (withdraw (holding 1300 (ctx bidderA 50))) auctionTwoBids)
      as [[[[] s'] tr]|e] eqn:H; [|vm_compute in H; discriminate].
    exists s', tr. split; [reflexivity|].
    destruct (Hok _ _ _ _ H) as (Hpos & Hzero & Hcalls & Hsnap).
    split; [exact Hpos|]. split; [exact Hzero|]. split; [|exact Hsnap].
    rewrite Hcalls. vm_compute. reflexivity.
Defined.

(** The two-bid auction, past its end time, cannot be ended while the
    seller's account rejects native payments: the first call fails.  Nor
    can it be ended, by a caller whose payees all accept, after the seller
    transferred the item away, or after the administrator withdrew the
    contract's balance, the two bids included. *)
Lemma endAuction_first_call_can_fail :
  reachable auctionTwoBids /\
  Auction.active (getAuction auctionTwoBids 0) = true /\
  Auction.endTime (getAuction auctionTwoBids 0)
  <= block_timestamp ctxSellerRejects /\
  run (endAuction ctxSellerRejects 0) auctionTwoBids = Err CallFailed /\
  reachable auctionSellerLeft /\
  Auction.active (getAuction auctionSellerLeft 0) = true /\
  Auction.endTime (getAuction auctionSellerLeft 0)
  <= block_timestamp (holding 1300 (ctx bidderB 4000)) /\
  run (endAuction (holding 1300 (ctx bidderB 4000)) 0) auctionSellerLeft
  = Err (CustomError "ERC721IncorrectOwner") /\
  world_storage auctionTwoBidsHeld = auctionTwoBids /\
  world_balance auctionTwoBidsHeld = 1300 /\
  world_storage auctionDrained = auctionTwoBids /\
  world_balance auctionDrained = 0 /\
  run (endAuction (holding (world_balance auctionDrained) (ctx buyer 4000)) 0)
    (world_storage auctionDrained)
  = Err CallFailed /\
  call (ctx buyer 4000) (EndAuction 0) auctionDrained = auctionDrained.
Proof.
  split; [solve_reachable|].
  do 3 (split; [vm_compute; congruence|]).
  split; [unfold auctionSellerLeft; solve_reachable|].
  do 2 (split; [vm_compute; congruence|]).
  do 6 (split; [vm_compute; reflexivity|]).
  vm_compute; reflexivity.
Qed.

Lemma endAuction_effective_once_witness :
  reachable auctionOpen /\
  reachable auctionTwoBids /\
  (exists s' tr,
      run (endAuction (ctx buyer 4000) 0) auctionOpen = Ok (tt, s', tr)) /\
  (exists s' tr,
      run (endAuction (holding 1300 (ctx buyer 4000)) 0) auctionTwoBids
      = Ok (tt, s', tr) /\
      Auction.active (getAuction s' 0) = false /\
      run (endAuction (ctx bidderB 4001) 0) s'
      = Err (Revert "Auction not active")).
Proof.
  assert (Hr0 : reachable auctionOpen) by solve_reachable.
  assert (Hr2 : reachable auctionTwoBids) by solve_reachable.
  destruct endAuction_effective_once as (Hnobid & Hwinner & Honce & _).
  split; [exact Hr0|]. split; [exact Hr2|]. split.
  - exact (Hnobid (ctx buyer 4000) 0 auctionOpen Hr0
             ltac:(vm_compute; reflexivity) ltac:(vm_compute; congruence)
             ltac:(vm_compute; reflexivity)).
  - destruct (Hwinner (holding 1300 (ctx buyer 4000)) 0 auctionTwoBids Hr2
                ltac:(vm_compute; reflexivity) ltac:(vm_compute; congruence)
                ltac:(vm_compute; congruence) ltac:(vm_compute; congruence)
                ltac:(vm_compute; reflexivity) ltac:(vm_compute; congruence)
                ltac:(vm_compute; congruence)
                ltac:(intros _; reflexivity) ltac:(reflexivity)
                ltac:(reflexivity) ltac:(vm_compute; congruence)
                ltac:(vm_compute; reflexivity))
      as (s' & tr & H).
    exists s', tr. split; [exact H|].
    destruct (Honce _ _ _ _ _ H) as (_ & _ & _ & _ & Hinactive & Hagain).
    split; [exact Hinactive|]. apply Hagain.
Defined.

(** A bid of 600 in native currency on the token auction of item 1 is
    rejected, but not with the error of the unimplemented branch; the
    token auction itself was created without complaint. *)
Lemma token_bid_with_value_other_error :
  reachable tokenAuctionOpen /\
  Auction.active (getAuction tokenAuctionOpen 1) = true /\
  Auction.paymentToken (getAuction tokenAuctionOpen 1) = usdt /\
  run (placeBid (ctx bidderA 30) 600 1) tokenAuctionOpen
  = Err (Revert "ETH not accepted for ERC20 auction") /\
  exists tr,
    run (createAuction (ctx creator 20) 1 500 3600 usdt) tokenItemApproved
    = Ok (tt, tokenAuctionOpen, tr).
Proof.
  split; [solve_reachable|].
  do 3 (split; [vm_compute; reflexivity|]).
  destruct (run (createAuction (ctx creator 20) 1 500 3600 usdt)
              tokenItemApproved) as [[[[] s'] tr]|e] eqn:H;
    [|vm_compute in H; discriminate].
  exists tr. vm_compute in H. injection H as <- _.
  vm_compute. reflexivity.
Qed.

Lemma token_auction_bid_rejected_witness :
  reachable tokenAuctionOpen /\
  Auction.paymentToken (getAuction tokenAuctionOpen 1) = usdt /\
  run (placeBid (ctx bidderA 30) 0 1) tokenAuctionOpen
  = Err (Revert "ERC20 auctions not implemented in this version") /\
  run (placeBid (ctx bidderA 30) 600 1) tokenAuctionOpen
  = Err (Revert "ETH not accepted for ERC20 auction") /\
  transact (ctx bidderA 30) (PlaceBid 600 1) tokenAuctionOpen
  = tokenAuctionOpen /\
  exists s' tr,
    run (createAuction (ctx creator 20) 1 500 3600
           (usdtToken tokenItemApproved)) tokenItemApproved
    = Ok (tt, s', tr) /\
    Auction.active (getAuction s' 1) = true /\
    Auction.paymentToken (getAuction s' 1) = usdtToken tokenItemApproved.
Proof.
  assert (Hr : reachable tokenAuctionOpen) by solve_reachable.
  destruct token_auction_bid_rejected as (Hnever & Hbranch & Hcreate).
  split; [exact Hr|]. split; [vm_compute; reflexivity|].
  split; [|split; [|split]].
  - exact (Hbranch (ctx bidderA 30) 0 1
             tokenAuctionOpen Hr ltac:(reflexivity)
             ltac:(vm_compute; reflexivity) ltac:(vm_compute; reflexivity)
             ltac:(vm_compute; congruence) ltac:(vm_compute; congruence)).
  - exact (Hbranch (ctx bidderA 30) 600 1
             tokenAuctionOpen Hr ltac:(reflexivity)
             ltac:(vm_compute; reflexivity) ltac:(vm_compute; reflexivity)
             ltac:(vm_compute; congruence) ltac:(vm_compute; congruence)).
  - exact (proj2 (Hnever (ctx bidderA 30) 600 1
                    tokenAuctionOpen ltac:(vm_compute; congruence))).
  - destruct (Hcreate (ctx creator 20) 1 500 3600 tokenItemApproved
                ltac:(vm_compute; congruence) ltac:(vm_compute; reflexivity)
                ltac:(vm_compute; reflexivity) ltac:(vm_compute; reflexivity)
                ltac:(vm_compute; reflexivity) ltac:(vm_compute; congruence)
                ltac:(vm_compute; congruence) ltac:(vm_compute; reflexivity)
                ltac:(vm_compute; reflexivity) ltac:(vm_compute; congruence)
                ltac:(vm_compute; congruence))
      as (s' & tr & H & Ha & Hp & _).
    exists s', tr. split; [exact H|]. split; [exact Ha|exact Hp].
Defined.

(** After the seller moved the listed item to [buyer] in the registry,
    [buyer], who is not the listing's seller, cancels the listing, and the
    seller's own call fails with "Not token owner". *)
Lemma cancel_by_new_owner_not_seller :
  reachable listedThenMoved /\
  Listing.active (getListing listedThenMoved 0) = true /\
  Listing.seller (getListing listedThenMoved 0) = creator /\
  msg_sender (ctx buyer 40) <> Listing.seller (getListing listedThenMoved 0) /\
  run (cancelListing (ctx buyer 40) 0) listedThenMoved
  = Ok (tt, upd_listings (delete 0) listedThenMoved,
        [Emit (ListingCancelled 0 buyer)]) /\
  run (cancelListing (ctx creator 40) 0) listedThenMoved
  = Err (Revert "Not token owner").
Proof.
  split; [solve_reachable|].
  repeat split; try (vm_compute; congruence).
Qed.

Lemma cancelListing_by_current_owner_witness :
  _ownerOf listedNative 0 = creator /\
  run (cancelListing (ctx creator 40) 0) listedNative
  = Ok (tt, upd_listings (delete 0) listedNative,
        [Emit (ListingCancelled 0 creator)]) /\
  run (cancelListing (ctx buyer 40) 0) listedNative
  = Err (Revert "Not token owner") /\
  upd_listings (delete 0) listedNative = minted.
Proof.
  destruct cancelListing_by_current_owner as (Hother & _ & Hok & _ & Hround).
  split; [vm_compute; reflexivity|]. split; [|split].
  - exact (Hok (ctx creator 40) 0 listedNative
             ltac:(vm_compute; congruence) ltac:(vm_compute; reflexivity)
             ltac:(vm_compute; reflexivity)).
  - exact (Hother (ctx buyer 40) 0 listedNative
             ltac:(vm_compute; congruence) ltac:(vm_compute; congruence)).
  - destruct (run (listNFT (ctx creator 20) 0 1000 0) minted)
      as [[[[] s1] tr1]|e] eqn:H1; [|vm_compute in H1; discriminate].
    assert (Hs1 : s1 = listedNative).
    { unfold listedNative, transact. cbn [dispatch]. by rewrite H1. }
    subst s1.
    pose proof (Hok (ctx creator 40) 0 listedNative
                  ltac:(vm_compute; congruence) ltac:(vm_compute; reflexivity)
                  ltac:(vm_compute; reflexivity)) as H2.
    assert (Hnone : listings minted !! 0 = None) by (vm_compute; reflexivity).
    exact (proj1 (Hround (ctx creator 20) (ctx creator 40) 0 1000 0 minted
                    listedNative tr1 _ _ Hnone H1 H2)).
Defined.

Lemma pause_blocks_entry_not_exit_witness :
  reachable auctionPaused /\
  run (placeBid (ctx bidderA 30) 600 0) auctionPaused
  = Err (CustomError "EnforcedPause") /\
  transact (ctx creator 30) (ListNFT 0 1000 0) auctionPaused = auctionPaused /\
  run (endAuction (ctx buyer 4000) 0) (setPaused true auctionOpen)
  = mapResult (setPaused true) (run (endAuction (ctx buyer 4000) 0) auctionOpen).
Proof.
  assert (Hr : reachable auctionPaused) by solve_reachable.
  destruct pause_blocks_entry_not_exit as (Hblock & Herr & Hexit).
  split; [exact Hr|]. split; [|split].
  - exact (proj2 (Herr (ctx bidderA 30) auctionPaused Hr
                    ltac:(vm_compute; reflexivity)) 600 0).
  - exact (proj2 (proj1 (Hblock (ctx creator 30) auctionPaused
                           ltac:(vm_compute; reflexivity)) 0 1000 0)).
  - exact (proj1 (proj2 (Hexit true (ctx buyer 4000) auctionOpen)) 0).
Defined.

(** The listed item, and the item under auction, after the seller moved
    it to [buyer] in the registry: the record is still active and still
    names [creator] as seller, and the item is with [buyer]. *)
Lemma listed_item_leaves_seller :
  reachable listedThenMoved /\
  Listing.active (getListing listedThenMoved 0) = true /\
  Listing.seller (getListing listedThenMoved 0) = creator /\
  _ownerOf listedThenMoved 0 = buyer /\
  reachable auctionSellerLeft /\
  Auction.active (getAuction auctionSellerLeft 0) = true /\
  Auction.seller (getAuction auctionSellerLeft 0) = creator /\
  _ownerOf auctionSellerLeft 0 = buyer.
Proof.
  split; [solve_reachable|].
  do 3 (split; [vm_compute; reflexivity|]).
  split; [unfold auctionSellerLeft; solve_reachable|].
  do 2 (split; [vm_compute; reflexivity|]).
  vm_compute; reflexivity.
Qed.

Lemma creation_moves_nothing_witness :
  (exists s' tr,
      run (listNFT (ctx creator 20) 0 1000 0) minted = Ok (tt, s', tr) /\
      _owners s' = _owners minted /\
      _ownerOf s' 0 = creator /\
      pendingWithdrawals s' = pendingWithdrawals minted /\
      calls tr = []) /\
  (exists s' tr,
      run (createAuction (ctx creator 20) 0 500 3600 0) minted
      = Ok (tt, s', tr) /\
      _owners s' = _owners minted /\
      _ownerOf s' 0 = creator /\
      pendingWithdrawals s' = pendingWithdrawals minted /\
      calls tr = []) /\
  (exists s' tr,
      run (transferFrom (ctx creator 25) (msg_sender (ctx creator 25)) buyer 0)
        listedNative
      = Ok (tt, s', tr) /\
      _ownerOf s' 0 = buyer /\
      getListing s' 0 = getListing listedNative 0).
Proof.
  split; [|split].
  - destruct (run (listNFT (ctx creator 20) 0 1000 0) minted)
      as [[[[] s'] tr]|e] eqn:H; [|vm_compute in H; discriminate].
    exists s', tr. split; [reflexivity|].
    destruct (proj1 creation_moves_nothing _ _ _ _ _ _ _ H)
      as (_ & Ho & Hown & Hp & _ & _ & Hc).
    repeat split; assumption.
  - destruct (run (createAuction (ctx creator 20) 0 500 3600 0) minted)
      as [[[[] s'] tr]|e] eqn:H; [|vm_compute in H; discriminate].
    exists s', tr. split; [reflexivity|].
    destruct (proj1 (proj2 creation_moves_nothing) _ _ _ _ _ _ _ _ H)
      as (_ & Ho & Hown & Hp & _ & _ & Hc).
    repeat split; assumption.
  - destruct (proj2 (proj2 (proj2 (proj2 creation_moves_nothing)))
                (ctx creator 25) buyer 0 listedNative
                ltac:(vm_compute; reflexivity) ltac:(vm_compute; congruence)
                ltac:(vm_compute; congruence))
      as (s' & tr & H & Hown & Hl & _).
    exists s', tr. split; [exact H|]. split; [exact Hown|exact Hl].
Defined.

Lemma payment_token_fixed_at_listing_witness :
  exists s1 tr1 s2 tr2,
    run (setUSDTToken (ctx admin 25) 101) listedToken = Ok (tt, s1, tr1) /\
    usdtToken s1 = 101 /\
    run (buyNFT (ctx buyer 30) 0 0) s1 = Ok (tt, s2, tr2) /\
    calls tr2 = [Erc20TransferFrom usdt buyer marketplace 1000;
                 Erc20Transfer usdt creator 50;
                 Erc20Transfer usdt creator 925;
                 Erc20Transfer usdt admin 25].
Proof.
  destruct (run (setUSDTToken (ctx admin 25) 101) listedToken)
    as [[[[] s1] tr1]|e] eqn:H1; [|vm_compute in H1; discriminate].
  destruct (proj1 payment_token_fixed_at_listing _ _ _ _ _ H1)
    as (Hs1 & _).
  destruct (run (buyNFT (ctx buyer 30) 0 0) s1)
    as [[[[] s2] tr2]|e] eqn:H2;
    [|rewrite Hs1 in H2; vm_compute in H2; discriminate].
  exists s1, tr1, s2, tr2. split; [reflexivity|].
  split; [by rewrite Hs1|]. split; [exact H2|].
  destruct (proj2 (proj2 payment_token_fixed_at_listing) _ _ _ _ _ _ _ _ _ _
              H1 H2) as (_ & Hcalls & _).
  rewrite Hcalls. vm_compute. reflexivity.
Defined.

(** * Further properties of the contract *)

(** ** The fee ceiling *)

Lemma dispatch_marketplaceFee env m s s' tr :
  run (dispatch env m) s = Ok (tt, s', tr) ->
  marketplaceFee s' = marketplaceFee s \/
  (marketplaceFee s' <= MAX_MARKETPLACE_FEE /\
   m = SetMarketplaceFee (marketplaceFee s')).
Proof.
  intros H. destruct m; cbn [dispatch] in H.
  3: { unfold batchApproveNFTs in H. tx_unfold_in H. tx_case H.
       destruct (batchApproveNFTs_loop _ _ _ _) as [[[r s1] tr1]|] eqn:Hl;
         [|discriminate].
       apply batchApproveNFTs_loop_effect in Hl as [f ->]. tx_done H.
       by left. }
  all: unfold_ops H; tx_inv H; tx_done H; store_norm.
  all: try (by left).
  right. b2p. done.
Qed.

Lemma fee_share_bound p fee :
  fee <= 1000 -> p * fee / 10000 <= p / 10.
Proof.
  intros H.
  transitivity (p * 1000 / 10000).
  - apply N.Div0.div_le_mono. by apply N.mul_le_mono_l.
  - change 10000 with (10 * 1000). by rewrite N.Div0.div_mul_cancel_r.
Qed.

(** X1. In every reachable state the marketplace fee rate is at most the
    ceiling of 1000 basis points, so the fee on a sale at price [p] never
    exceeds a tenth of [p]; a call of [setMarketplaceFee] above the
    ceiling by the administrator reverts with "Fee too high" and leaves
    the storage as it was. *)
Theorem marketplaceFee_within_ceiling :
  (forall s,
      reachable s ->
      marketplaceFee s <= MAX_MARKETPLACE_FEE /\
      forall p, feeAmount s p <= p / 10) /\
  (forall env fee s,
      msg_sender env = _owner s ->
      MAX_MARKETPLACE_FEE < fee ->
      run (setMarketplaceFee env fee) s = Err (Revert "Fee too high") /\
      transact env (SetMarketplaceFee fee) s = s).
Proof.
  split.
  - intros s Hr.
    assert (Hb : marketplaceFee s <= MAX_MARKETPLACE_FEE).
    { induction Hr as [d u|s env m s' tr _ IH H]; [by cbv|].
      destruct (dispatch_marketplaceFee _ _ _ _ _ H) as [->|[Hle _]]; done. }
    split; [exact Hb|]. intros p. by apply fee_share_bound.
  - intros env fee s Hs Hf.
    assert (He : run (setMarketplaceFee env fee) s = Err (Revert "Fee too high")).
    { unfold setMarketplaceFee. tx_unfold. rewrite Hs, N.eqb_refl.
      cbn [negb]. cbv beta iota zeta. apply N.leb_gt in Hf. by rewrite Hf. }
    split; [exact He|]. unfold transact. cbn [dispatch]. by rewrite He.
Qed.

Lemma marketplaceFee_within_ceiling_witness :
  reachable feeAtCeiling /\
  marketplaceFee feeAtCeiling = 1000 /\
  feeAmount feeAtCeiling 999 <= 999 / 10 /\
  run (setMarketplaceFee (ctx admin 13) 1500) feeAtCeiling
  = Err (Revert "Fee too high").
Proof.
  assert (Hr : reachable feeAtCeiling)
    by (unfold feeAtCeiling; solve_reachable).
  destruct marketplaceFee_within_ceiling as (Hinv & Hhigh).
  split; [exact Hr|]. split; [vm_compute; reflexivity|]. split.
  - exact (proj2 (Hinv feeAtCeiling Hr) 999).
  - exact (proj1 (Hhigh (ctx admin 13) 1500 feeAtCeiling
                    ltac:(vm_compute; reflexivity)
                    ltac:(vm_compute; reflexivity))).
Defined.

(** ** How the tables evolve *)

Ltac batch_case H :=
  unfold batchApproveNFTs in H; tx_unfold_in H; tx_case H;
  let Hl := fresh "Hl" in
  destruct (batchApproveNFTs_loop _ _ _ _) as [[[? ?] ?]|] eqn:Hl;
    [|discriminate];
  apply batchApproveNFTs_loop_effect in Hl as [? ->]; tx_done H.

(** No call removes an item from the registry. *)
Lemma dispatch_exists env m s s' tr item :
  run (dispatch env m) s = Ok (tt, s', tr) ->
  _ownerOf s item <> 0 -> _ownerOf s' item <> 0.
Proof.
  intros H Hex. destruct m; cbn [dispatch] in H.
  3: { batch_case H. done. }
  all: unfold_ops H; tx_inv H; tx_done H; store_norm; try done.
  all: b2p.
  all: match goal with
       | |- context [<[?t := _]> _ !! ?i] =>
           destruct (decide (i = t)) as [->|Hne]; map_lookup;
           cbn [fromOption]; first [assumption | congruence]
       end.
Qed.

(** A stored listing was stored before the call, or has just been created
    by [listNFT] for the caller, who owns the item. *)
Lemma dispatch_listings env m s s' tr item l :
  run (dispatch env m) s = Ok (tt, s', tr) ->
  listings s' !! item = Some l ->
  listings s !! item = Some l \/
  (exists price tok,
      m = ListNFT item price tok /\
      l = Listing.mk item (msg_sender env) price tok true
            (block_timestamp env) /\
      0 < price /\
      _ownerOf s item = msg_sender env /\
      msg_sender env <> 0).
Proof.
  intros H Hl. destruct m; cbn [dispatch] in H.
  3: { batch_case H. by left. }
  all: unfold_ops H; tx_inv H; tx_done H; store_norm; try (by left).
  all: match type of Hl with
       | context [<[?t := _]> _ !! ?i] =>
           destruct (decide (i = t)) as [->|Hne]
       | context [delete ?t _ !! ?i] =>
           destruct (decide (i = t)) as [->|Hne]
       end.
  all: revert Hl; map_lookup; intros Hl; try discriminate; try (by left).
  right. injection Hl as <-. b2p. exists price, paymentToken.
  repeat split; try done; congruence.
Qed.

(** A stored auction was stored before the call, or has just been created
    by [createAuction] for the caller, who owns the item, or is the
    previous record with a new highest bid written by [placeBid]. *)
Lemma dispatch_auctions env m s s' tr item a' :
  run (dispatch env m) s = Ok (tt, s', tr) ->
  auctions s' !! item = Some a' ->
  auctions s !! item = Some a' \/
  (exists sp d tok,
      m = CreateAuction item sp d tok /\
      a' = Auction.mk item (msg_sender env) sp 0 0 tok
             (block_timestamp env + d) true (block_timestamp env) /\
      0 < sp /\ one_hour <= d /\ d <= seven_days /\
      block_timestamp env + d <= uint256_max /\
      _ownerOf s item = msg_sender env /\
      msg_sender env <> 0) \/
  (exists a v,
      m = PlaceBid v item /\
      auctions s !! item = Some a /\
      a' = Auction.set_bid v (msg_sender env) a /\
      Auction.active a = true /\
      block_timestamp env < Auction.endTime a /\
      msg_sender env <> Auction.seller a /\
      Auction.paymentToken a = 0 /\
      Auction.startingPrice a <= v /\
      Auction.currentBid a < v).
Proof.
  intros H Hl. destruct m; cbn [dispatch] in H.
  3: { batch_case H. by left. }
  all: unfold_ops H; tx_inv H; tx_done H; store_norm; try (by left).
  all: match type of Hl with
       | context [<[?t := _]> _ !! ?i] =>
           destruct (decide (i = t)) as [->|Hne]
       | context [delete ?t _ !! ?i] =>
           destruct (decide (i = t)) as [->|Hne]
       end.
  all: revert Hl; map_lookup; intros Hl; try discriminate; try (by left).
  - (* createAuction *)
    right; left. injection Hl as <-. b2p.
    exists startingPrice, duration, paymentToken.
    repeat split; try done; congruence.
  - (* placeBid, previous bidder credited *)
    right; right. injection Hl as <-.
    destruct (auctions s !! _) as [a|] eqn:Ha; [|discriminate].
    cbn [fromOption] in *. b2p. exists a, msg_value.
    repeat split; try done; congruence.
  - (* placeBid, first bid *)
    right; right. injection Hl as <-.
    destruct (auctions s !! _) as [a|] eqn:Ha; [|discriminate].
    cbn [fromOption] in *. b2p. exists a, msg_value.
    repeat split; try done; congruence.
Qed.

(** ** Invariants of the stored records *)

(** X2. In every reachable state each stored listing is well formed: it
    is active (a cancelled or sold listing is deleted, never kept
    inactive), filed under its own item id, priced above zero, names a
    non-zero seller, and its item exists in the registry. *)
Theorem stored_listings_well_formed s :
  reachable s ->
  forall tokenId l,
    listings s !! tokenId = Some l -> listingWellFormed s tokenId l.
Proof.
  induction 1 as [d u|s env m s' tr _ IH H]; intros tokenId l Hl.
  - by cbn in Hl.
  - destruct (dispatch_listings _ _ _ _ _ _ _ H Hl)
      as [Hold|(price & tok & -> & -> & Hp & Ho & Hs)].
    + destruct (IH _ _ Hold) as (? & ? & ? & ? & Hex).
      repeat split; try done. by apply (dispatch_exists _ _ _ _ _ _ H).
    + repeat split; try done. cbn.
      apply (dispatch_exists _ _ _ _ _ _ H). congruence.
Qed.

Lemma stored_listings_well_formed_witness :
  reachable listedNative /\
  listingWellFormed listedNative 0 (getListing listedNative 0).
Proof.
  assert (Hr : reachable listedNative) by solve_reachable.
  split; [exact Hr|].
  exact (stored_listings_well_formed listedNative Hr 0
           (getListing listedNative 0) ltac:(vm_compute; reflexivity)).
Defined.

(** X3. In every reachable state each stored auction is well formed: it
    is active, filed under its own item id, has a positive starting price
    and a non-zero seller who is not the highest bidder, ends between one
    hour and seven days after its creation, carries a bid only if it is a
    native-currency auction and the bid reaches the starting price, and
    its item exists in the registry. *)
Theorem stored_auctions_well_formed s :
  reachable s ->
  forall tokenId a,
    auctions s !! tokenId = Some a -> auctionWellFormed s tokenId a.
Proof.
  induction 1 as [d u|s env m s' tr _ IH H]; intros tokenId a' Hl.
  - by cbn in Hl.
  - destruct (dispatch_auctions _ _ _ _ _ _ _ H Hl)
      as [Hold|[(sp & d & tok & -> & -> & Hsp & Hd1 & Hd2 & Hfit & Ho & Hs)
               |(a & v & -> & Hold & -> & Ha & Ht & Hsel & Htok & Hv1 & Hv2)]].
    + destruct (IH _ _ Hold) as (? & ? & ? & ? & ? & ? & ? & ? & ? & ? & Hex).
      repeat split; try done. by apply (dispatch_exists _ _ _ _ _ _ H).
    + unfold auctionWellFormed. cbn.
      repeat split; try done; try lia; try congruence.
      all: try (by left).
      all: apply (dispatch_exists _ _ _ _ _ _ H); congruence.
    + destruct (IH _ _ Hold) as (? & ? & ? & ? & ? & ? & ? & ? & ? & ? & Hex).
      unfold auctionWellFormed. cbn.
      repeat split; try done; try lia.
      all: try (by right).
      all: by apply (dispatch_exists _ _ _ _ _ _ H).
Qed.

Lemma stored_auctions_well_formed_witness :
  reachable auctionTwoBids /\
  auctionWellFormed auctionTwoBids 0 (getAuction auctionTwoBids 0).
Proof.
  assert (Hr : reachable auctionTwoBids) by solve_reachable.
  split; [exact Hr|].
  exact (stored_auctions_well_formed auctionTwoBids Hr 0
           (getAuction auctionTwoBids 0) ltac:(vm_compute; reflexivity)).
Defined.

(** ** Administrator approval *)

Lemma approveAll_lookup tokenIds approved (m : gmap N bool) (tokenId : N) :
  approveAll tokenIds approved m !! tokenId =
  if bool_decide (tokenId ∈ tokenIds) then Some approved else m !! tokenId.
Proof.
  revert m. induction tokenIds as [|t rest IH]; intros m; [done|].
  change (approveAll (t :: rest) approved m)
    with (approveAll rest approved (<[t := approved]> m)).
  rewrite IH. destruct (decide (tokenId = t)) as [->|Hne].
  - rewrite lookup_insert_eq. rewrite (bool_decide_eq_true_2 (t ∈ t :: rest));
      [by case_bool_decide|by apply elem_of_cons; left].
  - rewrite lookup_insert_ne by done.
    destruct (decide (tokenId ∈ rest)).
    + rewrite !bool_decide_eq_true_2; [done|by apply elem_of_cons; right|done].
    + rewrite !bool_decide_eq_false_2; [done| |done].
      intros [?|?]%elem_of_cons; done.
Qed.

Lemma batchApproveNFTs_loop_run tokenIds approved s tr :
  batchApproveNFTs_loop tokenIds approved s tr =
  if forallb (fun tokenId => negb (_ownerOf s tokenId =? 0)) tokenIds
  then Ok (tt, upd_approvedNFTs (approveAll tokenIds approved) s,
           tr ++ map (fun tokenId => Emit (NFTApproved tokenId approved)) tokenIds)
  else Err (Revert "Token does not exist").
Proof.
  revert s tr. induction tokenIds as [|t rest IH]; intros s tr.
  - cbn. rewrite app_nil_r. by destruct s.
  - cbn [batchApproveNFTs_loop forallb]. unfold approveNFT_body. tx_unfold.
    destruct (negb (_ownerOf s t =? 0)); cbn [andb]; cbv beta iota zeta;
      [|done].
    rewrite IH.
    change (forallb _ rest)
      with (forallb (fun tokenId => negb (_ownerOf s tokenId =? 0)) rest).
    destruct (forallb _ rest); [|done].
    by rewrite <- app_assoc.
Qed.

(** X4. [batchApproveNFTs] is all or nothing and, when it succeeds, is the
    same as approving its items one by one.  Called by the administrator
    with items that all exist, it writes the flag of each listed item and
    of no other item; if one item does not exist it reverts with "Token
    does not exist" and no flag is written, not even for the items before
    it; another caller is rejected. *)
Theorem batchApproveNFTs_all_or_nothing :
  (forall env tokenIds approved s,
      msg_sender env = _owner s ->
      Forall (fun tokenId => _ownerOf s tokenId <> 0) tokenIds ->
      run (batchApproveNFTs env tokenIds approved) s =
      Ok (tt, upd_approvedNFTs (approveAll tokenIds approved) s,
          map (fun tokenId => Emit (NFTApproved tokenId approved)) tokenIds) /\
      (forall tokenId,
          isTokenApproved
            (transact env (BatchApproveNFTs tokenIds approved) s) tokenId =
          if bool_decide (tokenId ∈ tokenIds) then approved
          else isTokenApproved s tokenId) /\
      transact env (BatchApproveNFTs tokenIds approved) s =
      transactAll (map (fun tokenId => (env, ApproveNFT tokenId approved))
                     tokenIds) s) /\
  (forall env tokenIds approved s,
      msg_sender env = _owner s ->
      Exists (fun tokenId => _ownerOf s tokenId = 0) tokenIds ->
      run (batchApproveNFTs env tokenIds approved) s =
      Err (Revert "Token does not exist") /\
      transact env (BatchApproveNFTs tokenIds approved) s = s) /\
  (forall env tokenIds approved s,
      msg_sender env <> _owner s ->
      run (batchApproveNFTs env tokenIds approved) s =
      Err (CustomError "OwnableUnauthorizedAccount")).
Proof.
  assert (Hbatch : forall env tokenIds approved s,
             msg_sender env = _owner s ->
             run (batchApproveNFTs env tokenIds approved) s =
             batchApproveNFTs_loop tokenIds approved s []).
  { intros env tokenIds approved s Hs. unfold batchApproveNFTs. tx_unfold.
    by rewrite Hs, N.eqb_refl. }
  assert (Hall : forall tokenIds s,
             Forall (fun tokenId => _ownerOf s tokenId <> 0) tokenIds ->
             forallb (fun tokenId => negb (_ownerOf s tokenId =? 0)) tokenIds
             = true).
  { intros tokenIds s HF. apply forallb_forall. intros t Ht.
    rewrite Forall_forall in HF. apply negb_true_iff, N.eqb_neq, HF.
    by apply list_elem_of_In. }
  split; [|split].
  - intros env tokenIds approved s Hs HF.
    assert (Hrun : run (batchApproveNFTs env tokenIds approved) s =
                   Ok (tt, upd_approvedNFTs (approveAll tokenIds approved) s,
                       map (fun tokenId => Emit (NFTApproved tokenId approved))
                         tokenIds)).
    { rewrite Hbatch by done. rewrite batchApproveNFTs_loop_run.
      by rewrite Hall. }
    assert (Htx : transact env (BatchApproveNFTs tokenIds approved) s =
                  upd_approvedNFTs (approveAll tokenIds approved) s).
    { unfold transact. cbn [dispatch]. by rewrite Hrun. }
    split; [exact Hrun|]. split.
    + intros tokenId. rewrite Htx. unfold isTokenApproved.
      cbn [approvedNFTs upd_approvedNFTs]. rewrite approveAll_lookup.
      by case_bool_decide.
    + rewrite Htx. clear Hrun Htx. revert s Hs HF.
      induction tokenIds as [|t rest IH]; intros s Hs HF.
      * by destruct s.
      * apply Forall_cons in HF as [Ht HF]. cbn [map transactAll foldl fst snd].
        assert (Hone : transact env (ApproveNFT t approved) s =
                       upd_approvedNFTs (<[t := approved]>) s).
        { unfold transact. cbn [dispatch]. unfold approveNFT, approveNFT_body.
          tx_unfold. rewrite Hs, N.eqb_refl. cbn [negb]. cbv beta iota zeta.
          apply N.eqb_neq in Ht. by rewrite Ht. }
        rewrite Hone.
        change (foldl _ ?x ?l) with (transactAll l x).
        rewrite <- IH; [done|done|exact HF].
  - intros env tokenIds approved s Hs HE.
    assert (Hrun : run (batchApproveNFTs env tokenIds approved) s =
                   Err (Revert "Token does not exist")).
    { rewrite Hbatch by done. rewrite batchApproveNFTs_loop_run.
      destruct (forallb _ tokenIds) eqn:Hf; [exfalso|done].
      rewrite forallb_forall in Hf. apply Exists_exists in HE as (t & Ht & H0).
      apply list_elem_of_In, Hf, negb_true_iff, N.eqb_neq in Ht. done. }
    split; [exact Hrun|]. unfold transact. cbn [dispatch]. by rewrite Hrun.
  - intros env tokenIds approved s Hs. unfold batchApproveNFTs. tx_unfold.
    apply N.eqb_neq in Hs. rewrite N.eqb_sym in Hs. by rewrite Hs.
Qed.

Lemma batchApproveNFTs_all_or_nothing_witness :
  isTokenApproved (transact (ctx admin 14) (BatchApproveNFTs [0; 1] true)
                     mintedSecond) 1 = true /\
  transact (ctx admin 14) (BatchApproveNFTs [0; 1] true) mintedSecond =
  transactAll [(ctx admin 14, ApproveNFT 0 true);
               (ctx admin 14, ApproveNFT 1 true)] mintedSecond /\
  run (batchApproveNFTs (ctx admin 14) [1; 7] true) mintedSecond
  = Err (Revert "Token does not exist") /\
  transact (ctx admin 14) (BatchApproveNFTs [1; 7] true) mintedSecond
  = mintedSecond.
Proof.
  destruct batchApproveNFTs_all_or_nothing as (Hok & Hfail & _).
  destruct (Hok (ctx admin 14) [0; 1] true mintedSecond
              ltac:(vm_compute; reflexivity)
              ltac:(repeat constructor; vm_compute; congruence))
    as (_ & Hflag & Hseq).
  destruct (Hfail (ctx admin 14) [1; 7] true mintedSecond
              ltac:(vm_compute; reflexivity)
              ltac:(apply Exists_cons_tl, Exists_cons_hd; vm_compute;
                    reflexivity))
    as (Herr & Hsame).
  split; [exact (Hflag 1)|]. split; [exact Hseq|]. split; [exact Herr|exact Hsame].
Defined.

Lemma dispatch_approved env m s s' tr item :
  run (dispatch env m) s = Ok (tt, s', tr) ->
  isTokenApproved s' item = true ->
  isTokenApproved s item = true \/ _ownerOf s item <> 0.
Proof.
  intros H Ha. destruct m; cbn [dispatch] in H.
  3: { unfold batchApproveNFTs in H. tx_unfold_in H. tx_case H.
       rewrite batchApproveNFTs_loop_run in H.
       destruct (forallb _ tokenIds) eqn:Hf; [|discriminate]. tx_done H.
       unfold isTokenApproved in Ha. cbn [approvedNFTs upd_approvedNFTs] in Ha.
       rewrite approveAll_lookup in Ha. case_bool_decide as Hin; [right|by left].
       rewrite forallb_forall in Hf.
       apply list_elem_of_In, Hf, negb_true_iff, N.eqb_neq in Hin. done. }
  all: unfold_ops H; tx_inv H; tx_done H; store_norm; try (by left).
  revert Ha. destruct (decide (item = tokenId)) as [->|Hne]; map_lookup.
  - intros _. right. b2p. done.
  - intros Ha. by left.
Qed.

Lemma reachable_approved_exists s item :
  reachable s -> isTokenApproved s item = true -> _ownerOf s item <> 0.
Proof.
  induction 1 as [d u|s env m s' tr _ IH H]; intros Ha; [done|].
  apply (dispatch_exists _ _ _ _ _ _ H).
  destruct (dispatch_approved _ _ _ _ _ _ H Ha) as [?|?]; auto.
Qed.

(** A mint around its receiver hook: the hook is handed the storage with
    the counter advanced and the item assigned, and the URI and the
    royalty are written over what the hook leaves. *)
Lemma mintNFT_hook env to uri rr fee callbacks s tokenId s' tr :
  run (mintNFT env to uri rr fee callbacks) s = Ok (tokenId, s', tr) ->
  let atHook :=
    upd_owners (<[_tokenIdCounter s := to]>)
      (upd_tokenIdCounter (fun c => (c + 1) mod 2 ^ 256) s) in
  tokenId = _tokenIdCounter s /\
  to <> 0 /\
  _ownerOf s tokenId = 0 /\
  (rr <> 0 -> 0 < fee -> fee <= _feeDenominator) /\
  exists afterHook,
    (if has_code env to
     then erc721_receiver_ok env to tokenId = true /\
          exists tr1,
            callbacks atHook [Call (OnERC721Received to tokenId) atHook]
            = Ok (tt, afterHook, tr1)
     else afterHook = atHook) /\
    s' = (if negb (rr =? 0) && (0 <? fee)
          then upd_tokenRoyaltyInfo (<[tokenId := (rr, fee)]>)
                 (upd_tokenURIs (<[tokenId := uri]>) afterHook)
          else upd_tokenURIs (<[tokenId := uri]>) afterHook).
Proof.
  intros H atHook. subst atHook. unfold mintNFT in H.
  tx_inv H; tx_done H; store_norm.
  all: try discriminate.
  all: repeat match goal with
         | u : unit |- _ => destruct u
         end.
  all: b2p.
  all: split; [done|]; split; [done|]; split; [done|]; split;
    [intros Hrr Hfee; apply N.eqb_neq in Hrr; apply N.ltb_lt in Hfee;
     first [lia
           | match goal with
             | H : negb _ && _ = false |- _ =>
                 rewrite Hrr, Hfee in H; discriminate
             end]|].
  all: eexists; split; [first [reflexivity | split; [done|]; by eexists]|].
  all: reflexivity.
Qed.

Lemma mintNFT_effect env to uri rr fee callbacks s tokenId s' tr :
  has_code env to = false \/ callbacks = ret tt ->
  run (mintNFT env to uri rr fee callbacks) s = Ok (tokenId, s', tr) ->
  tokenId = _tokenIdCounter s /\
  _tokenIdCounter s' = (tokenId + 1) mod 2 ^ 256 /\
  to <> 0 /\
  _ownerOf s tokenId = 0 /\
  _ownerOf s' tokenId = to /\
  (forall other, other <> tokenId -> _ownerOf s' other = _ownerOf s other) /\
  _tokenURIs s' !! tokenId = Some uri /\
  _tokenRoyaltyInfo s' =
    (if negb (rr =? 0) && (0 <? fee)
     then <[tokenId := (rr, fee)]> (_tokenRoyaltyInfo s)
     else _tokenRoyaltyInfo s) /\
  (rr <> 0 -> 0 < fee -> fee <= _feeDenominator) /\
  listings s' = listings s /\
  auctions s' = auctions s /\
  pendingWithdrawals s' = pendingWithdrawals s /\
  approvedNFTs s' = approvedNFTs s /\
  marketplaceFee s' = marketplaceFee s /\
  calls tr = if has_code env to then [OnERC721Received to tokenId] else [].
Proof.
  intros Hcb H.
  destruct (mintNFT_hook _ _ _ _ _ _ _ _ _ _ H)
    as (-> & Hto & Hfresh & Hfee & s1 & Hhook & ->).
  assert (Hs1 : s1 = upd_owners (<[_tokenIdCounter s := to]>)
                       (upd_tokenIdCounter (fun c => (c + 1) mod 2 ^ 256) s)).
  { destruct Hcb as [Hc| ->].
    - by rewrite Hc in Hhook.
    - destruct (has_code env to); [|done].
      destruct Hhook as (_ & tr1 & Hrun). unfold ret in Hrun.
      by injection Hrun. }
  subst s1. clear Hhook.
  assert (Hcalls :
            calls tr = if has_code env to
                       then [OnERC721Received to (_tokenIdCounter s)] else []).
  { unfold mintNFT in H.
    destruct Hcb as [Hc| ->]; tx_unfold_in H; rewrite ?Hc in H |- *;
      repeat tx_case H; try discriminate; tx_done H; reflexivity. }
  destruct (negb (rr =? 0) && (0 <? fee)); store_norm; map_lookup;
    cbn [fromOption].
  all: repeat split; try done.
  all: intros other Hne; by rewrite lookup_insert_ne.
Qed.

(** X5. In every reachable state an item flagged as approved for the
    marketplace exists in the registry: the flag is only ever written for
    existing items and no call removes an item. *)
Theorem approved_items_exist s tokenId :
  reachable s ->
  isTokenApproved s tokenId = true ->
  _ownerOf s tokenId <> 0.
Proof. apply reachable_approved_exists. Qed.

Lemma approved_items_exist_witness :
  reachable minted /\ isTokenApproved minted 0 = true /\ _ownerOf minted 0 <> 0.
Proof.
  assert (Hr : reachable minted) by solve_reachable.
  assert (Ha : isTokenApproved minted 0 = true) by (vm_compute; reflexivity).
  split; [exact Hr|]. split; [exact Ha|].
  exact (approved_items_exist minted 0 Hr Ha).
Defined.



(** ** When a listing or an auction can be created *)

(** X7. [listNFT] succeeds exactly when the caller owns the (existing)
    item, the item is approved, the marketplace is not paused, the price
    is positive, the currency is native or the accepted token, and the
    item has neither an active listing nor an active auction.  For the
    owner of an approved item on an unpaused marketplace the checks fail
    in this order: "Price must be greater than 0", "Invalid payment
    token", "Already listed", "Token in auction". *)
Theorem listNFT_succeeds_iff :
  (forall env tokenId price tok s,
      (exists s' tr, run (listNFT env tokenId price tok) s = Ok (tt, s', tr)) <->
      (_ownerOf s tokenId <> 0 /\
       _ownerOf s tokenId = msg_sender env /\
       isTokenApproved s tokenId = true /\
       _paused s = false /\
       0 < price /\
       (tok = 0 \/ tok = usdtToken s) /\
       Listing.active (getListing s tokenId) = false /\
       Auction.active (getAuction s tokenId) = false)) /\
  (forall env tokenId price tok s,
      _ownerOf s tokenId <> 0 ->
      _ownerOf s tokenId = msg_sender env ->
      isTokenApproved s tokenId = true ->
      _paused s = false ->
      run (listNFT env tokenId price tok) s =
      if price =? 0 then Err (Revert "Price must be greater than 0")
      else if negb ((tok =? 0) || (tok =? usdtToken s))
      then Err (Revert "Invalid payment token")
      else if Listing.active (getListing s tokenId)
      then Err (Revert "Already listed")
      else if Auction.active (getAuction s tokenId)
      then Err (Revert "Token in auction")
      else Ok (tt,
               upd_listings
                 (<[tokenId := Listing.mk tokenId (msg_sender env) price tok
                                 true (block_timestamp env)]>) s,
               [Emit (NFTListed tokenId (msg_sender env) price tok)])).
Proof.
  assert (Hrun : forall env tokenId price tok s,
      _ownerOf s tokenId <> 0 ->
      _ownerOf s tokenId = msg_sender env ->
      isTokenApproved s tokenId = true ->
      _paused s = false ->
      run (listNFT env tokenId price tok) s =
      if price =? 0 then Err (Revert "Price must be greater than 0")
      else if negb ((tok =? 0) || (tok =? usdtToken s))
      then Err (Revert "Invalid payment token")
      else if Listing.active (getListing s tokenId)
      then Err (Revert "Already listed")
      else if Auction.active (getAuction s tokenId)
      then Err (Revert "Token in auction")
      else Ok (tt,
               upd_listings
                 (<[tokenId := Listing.mk tokenId (msg_sender env) price tok
                                 true (block_timestamp env)]>) s,
               [Emit (NFTListed tokenId (msg_sender env) price tok)])).
  { intros env tokenId price tok s Hex Hown Happ Hp.
    unfold listNFT. tx_unfold. store_norm.
    apply N.eqb_neq in Hex. rewrite Hex. cbv beta iota zeta.
    rewrite Hown, N.eqb_refl. cbv beta iota zeta.
    rewrite Happ. cbv beta iota zeta. rewrite Hp. cbv beta iota zeta.
    destruct (N.eqb_spec price 0) as [->|Hne].
    - reflexivity.
    - assert (Hpos : (0 <? price) = true) by (apply N.ltb_lt; lia).
      rewrite Hpos. cbv beta iota zeta.
      destruct ((tok =? 0) || (tok =? usdtToken s)); cbn [negb];
        cbv beta iota zeta; [|done].
      destruct (Listing.active _); cbn [negb]; cbv beta iota zeta; [done|].
      destruct (Auction.active _); cbn [negb]; cbv beta iota zeta; done. }
  split; [|exact Hrun].
  intros env tokenId price tok s. split.
  - intros (s' & tr & H). unfold listNFT in H. tx_inv H. store_norm. b2p.
    repeat split; try done; try congruence.
    all: match goal with
         | H : (_ || _) = true |- _ =>
             apply orb_true_iff in H as [H|H]; apply N.eqb_eq in H; auto
         end.
  - intros (Hex & Hown & Happ & Hp & Hprice & Htok & Hl & Ha).
    rewrite (Hrun _ _ _ _ _ Hex Hown Happ Hp).
    assert (H0 : (price =? 0) = false) by (apply N.eqb_neq; lia).
    rewrite H0.
    assert (Ht : (tok =? 0) || (tok =? usdtToken s) = true).
    { apply orb_true_iff. destruct Htok as [->| ->]; rewrite N.eqb_refl; auto. }
    rewrite Ht, Hl, Ha. cbn [negb]. eauto.
Qed.

Lemma listNFT_succeeds_iff_witness :
  (exists s' tr,
      run (listNFT (ctx creator 20) 0 1000 usdt) minted = Ok (tt, s', tr)) /\
  run (listNFT (ctx creator 20) 0 0 0) minted
  = Err (Revert "Price must be greater than 0") /\
  run (listNFT (ctx creator 20) 0 1000 77) minted
  = Err (Revert "Invalid payment token") /\
  run (listNFT (ctx creator 21) 0 1000 0) listedNative
  = Err (Revert "Already listed").
Proof.
  destruct listNFT_succeeds_iff as (Hiff & Hrun).
  split; [|split; [|split]].
  - apply Hiff. repeat split; try (vm_compute; congruence). by right.
  - exact (Hrun (ctx creator 20) 0 0 0 minted
             ltac:(vm_compute; congruence) ltac:(vm_compute; reflexivity)
             ltac:(vm_compute; reflexivity) ltac:(vm_compute; reflexivity)).
  - exact (Hrun (ctx creator 20) 0 1000 77 minted
             ltac:(vm_compute; congruence) ltac:(vm_compute; reflexivity)
             ltac:(vm_compute; reflexivity) ltac:(vm_compute; reflexivity)).
  - exact (Hrun (ctx creator 21) 0 1000 0 listedNative
             ltac:(vm_compute; congruence) ltac:(vm_compute; reflexivity)
             ltac:(vm_compute; reflexivity) ltac:(vm_compute; reflexivity)).
Defined.

(** X8. [createAuction] succeeds exactly when the caller owns the item,
    the item is approved, the marketplace is not paused, the starting
    price is positive, the duration lies between one hour and seven days
    (bounds included), the currency is native or the accepted token, the
    item has neither an active listing nor an active auction, and the end
    time [now + duration] fits in [uint256].  A duration outside the
    bounds is rejected with "Invalid duration"; the stored end time is
    [now + duration]. *)
Theorem createAuction_succeeds_iff :
  (forall env tokenId sp d tok s,
      (exists s' tr,
          run (createAuction env tokenId sp d tok) s = Ok (tt, s', tr)) <->
      (_ownerOf s tokenId <> 0 /\
       _ownerOf s tokenId = msg_sender env /\
       isTokenApproved s tokenId = true /\
       _paused s = false /\
       0 < sp /\
       one_hour <= d /\ d <= seven_days /\
       (tok = 0 \/ tok = usdtToken s) /\
       Listing.active (getListing s tokenId) = false /\
       Auction.active (getAuction s tokenId) = false /\
       block_timestamp env + d <= uint256_max)) /\
  (forall env tokenId sp d tok s,
      _ownerOf s tokenId <> 0 ->
      _ownerOf s tokenId = msg_sender env ->
      isTokenApproved s tokenId = true ->
      _paused s = false ->
      0 < sp ->
      d < one_hour \/ seven_days < d ->
      run (createAuction env tokenId sp d tok) s
      = Err (Revert "Invalid duration")) /\
  (forall env tokenId sp d tok s s' tr,
      run (createAuction env tokenId sp d tok) s = Ok (tt, s', tr) ->
      Auction.endTime (getAuction s' tokenId) = block_timestamp env + d /\
      Auction.currentBid (getAuction s' tokenId) = 0 /\
      Auction.currentBidder (getAuction s' tokenId) = 0).
Proof.
  split; [|split].
  - intros env tokenId sp d tok s. split.
    + intros (s' & tr & H). unfold createAuction in H. tx_inv H.
      store_norm. b2p. repeat split; try done; try congruence.
      all: match goal with
           | H : (_ || _) = true |- _ =>
               apply orb_true_iff in H as [H|H]; apply N.eqb_eq in H; auto
           end.
    + intros (Hex & Hown & Happ & Hp & Hsp & Hd1 & Hd2 & Htok & Hl & Ha & Hfit).
      unfold createAuction. tx_unfold. store_norm.
      apply N.eqb_neq in Hex. rewrite Hex. cbv beta iota zeta.
      rewrite Hown, N.eqb_refl. cbv beta iota zeta.
      rewrite Happ. cbv beta iota zeta. rewrite Hp. cbv beta iota zeta.
      apply N.ltb_lt in Hsp. rewrite Hsp. cbv beta iota zeta.
      apply N.leb_le in Hd1, Hd2. rewrite Hd1, Hd2. cbn [andb].
      cbv beta iota zeta.
      assert (Ht : (tok =? 0) || (tok =? usdtToken s) = true).
      { apply orb_true_iff. destruct Htok as [->| ->]; rewrite N.eqb_refl; auto. }
      rewrite Ht, Hl, Ha. cbn [negb]. cbv beta iota zeta.
      apply N.leb_le in Hfit. rewrite Hfit. cbv beta iota zeta. eauto.
  - intros env tokenId sp d tok s Hex Hown Happ Hp Hsp Hd.
    unfold createAuction. tx_unfold. store_norm.
    apply N.eqb_neq in Hex. rewrite Hex. cbv beta iota zeta.
    rewrite Hown, N.eqb_refl. cbv beta iota zeta.
    rewrite Happ. cbv beta iota zeta. rewrite Hp. cbv beta iota zeta.
    apply N.ltb_lt in Hsp. rewrite Hsp. cbv beta iota zeta.
    assert (Hb : (one_hour <=? d) && (d <=? seven_days) = false).
    { apply andb_false_iff. destruct Hd as [Hd|Hd];
        [left; by apply N.leb_gt|right; by apply N.leb_gt]. }
    by rewrite Hb.
  - intros env tokenId sp d tok s s' tr H. unfold createAuction in H.
    tx_inv H; tx_done H. store_norm. by rewrite lookup_insert_eq.
Qed.

Lemma createAuction_succeeds_iff_witness :
  (exists s' tr,
      run (createAuction (ctx creator 20) 0 500 one_hour 0) minted
      = Ok (tt, s', tr)) /\
  (exists s' tr,
      run (createAuction (ctx creator 20) 0 500 seven_days 0) minted
      = Ok (tt, s', tr)) /\
  run (createAuction (ctx creator 20) 0 500 3599 0) minted
  = Err (Revert "Invalid duration") /\
  run (createAuction (ctx creator 20) 0 500 604801 0) minted
  = Err (Revert "Invalid duration").
Proof.
  destruct createAuction_succeeds_iff as (Hiff & Hdur & _).
  split; [|split; [|split]].
  - apply Hiff. repeat split; try (vm_compute; congruence). by left.
  - apply Hiff. repeat split; try (vm_compute; congruence). by left.
  - apply (Hdur (ctx creator 20) 0 500 3599 0 minted);
      try (vm_compute; congruence). left. vm_compute. reflexivity.
  - apply (Hdur (ctx creator 20) 0 500 604801 0 minted);
      try (vm_compute; congruence). right. vm_compute. reflexivity.
Defined.

(** ** Outcome of a purchase *)

Lemma buyNFT_effect env v tokenId s s' tr :
  run (buyNFT env v tokenId) s = Ok (tt, s', tr) ->
  let l := getListing s tokenId in
  _paused s = false /\
  Listing.active l = true /\
  msg_sender env <> Listing.seller l /\
  msg_sender env <> 0 /\
  _ownerOf s tokenId = Listing.seller l /\
  _ownerOf s' tokenId = msg_sender env /\
  (forall other, other <> tokenId -> _ownerOf s' other = _ownerOf s other) /\
  listings s' = delete tokenId (listings s) /\
  _tokenApprovals s' = delete tokenId (_tokenApprovals s) /\
  auctions s' = auctions s /\
  pendingWithdrawals s' = pendingWithdrawals s /\
  (if Listing.paymentToken l =? 0 then Listing.price l <= v else v = 0) /\
  last tr = Some (Emit (NFTSold tokenId (Listing.seller l) (msg_sender env)
                          (Listing.price l) (Listing.paymentToken l))).
Proof.
  intros H l. subst l. unfold buyNFT in H. tx_inv H; tx_done H; store_norm.
  all: try discriminate.
  all: repeat match goal with
         | H : ?c = _ |- context [if ?c then _ else _] => rewrite H
         end.
  all: b2p; map_lookup; cbn [fromOption].
  all: repeat split; try done; try congruence.
  all: intros other Hne; by rewrite lookup_insert_ne.
Qed.

(** X9. A successful [buyNFT] hands the item over: the listing was active,
    the buyer is not the seller, the seller still owned the item, the
    buyer is its owner afterwards, the listing is deleted and the item's
    transfer approval is cleared; no other item changes owner, and
    auctions and pending balances are untouched.  The native price is
    covered by the value sent, and a token purchase carries no native
    value.  Consequently a listing whose seller no longer owns the item
    cannot be bought. *)
Theorem buyNFT_hands_over_item :
  (forall env v tokenId s s' tr,
      run (buyNFT env v tokenId) s = Ok (tt, s', tr) ->
      let l := getListing s tokenId in
      _paused s = false /\
      Listing.active l = true /\
      msg_sender env <> Listing.seller l /\
      _ownerOf s tokenId = Listing.seller l /\
      _ownerOf s' tokenId = msg_sender env /\
      (forall other, other <> tokenId -> _ownerOf s' other = _ownerOf s other) /\
      getListing s' tokenId = Listing.zero /\
      listings s' = delete tokenId (listings s) /\
      _getApproved s' tokenId = 0 /\
      auctions s' = auctions s /\
      pendingWithdrawals s' = pendingWithdrawals s /\
      (if Listing.paymentToken l =? 0 then Listing.price l <= v else v = 0) /\
      last tr = Some (Emit (NFTSold tokenId (Listing.seller l) (msg_sender env)
                              (Listing.price l) (Listing.paymentToken l)))) /\
  (forall env v tokenId s,
      _ownerOf s tokenId <> Listing.seller (getListing s tokenId) ->
      exists e, run (buyNFT env v tokenId) s = Err e).
Proof.
  split.
  - intros env v tokenId s s' tr H l.
    destruct (buyNFT_effect _ _ _ _ _ _ H)
      as (? & ? & ? & ? & ? & ? & ? & Hl & Happr & ? & ? & ? & ?).
    repeat split; try done.
    + unfold getListing. by rewrite Hl, lookup_delete_eq.
    + unfold _getApproved. by rewrite Happr, lookup_delete_eq.
  - intros env v tokenId s Hne.
    destruct (run (buyNFT env v tokenId) s) as [[[[] s'] tr]|e] eqn:H;
      [exfalso|by exists e].
    destruct (buyNFT_effect _ _ _ _ _ _ H) as (_ & _ & _ & _ & Ho & _). done.
Qed.

Lemma buyNFT_hands_over_item_witness :
  (exists s' tr,
      run (buyNFT (ctx buyer 30) 1200 0) listedNative
      = Ok (tt, s', tr) /\
      _ownerOf listedNative 0 = creator /\
      _ownerOf s' 0 = buyer /\
      getListing s' 0 = Listing.zero) /\
  (exists e,
      run (buyNFT (ctx bidderA 30) 1000 0) listedThenMoved
      = Err e).
Proof.
  destruct buyNFT_hands_over_item as (Hok & Hstale). split.
  - destruct (run (buyNFT (ctx buyer 30) 1200 0) listedNative)
      as [[[[] s'] tr]|e] eqn:H; [|vm_compute in H; discriminate].
    exists s', tr. split; [reflexivity|].
    destruct (Hok _ _ _ _ _ _ H) as (_ & _ & _ & Hs & Hb & _ & Hz & _).
    split; [rewrite Hs; vm_compute; reflexivity|]. split; [exact Hb|exact Hz].
  - exact (Hstale (ctx bidderA 30) 1000 0 listedThenMoved
             ltac:(vm_compute; congruence)).
Defined.

(** X10. Rejections of [buyNFT], in a reachable, unpaused state: an item
    without an active listing gives "Not listed for sale"; the seller's
    own purchase gives "Cannot buy your own NFT"; when fee and royalty
    together exceed the price the split underflows and every purchase
    aborts with a panic; with a computable split, too little native value
    gives "Insufficient ETH", native value sent to a token listing gives
    "ETH not accepted for ERC20 payment", and a token that refuses to
    move the buyer's funds gives "Payment transfer failed". *)
Theorem buyNFT_rejections env v tokenId s :
  reachable s ->
  _paused s = false ->
  let l := getListing s tokenId in
  let p := Listing.price l in
  let royalty := royaltyOf s tokenId p in
  (Listing.active l = false ->
   run (buyNFT env v tokenId) s = Err (Revert "Not listed for sale")) /\
  (Listing.active l = true ->
   msg_sender env = Listing.seller l ->
   run (buyNFT env v tokenId) s = Err (Revert "Cannot buy your own NFT")) /\
  (Listing.active l = true ->
   msg_sender env <> Listing.seller l ->
   p * marketplaceFee s <= uint256_max ->
   run (royaltyInfo tokenId p) s = Ok (royalty, s, []) ->
   (p < feeAmount s p + snd royalty ->
    run (buyNFT env v tokenId) s = Err Panic) /\
   (feeAmount s p + snd royalty <= p ->
    (Listing.paymentToken l = 0 -> v < p ->
     run (buyNFT env v tokenId) s = Err (Revert "Insufficient ETH")) /\
    (Listing.paymentToken l <> 0 -> v <> 0 ->
     run (buyNFT env v tokenId) s
     = Err (Revert "ETH not accepted for ERC20 payment")) /\
    (Listing.paymentToken l <> 0 -> v = 0 ->
     erc20_transferFrom env (Listing.paymentToken l) (msg_sender env)
       (this env) p = Some false ->
     run (buyNFT env v tokenId) s = Err (Revert "Payment transfer failed")))).
Proof.
  intros Hr%reachable_status Hp l p royalty. subst l p royalty.
  assert (Hhead : forall k : Tx unit,
             nonReentrant (whenNotPaused k) s [] =
             match k (upd_status (fun _ => true) s) [] with
             | Ok (_, s', tr') => Ok (tt, upd_status (fun _ => false) s', tr')
             | Err e => Err e
             end).
  { intros k. tx_unfold. rewrite Hr. cbv beta iota zeta. store_norm.
    rewrite Hp. by destruct (k _ _) as [[[[] ?] ?]|]. }
  unfold buyNFT, run. rewrite Hhead. clear Hhead.
  split; [|split].
  - intros Ha. tx_unfold. store_norm. by rewrite Ha.
  - intros Ha Hs. tx_unfold. store_norm. rewrite Ha. cbv beta iota zeta.
    by rewrite Hs, N.eqb_refl.
  - intros Ha Hs Hmul Hroy. unfold run in Hroy. tx_unfold_in Hroy.
    unfold feeAmount, royaltyOf in *. store_norm.
    destruct (_ * snd _ <=? uint256_max) eqn:Hmul2; [|discriminate].
    clear Hroy. apply N.eqb_neq in Hs. rewrite N.eqb_sym in Hs.
    apply N.leb_le in Hmul.
    split.
    + intros Hover. tx_unfold. tx_rw Ha. tx_rw Hs. cbn [negb]. cbv beta iota zeta.
        tx_rw Hmul. tx_rw Hmul2.
      store_norm.
      destruct (_ <=? Listing.price _) eqn:H1; cbv beta iota zeta; [|done].
      store_norm.
      destruct (_ <=? _ - _) eqn:H2; cbv beta iota zeta; [|done].
      exfalso. destruct (split_sum _ _ _ H1 H2) as [Hle _]. lia.
    + intros Hsum.
      pose proof (proj2 (N.leb_le _ _) (sum_le_l _ _ _ Hsum)) as H1.
      pose proof (proj2 (N.leb_le _ _) (sum_le_r _ _ _ Hsum)) as H2.
      split; [|split].
      * intros Htok Hv. tx_unfold. tx_rw Ha. tx_rw Hs. cbn [negb]. cbv beta iota zeta.
        tx_rw Hmul. tx_rw Hmul2. tx_rw H1. tx_rw H2.
        tx_rw Htok. apply N.leb_gt in Hv. by tx_rw Hv.
      * intros Htok Hv. tx_unfold. tx_rw Ha. tx_rw Hs. cbn [negb]. cbv beta iota zeta.
        tx_rw Hmul. tx_rw Hmul2. tx_rw H1. tx_rw H2.
        apply N.eqb_neq in Htok. tx_rw Htok.
        apply N.eqb_neq in Hv. by tx_rw Hv.
      * intros Htok -> Hpull. tx_unfold. tx_rw Ha. tx_rw Hs. cbn [negb]. cbv beta iota zeta.
        tx_rw Hmul. tx_rw Hmul2. tx_rw H1. tx_rw H2.
        apply N.eqb_neq in Htok. tx_rw Htok. by tx_rw Hpull.
Qed.

Lemma buyNFT_rejections_witness :
  reachable minted /\ reachable listedNative /\ reachable listedToken /\
  reachable listedOverRoyalty /\
  run (buyNFT (ctx buyer 30) 1000 0) minted
  = Err (Revert "Not listed for sale") /\
  run (buyNFT (ctx creator 30) 1000 0) listedNative
  = Err (Revert "Cannot buy your own NFT") /\
  run (buyNFT (ctx buyer 30) 1000 2) listedOverRoyalty = Err Panic /\
  run (buyNFT (ctx buyer 30) 999 0) listedNative
  = Err (Revert "Insufficient ETH") /\
  run (buyNFT (ctx buyer 30) 5 0) listedToken
  = Err (Revert "ETH not accepted for ERC20 payment") /\
  run (buyNFT (ctxTokenRefuses buyer 30) 0 0) listedToken
  = Err (Revert "Payment transfer failed").
Proof.
  assert (Hr0 : reachable minted) by solve_reachable.
  assert (Hr1 : reachable listedNative) by solve_reachable.
  assert (Hr2 : reachable listedToken) by solve_reachable.
  assert (Hr3 : reachable listedOverRoyalty)
    by (unfold listedOverRoyalty; solve_reachable).
  do 4 (split; [assumption|]).
  split; [|split; [|split; [|split; [|split]]]].
  - exact (proj1 (buyNFT_rejections (ctx buyer 30) 1000 0 minted Hr0 eq_refl)
             ltac:(vm_compute; reflexivity)).
  - exact (proj1 (proj2 (buyNFT_rejections (ctx creator 30) 1000 0
                           listedNative Hr1 eq_refl))
             ltac:(vm_compute; reflexivity) ltac:(vm_compute; reflexivity)).
  - exact (proj1 (proj2 (proj2 (buyNFT_rejections (ctx buyer 30) 1000 2
                                  listedOverRoyalty Hr3 eq_refl))
                    ltac:(vm_compute; reflexivity)
                    ltac:(vm_compute; congruence)
                    ltac:(vm_compute; congruence)
                    ltac:(vm_compute; reflexivity))
             ltac:(vm_compute; reflexivity)).
  - exact (proj1 (proj2 (proj2 (proj2 (buyNFT_rejections (ctx buyer 30) 999 0
                                         listedNative Hr1 eq_refl))
                           ltac:(vm_compute; reflexivity)
                           ltac:(vm_compute; congruence)
                           ltac:(vm_compute; congruence)
                           ltac:(vm_compute; reflexivity))
                    ltac:(vm_compute; congruence))
             ltac:(vm_compute; reflexivity) ltac:(vm_compute; reflexivity)).
  - exact (proj1 (proj2 (proj2 (proj2 (proj2 (buyNFT_rejections (ctx buyer 30)
                                                5 0 listedToken Hr2 eq_refl))
                                  ltac:(vm_compute; reflexivity)
                                  ltac:(vm_compute; congruence)
                                  ltac:(vm_compute; congruence)
                                  ltac:(vm_compute; reflexivity))
                           ltac:(vm_compute; congruence)))
             ltac:(vm_compute; congruence) ltac:(vm_compute; congruence)).
  - exact (proj2 (proj2 (proj2 (proj2 (proj2 (buyNFT_rejections
                                                (ctxTokenRefuses buyer 30)
                                                0 0 listedToken Hr2 eq_refl))
                                  ltac:(vm_compute; reflexivity)
                                  ltac:(vm_compute; congruence)
                                  ltac:(vm_compute; congruence)
                                  ltac:(vm_compute; reflexivity))
                           ltac:(vm_compute; congruence)))
             ltac:(vm_compute; congruence) eq_refl
             ltac:(vm_compute; reflexivity)).
Defined.

(** ** Outcome of ending an auction *)

Lemma endAuction_outcome env tokenId s s' tr :
  run (endAuction env tokenId) s = Ok (tt, s', tr) ->
  let a := getAuction s tokenId in
  listings s' = listings s /\
  pendingWithdrawals s' = pendingWithdrawals s /\
  (Auction.currentBidder a = 0 ->
   s' = upd_auctions (delete tokenId) s /\
   tr = [Emit (AuctionEnded tokenId 0 0)]) /\
  (Auction.currentBidder a <> 0 ->
   _ownerOf s tokenId = Auction.seller a /\
   _ownerOf s' tokenId = Auction.currentBidder a /\
   (forall other, other <> tokenId -> _ownerOf s' other = _ownerOf s other) /\
   _tokenApprovals s' = delete tokenId (_tokenApprovals s) /\
   exists pre,
     tr = pre ++
          [Emit (AuctionEnded tokenId (Auction.currentBidder a)
                   (Auction.currentBid a));
           Emit (NFTSold tokenId (Auction.seller a) (Auction.currentBidder a)
                   (Auction.currentBid a) (Auction.paymentToken a))]).
Proof.
  intros H a. subst a. unfold endAuction in H. tx_inv H; tx_done H; store_norm.
  all: try discriminate.
  all: b2p; map_lookup; cbn [fromOption].
  all: split; [done|]; split; [done|]; split; intros Hb; try congruence.
  - (* royalty paid *)
    repeat split; try done; try congruence.
    + intros other Hne; by rewrite lookup_insert_ne.
    + eexists [_; _; _]. reflexivity.
  - (* no royalty due *)
    repeat split; try done; try congruence.
    + intros other Hne; by rewrite lookup_insert_ne.
    + eexists [_; _]. reflexivity.
  - (* no bid *)
    split; [|done]. destruct s; cbn in *; subst. unfold upd_auctions; cbn.
    by rewrite delete_insert_eq.
Qed.

(** X11. Outcome of a successful [endAuction].  Without a bid the call
    only deletes the auction record and announces a null winner: owners,
    listings and pending balances are as before and no payment is made.
    With a winning bid the seller still owned the item, the highest bidder
    is its owner afterwards, the item's transfer approval is cleared, no
    other item changes owner, and the winner's bid is not credited to any
    pending balance; the call announces the winner and the sale. *)
Theorem endAuction_outcomes :
  (forall env tokenId s s' tr,
      run (endAuction env tokenId) s = Ok (tt, s', tr) ->
      Auction.currentBidder (getAuction s tokenId) = 0 ->
      s' = upd_auctions (delete tokenId) s /\
      _owners s' = _owners s /\
      pendingWithdrawals s' = pendingWithdrawals s /\
      tr = [Emit (AuctionEnded tokenId 0 0)]) /\
  (forall env tokenId s s' tr,
      run (endAuction env tokenId) s = Ok (tt, s', tr) ->
      let a := getAuction s tokenId in
      Auction.currentBidder a <> 0 ->
      _ownerOf s tokenId = Auction.seller a /\
      _ownerOf s' tokenId = Auction.currentBidder a /\
      (forall other, other <> tokenId -> _ownerOf s' other = _ownerOf s other) /\
      _getApproved s' tokenId = 0 /\
      listings s' = listings s /\
      pendingWithdrawals s' = pendingWithdrawals s /\
      exists pre,
        tr = pre ++
             [Emit (AuctionEnded tokenId (Auction.currentBidder a)
                      (Auction.currentBid a));
              Emit (NFTSold tokenId (Auction.seller a) (Auction.currentBidder a)
                      (Auction.currentBid a) (Auction.paymentToken a))]).
Proof.
  split.
  - intros env tokenId s s' tr H Hb.
    destruct (endAuction_outcome _ _ _ _ _ H) as (_ & Hp & Hno & _).
    destruct (Hno Hb) as [-> ->]. done.
  - intros env tokenId s s' tr H a Hb.
    destruct (endAuction_outcome _ _ _ _ _ H) as (Hl & Hp & _ & Hwin).
    destruct (Hwin Hb) as (? & ? & ? & Happr & ?).
    repeat split; try done.
    unfold _getApproved. by rewrite Happr, lookup_delete_eq.
Qed.

Lemma endAuction_outcomes_witness :
  (exists s' tr,
      run (endAuction (ctx buyer 4000) 0) auctionOpen = Ok (tt, s', tr) /\
      _owners s' = _owners auctionOpen /\
      tr = [Emit (AuctionEnded 0 0 0)]) /\
  (exists s' tr,
      run (endAuction (holding 1300 (ctx buyer 4000)) 0) auctionTwoBids
      = Ok (tt, s', tr) /\
      _ownerOf s' 0 = bidderB /\
      getPending s' bidderB = 0).
Proof.
  destruct endAuction_outcomes as (Hnone & Hwin). split.
  - destruct (run (endAuction (ctx buyer 4000) 0) auctionOpen)
      as [[[[] s'] tr]|e] eqn:H; [|vm_compute in H; discriminate].
    exists s', tr. split; [reflexivity|].
    destruct (Hnone _ _ _ _ _ H ltac:(vm_compute; reflexivity))
      as (_ & Ho & _ & Htr).
    split; [exact Ho|exact Htr].
  - destruct (run (endAuction (holding 1300 (ctx buyer 4000)) 0) auctionTwoBids)
      as [[[[] s'] tr]|e] eqn:H; [|vm_compute in H; discriminate].
    exists s', tr. split; [reflexivity|].
    destruct (Hwin _ _ _ _ _ H ltac:(vm_compute; congruence))
      as (_ & Hw & _ & _ & _ & Hp & _).
    split; [exact Hw|]. unfold getPending. rewrite Hp. vm_compute. reflexivity.
Defined.

(** ** Pending balances *)

Lemma dispatch_pending env m s s' tr x :
  run (dispatch env m) s = Ok (tt, s', tr) ->
  getPending s' x = getPending s x \/
  (exists v tokenId,
      m = PlaceBid v tokenId /\
      x = Auction.currentBidder (getAuction s tokenId) /\
      x <> 0 /\
      getPending s x + Auction.currentBid (getAuction s tokenId) <= uint256_max /\
      getPending s' x =
      getPending s x + Auction.currentBid (getAuction s tokenId)) \/
  (m = Withdraw /\ x = msg_sender env /\ 0 < getPending s x /\
   getPending s' x = 0).
Proof.
  intros H. destruct m; cbn [dispatch] in H.
  3: { batch_case H. by left. }
  all: unfold_ops H; tx_inv H; tx_done H; store_norm; try (by left).
  all: match goal with
       | |- context [<[?t := _]> _ !! ?i] =>
           destruct (decide (i = t)) as [->|Hne]; map_lookup;
           cbn [fromOption]; [|by left]
       end.
  - right; left. b2p. exists msg_value, tokenId. repeat split; done.
  - right; right. b2p. repeat split; done.
Qed.



(** ** The bidding window *)

(** X13. Bids and settlement are separated by the end time: a bid is
    accepted only strictly before it and [endAuction] succeeds only at or
    after it, so on one state a timestamp at which a bid is accepted is
    earlier than any at which the auction can be ended.  In a reachable
    state an active auction rejects a late bid with "Auction ended"
    (unpaused marketplace) and an early settlement with "Auction not
    ended".  An accepted bid does not move the end time. *)
Theorem auction_time_window :
  (forall env v env' tokenId s s1 tr1 s2 tr2,
      run (placeBid env v tokenId) s = Ok (tt, s1, tr1) ->
      run (endAuction env' tokenId) s = Ok (tt, s2, tr2) ->
      block_timestamp env < Auction.endTime (getAuction s tokenId) /\
      Auction.endTime (getAuction s tokenId) <= block_timestamp env' /\
      block_timestamp env < block_timestamp env') /\
  (forall env v tokenId s,
      reachable s ->
      _paused s = false ->
      Auction.active (getAuction s tokenId) = true ->
      Auction.endTime (getAuction s tokenId) <= block_timestamp env ->
      run (placeBid env v tokenId) s = Err (Revert "Auction ended")) /\
  (forall env tokenId s,
      reachable s ->
      Auction.active (getAuction s tokenId) = true ->
      block_timestamp env < Auction.endTime (getAuction s tokenId) ->
      run (endAuction env tokenId) s = Err (Revert "Auction not ended")) /\
  (forall env v tokenId s s' tr,
      run (placeBid env v tokenId) s = Ok (tt, s', tr) ->
      Auction.endTime (getAuction s' tokenId)
      = Auction.endTime (getAuction s tokenId) /\
      Auction.seller (getAuction s' tokenId)
      = Auction.seller (getAuction s tokenId) /\
      Auction.startingPrice (getAuction s' tokenId)
      = Auction.startingPrice (getAuction s tokenId) /\
      Auction.currentBid (getAuction s tokenId)
      < Auction.currentBid (getAuction s' tokenId)).
Proof.
  split; [|split; [|split]].
  - intros env v env' tokenId s s1 tr1 s2 tr2 H1 H2.
    assert (Hb : block_timestamp env < Auction.endTime (getAuction s tokenId)).
    { unfold placeBid in H1. tx_inv H1. all: store_norm; by b2p. }
    destruct (endAuction_effect _ _ _ _ _ H2) as (_ & He & _).
    repeat split; try done. lia.
  - intros env v tokenId s Hr%reachable_status Hp Ha Ht.
    unfold placeBid. tx_unfold. tx_rw Hr. tx_rw Hp. tx_rw Ha.
    apply N.ltb_ge in Ht. by tx_rw Ht.
  - intros env tokenId s Hr%reachable_status Ha Ht.
    unfold endAuction. tx_unfold. tx_rw Hr. tx_rw Ha.
    apply N.leb_gt in Ht. by tx_rw Ht.
  - intros env v tokenId s s' tr H.
    destruct (placeBid_effect _ _ _ _ _ _ H) as (-> & _).
    repeat split.
    unfold placeBid in H. tx_inv H. all: store_norm; cbn; by b2p.
Qed.

Lemma auction_time_window_witness :
  reachable auctionOneBid /\
  run (placeBid (ctx bidderB 3620) 700 0) auctionOneBid
  = Err (Revert "Auction ended") /\
  run (endAuction (ctx bidderB 3619) 0) auctionOneBid
  = Err (Revert "Auction not ended") /\
  Auction.endTime (getAuction auctionTwoBids 0)
  = Auction.endTime (getAuction auctionOneBid 0).
Proof.
  assert (Hr : reachable auctionOneBid) by solve_reachable.
  destruct auction_time_window as (_ & Hlate & Hearly & Hkeep).
  split; [exact Hr|]. split; [|split].
  - exact (Hlate (ctx bidderB 3620) 700 0 auctionOneBid Hr eq_refl
             ltac:(vm_compute; reflexivity) ltac:(vm_compute; congruence)).
  - exact (Hearly (ctx bidderB 3619) 0 auctionOneBid Hr
             ltac:(vm_compute; reflexivity) ltac:(vm_compute; reflexivity)).
  - destruct (run (placeBid (ctx bidderB 40) 700 0) auctionOneBid)
      as [[[[] s'] tr]|e] eqn:H; [|vm_compute in H; discriminate].
    assert (Hs : auctionTwoBids = s').
    { unfold auctionTwoBids, transact. cbn [dispatch]. by rewrite H. }
    rewrite Hs. exact (proj1 (Hkeep _ _ _ _ _ _ H)).
Defined.

(** ** Approval is read when a listing or an auction is created *)

Lemma approveNFT_effect env tokenId approved s s' tr :
  run (approveNFT env tokenId approved) s = Ok (tt, s', tr) ->
  s' = upd_approvedNFTs (<[tokenId := approved]>) s /\
  msg_sender env = _owner s /\
  _ownerOf s tokenId <> 0 /\
  calls tr = [].
Proof.
  intros H. unfold approveNFT, approveNFT_body in H. tx_inv H; tx_done H.
  store_norm. b2p. done.
Qed.

Lemma buyNFT_ignores_approval f env v tokenId s :
  run (buyNFT env v tokenId) (upd_approvedNFTs f s) =
  mapResult (upd_approvedNFTs f) (run (buyNFT env v tokenId) s).
Proof. unfold buyNFT. tx_commute. Qed.

Lemma placeBid_ignores_approval f env v tokenId s :
  run (placeBid env v tokenId) (upd_approvedNFTs f s) =
  mapResult (upd_approvedNFTs f) (run (placeBid env v tokenId) s).
Proof. unfold placeBid. tx_commute. Qed.

Lemma endAuction_ignores_approval f env tokenId s :
  run (endAuction env tokenId) (upd_approvedNFTs f s) =
  mapResult (upd_approvedNFTs f) (run (endAuction env tokenId) s).
Proof. unfold endAuction. tx_commute. Qed.

Lemma cancelListing_ignores_approval f env tokenId s :
  run (cancelListing env tokenId) (upd_approvedNFTs f s) =
  mapResult (upd_approvedNFTs f) (run (cancelListing env tokenId) s).
Proof. unfold cancelListing. tx_commute. Qed.

(** X14. The administrator's approval of an item is read by [listNFT]
    and [createAuction] only.  Withdrawing it leaves the item's listing
    and auction records in place and makes every later [listNFT] and
    [createAuction] for the item fail, but [buyNFT], [placeBid],
    [endAuction] and [cancelListing] run exactly as they would have with
    the approval still in place: an item that was listed or put under
    auction while approved can still be bought, bid on and settled. *)
Theorem approval_read_at_creation_only :
  forall envA tokenId s s1 tr1,
    run (approveNFT envA tokenId false) s = Ok (tt, s1, tr1) ->
    let revoke := upd_approvedNFTs (<[tokenId := false]>) in
    s1 = revoke s /\
    getListing s1 tokenId = getListing s tokenId /\
    getAuction s1 tokenId = getAuction s tokenId /\
    (forall env price tok,
        exists e, run (listNFT env tokenId price tok) s1 = Err e) /\
    (forall env sp d tok,
        exists e, run (createAuction env tokenId sp d tok) s1 = Err e) /\
    (forall env v,
        run (buyNFT env v tokenId) s1 =
        mapResult revoke (run (buyNFT env v tokenId) s)) /\
    (forall env v,
        run (placeBid env v tokenId) s1 =
        mapResult revoke (run (placeBid env v tokenId) s)) /\
    (forall env,
        run (endAuction env tokenId) s1 =
        mapResult revoke (run (endAuction env tokenId) s)) /\
    (forall env,
        run (cancelListing env tokenId) s1 =
        mapResult revoke (run (cancelListing env tokenId) s)).
Proof.
  intros envA tokenId s s1 tr1 H revoke. subst revoke.
  destruct (approveNFT_effect _ _ _ _ _ _ H) as (-> & _).
  assert (Hna : fromOption false
                  (<[tokenId := false]> (approvedNFTs s) !! tokenId) = false).
  { by map_lookup. }
  split; [done|]. split; [done|]. split; [done|].
  split; [|split; [|split; [|split; [|split]]]].
  - intros env price tok. unfold listNFT. tx_unfold.
    repeat (store_norm; rewrite ?Hna; cbv beta iota zeta; tx_goal_case).
    all: store_norm; rewrite ?Hna; cbv beta iota zeta; eexists; reflexivity.
  - intros env sp d tok. unfold createAuction. tx_unfold.
    repeat (store_norm; rewrite ?Hna; cbv beta iota zeta; tx_goal_case).
    all: store_norm; rewrite ?Hna; cbv beta iota zeta; eexists; reflexivity.
  - intros env v. apply buyNFT_ignores_approval.
  - intros env v. apply placeBid_ignores_approval.
  - intros env. apply endAuction_ignores_approval.
  - intros env. apply cancelListing_ignores_approval.
Qed.

Lemma approval_read_at_creation_only_witness :
  isTokenApproved approvalRevoked 0 = false /\
  Listing.active (getListing approvalRevoked 0) = true /\
  exists s' tr,
    run (buyNFT (ctx buyer 40) 1000 0) approvalRevoked
    = Ok (tt, s', tr) /\
    _ownerOf s' 0 = buyer.
Proof.
  destruct (run (approveNFT (ctx admin 30) 0 false) listedNative)
    as [[[[] s1] tr1]|e] eqn:H; [|vm_compute in H; discriminate].
  assert (Hs : approvalRevoked = s1).
  { unfold approvalRevoked, transact. cbn [dispatch]. by rewrite H. }
  destruct (approval_read_at_creation_only _ _ _ _ _ H)
    as (Heq & Hl & _ & _ & _ & Hbuy & _).
  rewrite Hs. split; [rewrite Heq; vm_compute; reflexivity|].
  split; [rewrite Hl; vm_compute; reflexivity|].
  specialize (Hbuy (ctx buyer 40) 1000).
  destruct (run (buyNFT (ctx buyer 40) 1000 0) listedNative)
    as [[[[] s2] tr2]|e] eqn:Hb; [|vm_compute in Hb; discriminate].
  cbn [mapResult] in Hb, Hbuy.
  eexists _, _. split; [exact Hbuy|].
  assert (Ho : _ownerOf s2 0 = buyer).
  { vm_compute in Hb. injection Hb as <- _. vm_compute. reflexivity. }
  exact Ho.
Defined.

(** ** The fee terms of a settlement *)

Lemma setMarketplaceFee_effect env fee s s' tr :
  run (setMarketplaceFee env fee) s = Ok (tt, s', tr) ->
  s' = upd_marketplaceFee (fun _ => fee) s /\
  fee <= MAX_MARKETPLACE_FEE /\
  msg_sender env = _owner s.
Proof.
  intros H. unfold setMarketplaceFee in H. tx_inv H; tx_done H.
  b2p. done.
Qed.

Lemma transferOwnership_effect env newOwner s s' tr :
  run (transferOwnership env newOwner) s = Ok (tt, s', tr) ->
  s' = upd_owner (fun _ => newOwner) s /\
  newOwner <> 0 /\
  msg_sender env = _owner s.
Proof.
  intros H. unfold transferOwnership in H. tx_inv H; tx_done H.
  b2p. done.
Qed.

Lemma purchaseCalls_fee env v s tokenId :
  In (feePayment (Listing.paymentToken (getListing s tokenId)) (_owner s)
        (Listing.price (getListing s tokenId) * marketplaceFee s / 10000))
     (purchaseCalls env v s tokenId).
Proof.
  unfold purchaseCalls, feePayment, feeAmount, nativeSettlement,
    tokenSettlement.
  destruct (Listing.paymentToken (getListing s tokenId) =? 0).
  - apply in_or_app. left. apply in_or_app. right. cbn. auto.
  - apply in_or_app. right. apply in_or_app. right. cbn. auto.
Qed.

Lemma auctionCalls_fee s tokenId :
  In (SendNative (_owner s)
        (Auction.currentBid (getAuction s tokenId) * marketplaceFee s / 10000))
     (auctionCalls s tokenId).
Proof.
  unfold auctionCalls, feeAmount, nativeSettlement.
  apply in_or_app. right. cbn. auto.
Qed.

(** X15. The fee of a sale is computed with the rate, and paid to the
    administrator, in force when the sale is settled, not when the item
    was listed or put under auction: after [setMarketplaceFee fee] a
    purchase of an earlier listing (whose record the call left as it was)
    pays [price * fee / 10000] and the end of an earlier auction pays
    [currentBid * fee / 10000]; after [transferOwnership] the fee of a
    purchase goes to the new administrator. *)
Theorem fee_terms_read_at_settlement :
  (forall envA fee env v tokenId s s1 tr1 s2 tr2,
      run (setMarketplaceFee envA fee) s = Ok (tt, s1, tr1) ->
      run (buyNFT env v tokenId) s1 = Ok (tt, s2, tr2) ->
      let l := getListing s tokenId in
      getListing s1 tokenId = l /\
      In (feePayment (Listing.paymentToken l) (_owner s)
            (Listing.price l * fee / 10000))
         (calls tr2)) /\
  (forall envA fee env tokenId s s1 tr1 s2 tr2,
      run (setMarketplaceFee envA fee) s = Ok (tt, s1, tr1) ->
      run (endAuction env tokenId) s1 = Ok (tt, s2, tr2) ->
      Auction.currentBidder (getAuction s tokenId) <> 0 ->
      let a := getAuction s tokenId in
      getAuction s1 tokenId = a /\
      In (SendNative (_owner s) (Auction.currentBid a * fee / 10000))
         (calls tr2)) /\
  (forall envA newOwner env v tokenId s s1 tr1 s2 tr2,
      run (transferOwnership envA newOwner) s = Ok (tt, s1, tr1) ->
      run (buyNFT env v tokenId) s1 = Ok (tt, s2, tr2) ->
      let l := getListing s tokenId in
      getListing s1 tokenId = l /\
      In (feePayment (Listing.paymentToken l) newOwner
            (Listing.price l * marketplaceFee s / 10000))
         (calls tr2)).
Proof.
  split; [|split].
  - intros envA fee env v tokenId s s1 tr1 s2 tr2 H1 H2 l. subst l.
    destruct (setMarketplaceFee_effect _ _ _ _ _ H1) as (-> & _).
    split; [done|].
    destruct (buyNFT_settlement _ _ _ _ _ _ H2) as (_ & _ & _ & _ & _ & _ & _ & _ & ->).
    exact (purchaseCalls_fee env v (upd_marketplaceFee (fun _ => fee) s) tokenId).
  - intros envA fee env tokenId s s1 tr1 s2 tr2 H1 H2 Hb a. subst a.
    destruct (setMarketplaceFee_effect _ _ _ _ _ H1) as (-> & _).
    split; [done|].
    destruct (endAuction_settlement _ _ _ _ _ H2 Hb)
      as (_ & _ & _ & _ & _ & _ & _ & _ & ->).
    exact (auctionCalls_fee (upd_marketplaceFee (fun _ => fee) s) tokenId).
  - intros envA newOwner env v tokenId s s1 tr1 s2 tr2 H1 H2 l. subst l.
    destruct (transferOwnership_effect _ _ _ _ _ H1) as (-> & _).
    split; [done|].
    destruct (buyNFT_settlement _ _ _ _ _ _ H2) as (_ & _ & _ & _ & _ & _ & _ & _ & ->).
    exact (purchaseCalls_fee env v (upd_owner (fun _ => newOwner) s) tokenId).
Qed.

Lemma fee_terms_read_at_settlement_witness :
  marketplaceFee listedNative = 250 /\
  exists s' tr,
    run (buyNFT (ctx buyer 40) 1000 0) feeRaised
    = Ok (tt, s', tr) /\
    In (SendNative admin 100) (calls tr).
Proof.
  split; [vm_compute; reflexivity|].
  destruct (run (setMarketplaceFee (ctx admin 30) 1000) listedNative)
    as [[[[] s1] tr1]|e] eqn:H1; [|vm_compute in H1; discriminate].
  assert (Hs : feeRaised = s1).
  { unfold feeRaised, transact. cbn [dispatch]. by rewrite H1. }
  rewrite Hs.
  destruct (run (buyNFT (ctx buyer 40) 1000 0) s1)
    as [[[[] s2] tr2]|e] eqn:H2.
  - exists s2, tr2. split; [reflexivity|].
    destruct fee_terms_read_at_settlement as (Hrate & _).
    exact (proj2 (Hrate _ _ _ _ _ _ _ _ _ _ H1 H2)).
  - exfalso. vm_compute in H1. injection H1 as <- _.
    vm_compute in H2. discriminate.
Defined.

(** ** The pause switch *)

Lemma dispatch_paused env m s s' tr :
  run (dispatch env m) s = Ok (tt, s', tr) ->
  _paused s' = _paused s \/
  (msg_sender env = _owner s /\
   ((m = Pause /\ _paused s = false /\ _paused s' = true) \/
    (m = Unpause /\ _paused s = true /\ _paused s' = false))).
Proof.
  intros H. destruct m; cbn [dispatch] in H.
  3: { batch_case H. by left. }
  all: unfold_ops H; tx_inv H; tx_done H; store_norm; try (by left).
  all: right; b2p; split; [done|]; first [by left | by right].
Qed.

Lemma setPaused_round_trip s :
  _paused s = false -> setPaused false (setPaused true s) = s.
Proof. destruct s. cbn. by intros ->. Qed.

(** X16. The pause flag changes only when the administrator calls
    [pause] on an unpaused marketplace or [unpause] on a paused one; no
    other call writes it.  For the administrator [pause] followed by
    [unpause] restores the storage as it was, [pause] on a paused
    marketplace reverts with [EnforcedPause] and [unpause] on an unpaused
    one with [ExpectedPause]. *)
Theorem pause_switch :
  (forall env m s s' tr,
      run (dispatch env m) s = Ok (tt, s', tr) ->
      _paused s' = _paused s \/
      (msg_sender env = _owner s /\
       ((m = Pause /\ _paused s = false /\ _paused s' = true) \/
        (m = Unpause /\ _paused s = true /\ _paused s' = false)))) /\
  (forall env s,
      msg_sender env = _owner s ->
      _paused s = false ->
      (exists tr, run (pause env) s = Ok (tt, setPaused true s, tr)) /\
      (exists tr, run (unpause env) (setPaused true s) = Ok (tt, s, tr)) /\
      run (unpause env) s = Err (CustomError "ExpectedPause") /\
      run (pause env) (setPaused true s)
      = Err (CustomError "EnforcedPause")).
Proof.
  split; [apply dispatch_paused|].
  intros env s Hs Hp. split; [|split; [|split]].
  - unfold pause. tx_unfold. rewrite Hs, N.eqb_refl. cbn [negb].
    cbv beta iota zeta. rewrite Hp. by eexists.
  - assert (Hu : run (unpause env) (setPaused true s)
                 = Ok (tt, setPaused false (setPaused true s), [])).
    { unfold unpause. tx_unfold.
      change (_owner (setPaused true s)) with (_owner s).
      change (_paused (setPaused true s)) with true.
      by rewrite Hs, N.eqb_refl. }
    rewrite (setPaused_round_trip s Hp) in Hu. by eexists.
  - unfold unpause. tx_unfold. rewrite Hs, N.eqb_refl. cbn [negb].
    cbv beta iota zeta. by rewrite Hp.
  - unfold pause. tx_unfold. store_norm. rewrite Hs, N.eqb_refl. done.
Qed.

Lemma pause_switch_witness :
  msg_sender (ctx admin 25) = _owner auctionOpen /\
  _paused auctionOpen = false /\
  auctionPaused = setPaused true auctionOpen /\
  transact (ctx admin 26) Unpause auctionPaused = auctionOpen /\
  run (pause (ctx admin 26)) auctionPaused
  = Err (CustomError "EnforcedPause").
Proof.
  assert (Hs : msg_sender (ctx admin 25) = _owner auctionOpen)
    by (vm_compute; reflexivity).
  assert (Hp : _paused auctionOpen = false) by (vm_compute; reflexivity).
  destruct pause_switch as (_ & Hsw).
  destruct (Hsw (ctx admin 25) auctionOpen Hs Hp) as ([tr1 H1] & _).
  destruct (Hsw (ctx admin 26) auctionOpen Hs Hp) as (_ & [tr2 H2] & _ & H4).
  assert (Hq : auctionPaused = setPaused true auctionOpen).
  { unfold auctionPaused, transact. cbn [dispatch]. by rewrite H1. }
  split; [exact Hs|]. split; [exact Hp|]. split; [exact Hq|].
  rewrite Hq. split; [|exact H4].
  unfold transact. cbn [dispatch]. by rewrite H2.
Defined.

(** ** The administrator gate *)

Lemma dispatch_admin env m s s' tr :
  adminOnly m = true ->
  run (dispatch env m) s = Ok (tt, s', tr) ->
  msg_sender env = _owner s /\
  listings s' = listings s /\
  auctions s' = auctions s /\
  _owners s' = _owners s /\
  pendingWithdrawals s' = pendingWithdrawals s /\
  _tokenRoyaltyInfo s' = _tokenRoyaltyInfo s.
Proof.
  intros Ha H. destruct m; try discriminate Ha; cbn [dispatch] in H.
  2: { unfold batchApproveNFTs in H. tx_unfold_in H. tx_case H.
       destruct (batchApproveNFTs_loop _ _ _ _) as [[[? ?] ?]|] eqn:Hl;
         [|discriminate].
       apply batchApproveNFTs_loop_effect in Hl as [? ->]. tx_done H.
       b2p. done. }
  all: unfold_ops H; tx_inv H; tx_done H; store_norm; b2p; done.
Qed.

Lemma dispatch_owner env m s s' tr :
  run (dispatch env m) s = Ok (tt, s', tr) ->
  _owner s' = _owner s \/
  (msg_sender env = _owner s /\
   ((m = TransferOwnership (_owner s') /\ _owner s' <> 0) \/
    (m = RenounceOwnership /\ _owner s' = 0))).
Proof.
  intros H. destruct m; cbn [dispatch] in H.
  3: { batch_case H. by left. }
  all: unfold_ops H; tx_inv H; tx_done H; store_norm; try (by left).
  all: right; b2p; split; [done|]; first [by left | by right].
Qed.

(** X17. The ten administrative calls ([approveNFT], [batchApproveNFTs],
    [setMarketplaceFee], [setUSDTToken], [pause], [unpause], the two
    emergency withdrawals and the two ownership calls) are rejected with
    [OwnableUnauthorizedAccount] for every caller but the administrator,
    whatever their arguments.  When one succeeds it leaves every listing,
    auction, item owner, pending balance and royalty as it was.  The
    administrator changes only by the administrator's own
    [transferOwnership] (to a non-zero account) or [renounceOwnership]
    (to the zero account). *)
Theorem admin_calls_gated :
  (forall env m s,
      adminOnly m = true ->
      msg_sender env <> _owner s ->
      run (dispatch env m) s
      = Err (CustomError "OwnableUnauthorizedAccount")) /\
  (forall env m s s' tr,
      adminOnly m = true ->
      run (dispatch env m) s = Ok (tt, s', tr) ->
      msg_sender env = _owner s /\
      listings s' = listings s /\
      auctions s' = auctions s /\
      _owners s' = _owners s /\
      pendingWithdrawals s' = pendingWithdrawals s /\
      _tokenRoyaltyInfo s' = _tokenRoyaltyInfo s) /\
  (forall env m s s' tr,
      run (dispatch env m) s = Ok (tt, s', tr) ->
      _owner s' = _owner s \/
      (msg_sender env = _owner s /\
       ((m = TransferOwnership (_owner s') /\ _owner s' <> 0) \/
        (m = RenounceOwnership /\ _owner s' = 0)))).
Proof.
  split; [|split; [apply dispatch_admin|apply dispatch_owner]].
  intros env m s Ha Hs.
  assert (Hne : (_owner s =? msg_sender env) = false)
    by (apply N.eqb_neq; congruence).
  destruct m; try discriminate Ha; cbn [dispatch].
  all: unfold approveNFT, batchApproveNFTs, setMarketplaceFee, setUSDTToken,
         pause, unpause, emergencyWithdraw, emergencyWithdrawToken,
         transferOwnership, renounceOwnership, onlyOwner.
  all: tx_unfold; by rewrite Hne.
Qed.

Lemma admin_calls_gated_witness :
  adminOnly (SetMarketplaceFee 0) = true /\
  msg_sender (ctx creator 30) <> _owner listedNative /\
  run (dispatch (ctx creator 30) (SetMarketplaceFee 0)) listedNative
  = Err (CustomError "OwnableUnauthorizedAccount") /\
  listings feeRaised = listings listedNative.
Proof.
  assert (Hs : msg_sender (ctx creator 30) <> _owner listedNative)
    by (vm_compute; congruence).
  destruct admin_calls_gated as (Hgate & Hframe & _).
  split; [reflexivity|]. split; [exact Hs|].
  split; [exact (Hgate (ctx creator 30) (SetMarketplaceFee 0) listedNative
                   eq_refl Hs)|].
  destruct (run (dispatch (ctx admin 30) (SetMarketplaceFee 1000)) listedNative)
    as [[[[] s1] tr1]|e] eqn:H1; [|vm_compute in H1; discriminate].
  assert (Hq : feeRaised = s1).
  { unfold feeRaised, transact. by rewrite H1. }
  rewrite Hq.
  exact (proj1 (proj2 (Hframe _ (SetMarketplaceFee 1000) _ _ _ eq_refl H1))).
Defined.

(** ** Emergency withdrawals *)

(** X18. [emergencyWithdraw] sends the contract's whole native balance to
    the administrator and [emergencyWithdrawToken] the contract's whole
    balance of the given token; neither writes the storage, so the
    pending balances owed to displaced bidders stay on record.  The
    native withdrawal reverts when the administrator's account does not
    accept the payment; the token withdrawal does not check the boolean
    returned by the token's [transfer] and succeeds when it is [false]. *)
Theorem emergency_withdrawals :
  (forall env s s' tr,
      run (emergencyWithdraw env) s = Ok (tt, s', tr) ->
      s' = s /\
      msg_sender env = _owner s /\
      calls tr = [SendNative (_owner s) (self_balance env)]) /\
  (forall env s,
      msg_sender env = _owner s ->
      native_accepts env (_owner s) (self_balance env) = false ->
      run (emergencyWithdraw env) s = Err CallFailed) /\
  (forall env token s s' tr,
      run (emergencyWithdrawToken env token) s = Ok (tt, s', tr) ->
      s' = s /\
      msg_sender env = _owner s /\
      exists balance,
        erc20_balanceOf env token (this env) = Some balance /\
        calls tr = [Erc20BalanceOf token (this env);
                    Erc20Transfer token (_owner s) balance]) /\
  (forall env token s balance,
      msg_sender env = _owner s ->
      erc20_balanceOf env token (this env) = Some balance ->
      erc20_transfer env token (_owner s) balance = Some false ->
      exists tr, run (emergencyWithdrawToken env token) s = Ok (tt, s, tr)).
Proof.
  split; [|split; [|split]].
  - intros env s s' tr H. unfold emergencyWithdraw in H.
    unfold sendNative in H. tx_inv H; tx_done H. b2p. done.
  - intros env s Hs Hn. unfold emergencyWithdraw, sendNative. tx_unfold.
    rewrite Hs, N.eqb_refl. cbn [negb]. cbv beta iota zeta.
    by rewrite Hn, andb_false_r.
  - intros env token s s' tr H. unfold emergencyWithdrawToken in H.
    unfold tokenTransfer in H. tx_inv H; tx_done H. b2p.
    split; [done|]. split; [done|]. by eexists.
  - intros env token s balance Hs Hb Ht.
    unfold emergencyWithdrawToken, tokenTransfer. tx_unfold.
    rewrite Hs, N.eqb_refl. cbn [negb]. cbv beta iota zeta.
    rewrite Hb. cbv beta iota zeta. rewrite Ht. by eexists.
Qed.

Lemma emergency_withdrawals_witness :
  msg_sender (ctxTransferFalse admin 50) = _owner auctionTwoBids /\
  getPending auctionTwoBids bidderA = 600 /\
  exists tr,
    run (emergencyWithdrawToken (ctxTransferFalse admin 50) usdt)
      auctionTwoBids
    = Ok (tt, auctionTwoBids, tr).
Proof.
  assert (Hs : msg_sender (ctxTransferFalse admin 50) = _owner auctionTwoBids)
    by (vm_compute; reflexivity).
  split; [exact Hs|]. split; [vm_compute; reflexivity|].
  destruct emergency_withdrawals as (_ & _ & _ & Hignore).
  exact (Hignore (ctxTransferFalse admin 50) usdt auctionTwoBids 500 Hs
           eq_refl eq_refl).
Defined.

(** ** Items stay with their owner while on sale *)

Lemma transferFrom_by_owner env to tokenId s :
  _ownerOf s tokenId = msg_sender env ->
  msg_sender env <> 0 ->
  to <> 0 ->
  run (transferFrom env (msg_sender env) to tokenId) s
  = Ok (tt, upd_owners (<[tokenId := to]>)
              (upd_tokenApprovals (delete tokenId) s), []).
Proof.
  intros Ho Hs Hto. apply N.eqb_neq in Hs, Hto.
  unfold transferFrom, _update, _isAuthorized. tx_unfold. store_norm.
  unfold _ownerOf in Ho.
  rewrite Hto. cbv beta iota zeta. rewrite Hs. cbv beta iota zeta.
  rewrite Ho, N.eqb_refl. cbn [negb andb orb]. cbv beta iota zeta.
  rewrite Hs. cbn [negb]. cbv beta iota zeta.
  rewrite N.eqb_refl. reflexivity.
Qed.

(** X19. The marketplace does not take custody of an item that is listed
    or under auction: its owner can still transfer it in the registry,
    and the transfer leaves the listing, the auction and the pending
    balances as they were.  Once the item is with another account, the
    seller's listing can no longer be bought and the seller's auction
    with a standing bid can no longer be ended: both calls revert for
    every caller. *)
Theorem items_on_sale_not_escrowed :
  forall env to tokenId s,
    _ownerOf s tokenId = msg_sender env ->
    msg_sender env <> 0 ->
    to <> 0 ->
    to <> msg_sender env ->
    exists s' tr,
      run (transferFrom env (msg_sender env) to tokenId) s = Ok (tt, s', tr) /\
      _ownerOf s' tokenId = to /\
      listings s' = listings s /\
      auctions s' = auctions s /\
      pendingWithdrawals s' = pendingWithdrawals s /\
      (forall env' v,
          Listing.seller (getListing s tokenId) = msg_sender env ->
          exists e, run (buyNFT env' v tokenId) s' = Err e) /\
      (forall env',
          Auction.seller (getAuction s tokenId) = msg_sender env ->
          Auction.currentBidder (getAuction s tokenId) <> 0 ->
          exists e, run (endAuction env' tokenId) s' = Err e).
Proof.
  intros env to tokenId s Ho Hs Hto Hne.
  eexists _, _. split; [by apply transferFrom_by_owner|].
  set (s' := upd_owners _ _).
  assert (Hown : _ownerOf s' tokenId = to).
  { unfold s'. store_norm. by map_lookup. }
  split; [exact Hown|]. split; [done|]. split; [done|]. split; [done|].
  split.
  - intros env' v Hseller.
    destruct (run (buyNFT env' v tokenId) s') as [[[[] s2] tr2]|e] eqn:Hb;
      [exfalso|by exists e].
    destruct (buyNFT_effect _ _ _ _ _ _ Hb) as (_ & _ & _ & _ & Hso & _).
    change (getListing s' tokenId) with (getListing s tokenId) in Hso.
    congruence.
  - intros env' Hseller Hbid.
    destruct (run (endAuction env' tokenId) s') as [[[[] s2] tr2]|e] eqn:He;
      [exfalso|by exists e].
    destruct (endAuction_outcome _ _ _ _ _ He) as (_ & _ & _ & Hwin).
    change (getAuction s' tokenId) with (getAuction s tokenId) in Hwin.
    destruct (Hwin Hbid) as (Hso & _). congruence.
Qed.

Lemma items_on_sale_not_escrowed_witness :
  _ownerOf auctionTwoBids 0 = creator /\
  Auction.currentBidder (getAuction auctionTwoBids 0) = bidderB /\
  exists s' tr,
    run (transferFrom (ctx creator 50) creator buyer 0) auctionTwoBids
    = Ok (tt, s', tr) /\
    _ownerOf s' 0 = buyer /\
    auctions s' = auctions auctionTwoBids /\
    exists e, run (endAuction (holding 1300 (ctx bidderB 4000)) 0) s' = Err e.
Proof.
  split; [vm_compute; reflexivity|]. split; [vm_compute; reflexivity|].
  destruct (items_on_sale_not_escrowed (ctx creator 50) buyer 0 auctionTwoBids)
    as (s' & tr & Ht & Ho & _ & Ha & _ & _ & Hend).
  - vm_compute; reflexivity.
  - vm_compute; congruence.
  - vm_compute; congruence.
  - vm_compute; congruence.
  - exists s', tr. split; [exact Ht|]. split; [exact Ho|]. split; [exact Ha|].
    apply (Hend (holding 1300 (ctx bidderB 4000))).
    + vm_compute; reflexivity.
    + vm_compute; congruence.
Defined.

(** ** Reentrant hooks *)

Lemma dispatch_invariant env m s s' tr :
  marketInvariant s ->
  run (dispatch env m) s = Ok (tt, s', tr) ->
  marketInvariant s'.
Proof.
  intros (Hst & Hfee & Hex & Hl & Ha & Happ & Hp & Hp0) H.
  split; [by apply (dispatch_status _ _ _ _ _ H)|].
  split; [destruct (dispatch_marketplaceFee _ _ _ _ _ H) as [->|[? _]]; done|].
  split.
  { intros id [Hl' Ha'].
    destruct (dispatch_activation _ _ _ _ _ H id) as [HL HA].
    destruct (HL Hl') as [Hl0|(Ha0 & Heq & _)].
    - destruct (HA Ha') as [Ha0|(Hl1 & _)]; [|congruence].
      by apply (Hex id).
    - unfold getAuction in *. rewrite Heq in Ha'. congruence. }
  split.
  { intros tokenId l Hl'.
    destruct (dispatch_listings _ _ _ _ _ _ _ H Hl')
      as [Hold|(price & tok & -> & -> & Hpr & Ho & Hs)].
    - destruct (Hl _ _ Hold) as (? & ? & ? & ? & Hexi).
      repeat split; try done. by apply (dispatch_exists _ _ _ _ _ _ H).
    - repeat split; try done. cbn.
      apply (dispatch_exists _ _ _ _ _ _ H). congruence. }
  split.
  { intros tokenId a' Ha'.
    destruct (dispatch_auctions _ _ _ _ _ _ _ H Ha')
      as [Hold|[(sp & d & tok & -> & -> & Hsp & Hd1 & Hd2 & Hfit & Ho & Hs)
               |(a & v & -> & Hold & -> & Hact & Ht & Hsel & Htok & Hv1 & Hv2)]].
    - destruct (Ha _ _ Hold) as (? & ? & ? & ? & ? & ? & ? & ? & ? & ? & Hexi).
      repeat split; try done. by apply (dispatch_exists _ _ _ _ _ _ H).
    - unfold auctionWellFormed. cbn.
      repeat split; try done; try lia; try congruence.
      all: try (by left).
      all: apply (dispatch_exists _ _ _ _ _ _ H); congruence.
    - destruct (Ha _ _ Hold) as (? & ? & ? & ? & ? & ? & ? & ? & ? & ? & Hexi).
      unfold auctionWellFormed. cbn.
      repeat split; try done; try lia.
      all: try (by right).
      all: by apply (dispatch_exists _ _ _ _ _ _ H). }
  split.
  { intros tokenId Ha'. apply (dispatch_exists _ _ _ _ _ _ H).
    destruct (dispatch_approved _ _ _ _ _ _ H Ha') as [?|?]; auto. }
  split.
  - intros x.
    destruct (dispatch_pending _ _ _ _ _ x H)
      as [->|[(v & t & _ & _ & _ & Hfit & ->)|(_ & _ & _ & ->)]];
      [apply Hp|exact Hfit|lia].
  - destruct (dispatch_pending _ _ _ _ _ 0 H)
      as [->|[(v & t & _ & _ & Hne & _)|(_ & _ & _ & ->)]]; done.
Qed.

Lemma reachable_invariant s : reachable s -> marketInvariant s.
Proof.
  induction 1 as [d u|s env m s' tr _ IH H].
  - split; [done|]. split; [by cbv|].
    split; [intros tokenId [Hl _]; by cbn in Hl|].
    split; [intros tokenId l Hl; by cbn in Hl|].
    split; [intros tokenId a Ha; by cbn in Ha|].
    split; [intros tokenId Ha; by cbn in Ha|].
    split; done.
  - by apply (dispatch_invariant _ _ _ _ _ IH H).
Qed.

(** Assigning an item to a non-zero account, as a mint does before it
    calls the hook, keeps the invariant. *)
Lemma assign_invariant f tokenId to s :
  to <> 0 ->
  marketInvariant s ->
  marketInvariant (upd_owners (<[tokenId := to]>) (upd_tokenIdCounter f s)).
Proof.
  intros Hto (Hst & Hfee & Hex & Hl & Ha & Happ & Hp & Hp0).
  assert (Hkeep : forall item,
             _ownerOf s item <> 0 ->
             _ownerOf (upd_owners (<[tokenId := to]>) (upd_tokenIdCounter f s))
               item <> 0).
  { intros item Hi. store_norm.
    destruct (decide (item = tokenId)) as [->|Hne]; map_lookup; done. }
  split; [done|]. split; [done|]. split; [exact Hex|].
  split.
  { intros item l Hl'. destruct (Hl item l Hl') as (? & ? & ? & ? & Hexi).
    repeat split; try done. by apply Hkeep. }
  split.
  { intros item a Ha'.
    destruct (Ha item a Ha') as (? & ? & ? & ? & ? & ? & ? & ? & ? & ? & Hexi).
    repeat split; try done. by apply Hkeep. }
  split; [|split; [exact Hp|exact Hp0]].
  intros item Ha'. apply Hkeep. by apply Happ.
Qed.

(** Writing a URI and a royalty, as a mint does after the hook, keeps the
    invariant: it speaks of neither. *)
Lemma annotate_invariant f g s :
  marketInvariant s ->
  marketInvariant (upd_tokenURIs f s) /\
  marketInvariant (upd_tokenRoyaltyInfo g (upd_tokenURIs f s)).
Proof. intros H. split; exact H. Qed.

Lemma callsFrom_invariant s s' :
  callsFrom s s' -> marketInvariant s -> marketInvariant s'.
Proof.
  induction 1 as [s
                 |s env m s1 tr s2 H _ IH
                 |s env to uri rr fee cb tokenId s1 tr s2 _ IHcb H _ IH
                 |s env from to tokenId cb s1 tr s2 _ IHcb H _ IH];
    intros Hinv.
  - exact Hinv.
  - apply IH. by apply (dispatch_invariant _ _ _ _ _ Hinv H).
  - apply IH.
    destruct (mintNFT_hook _ _ _ _ _ _ _ _ _ _ H)
      as (_ & Hto & _ & _ & s0 & Hhook & ->).
    assert (H0 : marketInvariant s0).
    { destruct (has_code env to).
      - destruct Hhook as (_ & tr1 & Hrun).
        apply (IHcb _ _ _ _ Hrun). by apply assign_invariant.
      - subst s0. by apply assign_invariant. }
    destruct (annotate_invariant (<[_tokenIdCounter s := uri]>)
                (<[_tokenIdCounter s := (rr, fee)]>) s0 H0) as [? ?].
    by destruct (negb (rr =? 0) && (0 <? fee)).
  - apply IH. unfold safeTransferFrom, _checkOnERC721Received in H.
    unfold run, bind in H.
    destruct (transferFrom env from to tokenId s []) as [[[[] s0] tr0]|e] eqn:Ht;
      [|discriminate].
    assert (H0 : marketInvariant s0)
      by (apply (dispatch_invariant env (TransferFrom from to tokenId) s s0 tr0
                   Hinv); exact Ht).
    destruct (has_code env to).
    + tx_unfold_in H.
      destruct (cb s0 _) as [[[[] s3] tr3]|e] eqn:Hcb; [|discriminate].
      destruct (erc721_receiver_ok env to tokenId); [|discriminate].
      tx_done H. by apply (IHcb _ _ _ _ Hcb).
    + tx_done H. exact H0.
Qed.

Lemma nested_callsFrom env m s tr s' tr' :
  nested env m s tr = Ok (tt, s', tr') -> callsFrom s s'.
Proof.
  unfold nested.
  destruct (run (dispatch env m) s) as [[[[] s1] tr1]|e] eqn:H; intros Heq.
  - injection Heq as <- _. eapply callsFrom_call; [exact H|].
    apply callsFrom_done.
  - injection Heq as <- _. apply callsFrom_done.
Qed.

(** X20. The facts that hold between calls (free reentrancy lock, fee
    within its ceiling, no item both listed and under auction, well-formed
    listing and auction records, approved items exist, pending balances
    within [uint256] and none for the zero address) hold in every
    reachable state and survive hooks that call back: whatever calls the
    recipient of a [mintNFT] or of a safe transfer makes into the
    marketplace while its hook runs, nested to any depth, the storage
    satisfies them again when the outer call returns. *)
Theorem invariants_survive_reentrancy :
  (forall s, reachable s -> marketInvariant s) /\
  (forall env m s s' tr,
      marketInvariant s ->
      run (dispatch env m) s = Ok (tt, s', tr) ->
      marketInvariant s') /\
  (forall s s', marketInvariant s -> callsFrom s s' -> marketInvariant s') /\
  (forall env to uri rr fee callbacks s tokenId s' tr,
      marketInvariant s ->
      (forall s0 tr0 s0' tr0',
          callbacks s0 tr0 = Ok (tt, s0', tr0') -> callsFrom s0 s0') ->
      run (mintNFT env to uri rr fee callbacks) s = Ok (tokenId, s', tr) ->
      marketInvariant s') /\
  (forall env m s tr s' tr',
      nested env m s tr = Ok (tt, s', tr') -> callsFrom s s').
Proof.
  split; [exact reachable_invariant|].
  split; [intros env m s s' tr Hinv H; exact (dispatch_invariant _ _ _ _ _ Hinv H)|].
  split; [intros s s' Hinv H; exact (callsFrom_invariant _ _ H Hinv)|].
  split; [|exact nested_callsFrom].
  intros env to uri rr fee callbacks s tokenId s' tr Hinv Hcb H.
  apply (callsFrom_invariant s s'); [|exact Hinv].
  eapply callsFrom_mint; [exact Hcb|exact H|apply callsFrom_done].
Qed.

Lemma invariants_survive_reentrancy_witness :
  reachable minted /\
  exists s' tr,
    run (mintNFT (ctxToContract creator 12) receiver "ipfs://outer" 0 0
           mintsAgain) minted
    = Ok (1, s', tr) /\
    _tokenIdCounter s' = 3 /\
    marketInvariant s'.
Proof.
  assert (Hr : reachable minted) by solve_reachable.
  split; [exact Hr|].
  destruct (run (mintNFT (ctxToContract creator 12) receiver "ipfs://outer"
                   0 0 mintsAgain) minted)
    as [[[tokenId s'] tr]|e] eqn:H; [|vm_compute in H; discriminate].
  destruct invariants_survive_reentrancy as (Hreach & _ & _ & Hmint & Hnested).
  assert (Hinv : marketInvariant s').
  { apply (Hmint _ _ _ _ _ _ _ _ _ _ (Hreach _ Hr)
             (Hnested (ctxToContract receiver 12)
                (MintNFT receiver "ipfs://nested" 0 0)) H). }
  assert (Hid : tokenId = 1 /\ _tokenIdCounter s' = 3).
  { vm_compute in H. injection H as <- <- _. split; vm_compute; reflexivity. }
  destruct Hid as [-> Hc].
  exists s', tr. split; [reflexivity|]. split; [exact Hc|exact Hinv].
Defined.

(** ** Solvency *)

Lemma total_empty {K} `{Countable K} {A} (size : A -> N) :
  total size (∅ : gmap K A) = 0.
Proof. unfold total. by rewrite map_fold_empty. Qed.

Lemma total_insert_fresh {K} `{Countable K} {A} (size : A -> N)
    (m : gmap K A) k a :
  m !! k = None -> total size (<[k := a]> m) = size a + total size m.
Proof.
  intros Hk. unfold total. rewrite map_fold_insert_L; [done| |done].
  intros. lia.
Qed.

Lemma total_delete {K} `{Countable K} {A} (size : A -> N) z
    (m : gmap K A) k :
  size z = 0 ->
  total size (delete k m) + size (fromOption z (m !! k)) = total size m.
Proof.
  intros Hz. destruct (m !! k) as [a|] eqn:Hk; cbn [fromOption].
  - rewrite <- (insert_delete_id m k a Hk) at 2.
    rewrite total_insert_fresh by apply lookup_delete_eq. lia.
  - rewrite delete_id by done. lia.
Qed.

Lemma total_insert {K} `{Countable K} {A} (size : A -> N) z
    (m : gmap K A) k a :
  size z = 0 ->
  total size (<[k := a]> m) + size (fromOption z (m !! k))
  = total size m + size a.
Proof.
  intros Hz. rewrite <- (insert_delete_eq m k a).
  rewrite total_insert_fresh by apply lookup_delete_eq.
  pose proof (total_delete size z m k Hz). lia.
Qed.

Lemma total_lookup {K} `{Countable K} {A} (size : A -> N) z
    (m : gmap K A) k :
  size z = 0 -> size (fromOption z (m !! k)) <= total size m.
Proof. intros Hz. pose proof (total_delete size z m k Hz). lia. Qed.

Lemma pending_insert (m : gmap address N) k a :
  total (fun amount => amount) (<[k := a]> m) + fromOption 0 (m !! k)
  = total (fun amount => amount) m + a.
Proof. exact (total_insert (fun amount => amount) 0 m k a eq_refl). Qed.

Lemma bids_insert (m : gmap N Auction.t) k a :
  total Auction.currentBid (<[k := a]> m)
  + Auction.currentBid (fromOption Auction.zero (m !! k))
  = total Auction.currentBid m + Auction.currentBid a.
Proof. exact (total_insert Auction.currentBid Auction.zero m k a eq_refl). Qed.

Lemma bids_delete (m : gmap N Auction.t) k :
  total Auction.currentBid (delete k m)
  + Auction.currentBid (fromOption Auction.zero (m !! k))
  = total Auction.currentBid m.
Proof. exact (total_delete Auction.currentBid Auction.zero m k eq_refl). Qed.

Ltac sums :=
  repeat match goal with
    | |- context [total ?sz (<[?k := ?a]> ?m)] =>
        first [ pose proof (pending_insert m k a)
              | pose proof (bids_insert m k a) ];
        generalize dependent (total sz (<[k := a]> m)); intros
    | |- context [total ?sz (delete ?k ?m)] =>
        pose proof (bids_delete m k);
        generalize dependent (total sz (delete k m)); intros
    end.

Ltac abstract_shares :=
  repeat match goal with
    | H : context [?a * ?b / 10000] |- _ =>
        let x := fresh "x" in
        set (x := a * b / 10000) in *; clearbody x
    | |- context [?a * ?b / 10000] =>
        let x := fresh "x" in
        set (x := a * b / 10000) in *; clearbody x
    end.

Lemma nativeSent_emits {A} (f : A -> Event) (l : list A) :
  nativeSent (map (fun a => Emit (f a)) l) = 0.
Proof. induction l as [|a l IH]; [done|exact IH]. Qed.

(** What a call adds to what the contract owes, and what it pays out, is
    covered by what the contract owed before and the value sent with the
    call. *)
Lemma dispatch_owed env m s s' tr :
  m <> EmergencyWithdraw ->
  run (dispatch env m) s = Ok (tt, s', tr) ->
  owed s' + nativeSent tr <= owed s + msgValue m.
Proof.
  intros Hm H. destruct m; try congruence; cbn [dispatch] in H; clear Hm.
  3: { unfold batchApproveNFTs in H. tx_unfold_in H. tx_case H.
       rewrite batchApproveNFTs_loop_run in H.
       destruct (forallb _ tokenIds) eqn:Hf; [|discriminate]. tx_done H.
       unfold owed, pendingTotal, bidsTotal, msgValue. store_norm.
       rewrite nativeSent_emits. lia. }
  all: unfold_ops H; tx_inv H; tx_done H.
  all: unfold owed, pendingTotal, bidsTotal, msgValue; store_norm.
  all: try (cbn; lia).
  all: rewrite ?delete_insert_eq.
  all: unfold royaltyOf, royaltyDue, _feeDenominator in *; store_norm.
  all: repeat match goal with
         | H : (_, _) = (_, _) |- _ => inversion H; subst; clear H
         end.
  all: sums; b2p; cbn [Auction.currentBid Auction.set_bid Auction.set_active
                       fst snd] in *.
  all: abstract_shares.
  all: lia.
Qed.

Lemma reachableWorld_solvent w :
  reachableWorld w -> owed (world_storage w) <= world_balance w.
Proof.
  induction 1 as [d u|w env m _ IH Hm|w amount _ IH].
  - cbn. unfold owed, pendingTotal, bidsTotal. cbn.
    by rewrite !total_empty.
  - unfold call.
    destruct (run (dispatch _ m) (world_storage w)) as [[[[] s'] tr]|e] eqn:H;
      [|exact IH].
    cbn [world_storage world_balance].
    pose proof (dispatch_owed _ _ _ _ _ Hm H). lia.
  - cbn [world_storage world_balance]. lia.
Qed.


